(** * Task-Management-API: authentication, authorization and task ownership

    A shallow embedding of the TypeScript backend:
    - [AuthService] (register, login, verifyToken),
    - the middleware [authenticate], [requireRole] and [validate],
    - the Joi schemas of [utils/validation],
    - [TaskService] and the controllers and routes that call it.

    The database behind Prisma is an explicit state that every operation
    threads; thrown exceptions are the left summand of the result.  What
    the code draws from its environment (the clock, bcrypt's random salt,
    the UUID the database generates) is an explicit argument. *)

From Stdlib Require Import ZArith QArith String List Lia Bool.
From stdpp Require Import base option gmap strings list sorting.

Local Open Scope string_scope.
Local Open Scope list_scope.
Local Open Scope Z_scope.

(** ** JavaScript values *)

(** A JavaScript number: a finite value (every double is a rational), the
    two infinities, or NaN. *)
Inductive JsNumber :=
| Finite (q : Q)
| PosInf
| NegInf
| NaN.

(** The values that occur in a parsed query string or JSON body.  Arrays
    and nested objects are kept flat (their members as text): the schemas
    of this program only ever reject them. *)
Inductive JsVal :=
| VStr (s : string)
| VNum (n : JsNumber)
| VBool (b : bool)
| VNull
| VArr (l : list string)
| VObj (l : list (string * string)).

(** [s.length]: a JavaScript string counts UTF-16 code units.  A string
    here holds the UTF-8 bytes of the text: a byte below 0x80 and the lead
    byte of a sequence of two or three bytes begin a character of one
    unit, the lead byte of a sequence of four bytes a character of two
    units (a surrogate pair), and a continuation byte begins none. *)
Definition utf16_units (c : Ascii.ascii) : nat :=
  let n := Ascii.nat_of_ascii c in
  if (n <? 128)%nat then 1%nat
  else if (n <? 192)%nat then 0%nat
  else if (n <? 240)%nat then 1%nat
  else 2%nat.

Fixpoint js_length (s : string) : nat :=
  match s with
  | EmptyString => 0%nat
  | String c rest => (utf16_units c + js_length rest)%nat
  end.

Definition isNaN (n : JsNumber) : bool :=
  match n with NaN => true | _ => false end.

(** [Number.isInteger] on a finite value. *)
Definition q_is_integer (q : Q) : bool :=
  (Qnum q mod Zpos (Qden q) =? 0)%Z.

(** The integer a whole rational denotes. *)
Definition q_to_Z (q : Q) : Z := (Qnum q / Zpos (Qden q))%Z.

Definition MAX_SAFE_INTEGER : Z := 2 ^ 53 - 1.

(** ** Enumerations of the Prisma schema *)

Inductive Role := USER | ADMIN.
Inductive TaskStatus := PENDING | IN_PROGRESS | COMPLETED.

#[global] Instance Role_eq_dec : EqDecision Role.
Proof. solve_decision. Defined.
#[global] Instance TaskStatus_eq_dec : EqDecision TaskStatus.
Proof. solve_decision. Defined.

Definition Role_to_string (r : Role) : string :=
  match r with USER => "USER" | ADMIN => "ADMIN" end.

(** ** Errors *)

(** Modelled from the spec: [errorCodes] of [utils/errors], a module that
    is not among the sources.  These are the members the sources use; the
    error taxonomy of the specification and the codes the tests expect on
    the wire give them their meaning. *)
Inductive ErrorCode :=
| VALIDATION_ERROR
| CONFLICT
| AUTH_FAILED
| INVALID_TOKEN
| FORBIDDEN
| NOT_FOUND.

#[global] Instance ErrorCode_eq_dec : EqDecision ErrorCode.
Proof. solve_decision. Defined.

(** One entry of the [details] array that [validate] builds. *)
Record FieldError := mkFieldError { field : string; fe_message : string }.

(** Modelled from the spec: the class [AppError] of [utils/errors], as its
    constructor is called: [new AppError(statusCode, code, message,
    details?)]. *)
Record AppError := mkAppError {
  statusCode : Z;
  code : ErrorCode;
  message : string;
  details : option (list FieldError)
}.

(** The errors of the jsonwebtoken library. *)
Inductive JwtError :=
| JsonWebTokenError (msg : string)
| TokenExpiredError (expiredAt : Z)
| NotBeforeError.

(** Whatever a call can throw. *)
Inductive Exn :=
| AppErr (e : AppError)
| JwtErr (e : JwtError)
| PrismaErr (prismaCode : string)
| PlainError (msg : string).

(** The error kinds the specification names (its section 7), and the
    NotFound of the task service. *)
Inductive ErrorKind :=
| ValidationError
| Conflict
| AuthFailed
| InvalidToken
| Forbidden
| Unauthenticated
| NotFound
| StorageUnavailable.

(** The kind a thrown value has for the caller: the code of an
    [AppError]; a fault of the Prisma client is a storage fault; other
    exceptions have no kind of their own. *)
Definition kind_of_code (c : ErrorCode) : ErrorKind :=
  match c with
  | VALIDATION_ERROR => ValidationError
  | CONFLICT => Conflict
  | AUTH_FAILED => AuthFailed
  | INVALID_TOKEN => InvalidToken
  | FORBIDDEN => Forbidden
  | NOT_FOUND => NotFound
  end.

Definition error_kind (e : Exn) : option ErrorKind :=
  match e with
  | AppErr a => Some (kind_of_code (code a))
  | PrismaErr _ => Some StorageUnavailable
  | _ => None
  end.

(** ** Rows of the two tables

    The Prisma schema is not among the sources; the rows have the fields
    the services, the seed script and the Swagger definition use. *)

Record User := mkUser {
  u_id : string;
  u_email : string;
  u_password : string;
  u_role : Role;
  u_createdAt : Z;
  u_updatedAt : Z
}.

Record Task := mkTask {
  t_id : string;
  t_title : string;
  t_description : option string;
  t_status : TaskStatus;
  t_userId : string;
  t_createdAt : Z;
  t_updatedAt : Z
}.

(** The database: the rows of each table in insertion order. *)
Record Db := mkDb { users : list User; tasks : list Task }.

Definition empty_db : Db := mkDb [] [].

(** ** The monad of database calls that may throw

    A throw keeps the state reached so far: nothing here runs inside a
    transaction. *)
Definition M (A : Type) : Type := Db → (Exn + A) * Db.

#[global] Instance M_ret : MRet M := λ A (x : A) db, (inr x, db).
#[global] Instance M_bind : MBind M := λ A B (f : A → M B) (c : M A) db,
  match c db with
  | (inr x, db') => f x db'
  | (inl e, db') => (inl e, db')
  end.

Definition throw {A} (e : Exn) : M A := λ db, (inl e, db).

(** ** Libraries the services call

    bcrypt and the JWS layer under jsonwebtoken are interfaces with the
    laws the program relies on.  bcrypt draws a random salt; here the salt
    is an argument. *)

Class Bcrypt := {
  bcrypt_hash : string → nat → string → string;
  bcrypt_compare : string → string → bool;
  bcrypt_compare_hash : ∀ data rounds salt,
    bcrypt_compare data (bcrypt_hash data rounds salt) = true
}.

(** What a token holds.  [interface TokenPayload] declares [sub], [role],
    [iat] and [exp], and [verifyToken] casts what [jwt.verify] returns to
    it without a check: of the registered claims jsonwebtoken reads, [exp]
    and [nbf] are there or not, as the token has them. *)
Record TokenPayload := mkClaims {
  sub : string;
  role : Role;
  iat : Z;
  exp : option Z;
  nbf : option Z
}.

(** The payload [jwt.sign] makes of [{sub, role}] under [expiresIn]: the
    two time stamps and no [nbf]. *)
Definition mkTokenPayload (sub0 : string) (role0 : Role) (iat0 exp0 : Z)
    : TokenPayload :=
  mkClaims sub0 role0 iat0 (Some exp0) None.

(** The compact JWS serialization with HS256: [jws_sign] builds the token
    text from a payload and a secret, [jws_decode] reads the payload back
    (None when the text is not a three-part token with a decodable
    payload), [jws_verify] recomputes and compares the signature. *)
Class Jws := {
  jws_sign : string → TokenPayload → string;
  jws_decode : string → option TokenPayload;
  jws_verify : string → string → bool;
  jws_sign_nonempty : ∀ secret p, jws_sign secret p ≠ "";
  jws_decode_sign : ∀ secret p, jws_decode (jws_sign secret p) = Some p;
  jws_verify_sign : ∀ secret p, jws_verify (jws_sign secret p) secret = true
}.

(** Modelled from the spec: [config.jwt] of the [config] module, which is
    not among the sources: the signing secret and the token TTL, the
    latter resolved to seconds (the environment sets "15m", 900 seconds). *)
Record Config := mkConfig { jwt_secret : string; jwt_expiry : Z }.

(** The clock jsonwebtoken reads: [Math.floor(Date.now() / 1000)]. *)
Definition clockTimestamp (now_ms : Z) : Z := now_ms / 1000.

(** *** jsonwebtoken *)
Module jwt.
Section jwt.
Context `{Jws}.

(** [jwt.sign({sub, role}, secret, {expiresIn})]: stamps [iat] with the
    clock and [exp] with [iat + expiresIn]. *)
Definition sign (sub0 : string) (role0 : Role) (secret : string)
    (expiresIn : Z) (now_ms : Z) : Exn + string :=
  if decide (secret = "") then
    inl (PlainError "secretOrPrivateKey must have a value")
  else
    let timestamp := clockTimestamp now_ms in
    inr (jws_sign secret
           (mkTokenPayload sub0 role0 timestamp (timestamp + expiresIn))).

(** [payload.nbf > clockTimestamp], for a token that has an [nbf]. *)
Definition not_active (payload : TokenPayload) (now_ms : Z) : bool :=
  match payload.(nbf) with
  | Some n => bool_decide (clockTimestamp now_ms < n)
  | None => false
  end.

(** [jwt.verify(token, secret)] with no options: the token must be
    present, decode, carry a signature that verifies under the secret,
    have reached its [nbf] if it has one, and not have reached its [exp]
    if it has one. *)
Definition verify (token : string) (secret : string) (now_ms : Z)
    : JwtError + TokenPayload :=
  if decide (token = "") then inl (JsonWebTokenError "jwt must be provided")
  else
    match jws_decode token with
    | None => inl (JsonWebTokenError "jwt malformed")
    | Some payload =>
        if decide (secret = "") then
          inl (JsonWebTokenError "secret or public key must be provided")
        else if negb (jws_verify token secret) then
          inl (JsonWebTokenError "invalid signature")
        else if not_active payload now_ms then inl NotBeforeError
        else
          match payload.(exp) with
          | Some e =>
              if decide (e ≤ clockTimestamp now_ms) then inl (TokenExpiredError e)
              else inr payload
          | None => inr payload
          end
    end.
End jwt.
End jwt.

(** *** The Prisma client *)
Module prisma.

(** [prisma.user.findUnique({ where: { email } })]. *)
Definition user_findUnique (email : string) : M (option User) :=
  λ db, (inr (find (λ u, bool_decide (u.(u_email) = email)) db.(users)), db).

(** [prisma.user.create]: the database generates the id and stamps the
    row; the unique constraints on id and email reject a duplicate with
    P2002. *)
Definition user_create (newId : string) (now_ms : Z)
    (email password : string) (role0 : Role) : M User :=
  λ db,
    if existsb (λ u, bool_decide (u.(u_email) = email)
                     || bool_decide (u.(u_id) = newId)) db.(users)
    then (inl (PrismaErr "P2002"), db)
    else
      let u := mkUser newId email password role0 now_ms now_ms in
      (inr u, mkDb (db.(users) ++ [u]) db.(tasks)).

(** [prisma.user.upsert({ where: { email }, update: {}, create })]: a row
    with the email is kept as it is, but for its update stamp, which the
    client is taken to renew; when there is none the row is created as by
    [user_create]. *)
Definition user_upsert (newId : string) (now_ms : Z)
    (email password : string) (role0 : Role) : M User :=
  λ db,
    match find (λ u, bool_decide (u.(u_email) = email)) db.(users) with
    | Some found =>
        let kept := mkUser found.(u_id) found.(u_email) found.(u_password)
                      found.(u_role) found.(u_createdAt) now_ms in
        (inr kept,
         mkDb (map (λ u, if bool_decide (u.(u_email) = email) then kept else u)
                 db.(users))
           db.(tasks))
    | None => user_create newId now_ms email password role0 db
    end.

End prisma.

(** ** services/authService *)

Record RegisterDTO := mkRegisterDTO {
  reg_email : string;
  reg_password : string;
  reg_role : option Role
}.

Record LoginDTO := mkLoginDTO { login_email : string; login_password : string }.

(** [Partial<User>]: every field of [User], each optional. *)
Record PartialUser := mkPartialUser {
  pu_id : option string;
  pu_email : option string;
  pu_password : option string;
  pu_role : option Role;
  pu_createdAt : option Z;
  pu_updatedAt : option Z
}.

Record RegisterResult := mkRegisterResult { userId : string }.
Record LoginResult := mkLoginResult { token : string; user : PartialUser }.

Module AuthService.
Section AuthService.
Context `{Bcrypt} `{Jws}.
Variable config : Config.

Definition register (data : RegisterDTO) (salt newId : string) (now_ms : Z)
    : M RegisterResult :=
  existingUser ← prisma.user_findUnique data.(reg_email);
  match existingUser with
  | Some _ => throw (AppErr (mkAppError 409 CONFLICT "User already exists" None))
  | None =>
      let hashedPassword := bcrypt_hash data.(reg_password) 10 salt in
      u ← prisma.user_create newId now_ms data.(reg_email) hashedPassword
            (default USER data.(reg_role));
      mret (mkRegisterResult u.(u_id))
  end.

Definition login (data : LoginDTO) (now_ms : Z) : M LoginResult :=
  found ← prisma.user_findUnique data.(login_email);
  match found with
  | None => throw (AppErr (mkAppError 401 AUTH_FAILED "Invalid credentials" None))
  | Some u =>
      let isPasswordValid := bcrypt_compare data.(login_password) u.(u_password) in
      if negb isPasswordValid then
        throw (AppErr (mkAppError 401 AUTH_FAILED "Invalid credentials" None))
      else
        match jwt.sign u.(u_id) u.(u_role) config.(jwt_secret)
                config.(jwt_expiry) now_ms with
        | inl e => throw e
        | inr tok =>
            mret (mkLoginResult tok
                    (mkPartialUser (Some u.(u_id)) (Some u.(u_email)) None
                       (Some u.(u_role)) None None))
        end
  end.

Definition verifyToken (tok : string) (now_ms : Z) : Exn + TokenPayload :=
  match jwt.verify tok config.(jwt_secret) now_ms with
  | inr payload => inr payload
  | inl _ => inl (AppErr (mkAppError 401 INVALID_TOKEN "Invalid or expired token" None))
  end.

End AuthService.
End AuthService.

(** ** Joi

    The part of Joi the schemas of this program use: object schemas whose
    keys are string or number schemas.  A [FieldError] carries the path of
    the key and, as its message, Joi's error type. *)

(** What Joi and the JavaScript runtime decide about the text of a value:
    [Number(s)], the [.email()] rule, and Joi's own conversion of a string
    to a number. *)
Class JsText := {
  Number : string → JsNumber;
  joi_email : string → bool;
  joi_number_coerce : string → option JsNumber
}.

Record StringSchema := mkStringSchema {
  str_email : bool;
  str_min : option nat;
  str_max : option nat;
  str_valid : option (list string);
  str_allow_null : bool;
  str_allow_empty : bool
}.

Record NumberSchema := mkNumberSchema {
  num_integer : bool;
  num_min : option Z;
  num_max : option Z
}.

Inductive KeyType :=
| JoiString (s : StringSchema)
| JoiNumber (n : NumberSchema).

Record KeySchema := mkKeySchema {
  key_type : KeyType;
  key_required : bool;
  key_default : option JsVal
}.

Record ObjectSchema := mkObjectSchema {
  obj_keys : list (string * KeySchema);
  obj_min : option nat;
  obj_unknown : bool
}.

Coercion JoiString : StringSchema >-> KeyType.
Coercion JoiNumber : NumberSchema >-> KeyType.

(** The fluent interface: [Joi.string().email().required()] is written
    [Joi.string_ |> Joi.email |> Joi.required]. *)
Notation "x |> f" := (f x) (at level 45, left associativity, only parsing).

Module Joi.

Definition string_ : StringSchema := mkStringSchema false None None None false false.

Definition email (s : StringSchema) : StringSchema :=
  mkStringSchema true s.(str_min) s.(str_max) s.(str_valid)
    s.(str_allow_null) s.(str_allow_empty).

Definition min_length (n : nat) (s : StringSchema) : StringSchema :=
  mkStringSchema s.(str_email) (Some n) s.(str_max) s.(str_valid)
    s.(str_allow_null) s.(str_allow_empty).

Definition max_length (n : nat) (s : StringSchema) : StringSchema :=
  mkStringSchema s.(str_email) s.(str_min) (Some n) s.(str_valid)
    s.(str_allow_null) s.(str_allow_empty).

Definition valid (allowed : list string) (s : StringSchema) : StringSchema :=
  mkStringSchema s.(str_email) s.(str_min) s.(str_max) (Some allowed)
    s.(str_allow_null) s.(str_allow_empty).

(** [.allow(null, '')]. *)
Definition allow_null_and_empty (s : StringSchema) : StringSchema :=
  mkStringSchema s.(str_email) s.(str_min) s.(str_max) s.(str_valid) true true.

Definition number_ : NumberSchema := mkNumberSchema false None None.

Definition integer (n : NumberSchema) : NumberSchema :=
  mkNumberSchema true n.(num_min) n.(num_max).

Definition min (m : Z) (n : NumberSchema) : NumberSchema :=
  mkNumberSchema n.(num_integer) (Some m) n.(num_max).

Definition max (m : Z) (n : NumberSchema) : NumberSchema :=
  mkNumberSchema n.(num_integer) n.(num_min) (Some m).

Definition required (ty : KeyType) : KeySchema := mkKeySchema ty true None.
Definition optional (ty : KeyType) : KeySchema := mkKeySchema ty false None.

Definition default_ (v : JsVal) (k : KeySchema) : KeySchema :=
  mkKeySchema k.(key_type) k.(key_required) (Some v).

Definition object (keys : list (string * KeySchema)) : ObjectSchema :=
  mkObjectSchema keys None false.

(** [.min(n)] on an object: at least [n] keys. *)
Definition min_keys (n : nat) (o : ObjectSchema) : ObjectSchema :=
  mkObjectSchema o.(obj_keys) (Some n) o.(obj_unknown).

Definition unknown (o : ObjectSchema) : ObjectSchema :=
  mkObjectSchema o.(obj_keys) o.(obj_min) true.

Section Joi.
Context `{JsText}.

Definition opt_check {A} (o : option A) (ok : A → bool) (err : string)
    : list string :=
  match o with
  | Some a => if ok a then [] else [err]
  | None => []
  end.

(** A value that [.valid(...)] or [.allow(...)] names passes at once. *)
Definition string_allowed (sch : StringSchema) (s : string) : bool :=
  (sch.(str_allow_empty) && bool_decide (s = ""))
  || match sch.(str_valid) with
     | Some allowed => bool_decide (s ∈ allowed)
     | None => false
     end.

(** The error of [.valid(...)] on a value it does not name; with
    [abortEarly: false] the other errors follow it. *)
Definition only_error (sch : StringSchema) : list string :=
  match sch.(str_valid) with
  | Some _ => ["any.only"]
  | None => []
  end.

(** The string type and its rules; the empty string is an error of the
    type unless the schema has [.min(0)]. *)
Definition base_rules (sch : StringSchema) (s : string) : list string :=
  if bool_decide (s = "") then
    (if bool_decide (sch.(str_min) = Some 0%nat) then [] else ["string.empty"])
  else
    opt_check sch.(str_min) (λ n, (n <=? js_length s)%nat) "string.min"
    ++ opt_check sch.(str_max) (λ n, (js_length s <=? n)%nat) "string.max"
    ++ (if sch.(str_email) && negb (joi_email s) then ["string.email"] else []).

(** The rules of a string schema on a string. *)
Definition string_rules (sch : StringSchema) (s : string) : list string :=
  if string_allowed sch s then []
  else only_error sch ++ base_rules sch s.

(** The rules of a number schema on a number. *)
Definition number_rules (sch : NumberSchema) (n : JsNumber) : list string :=
  match n with
  | NaN => ["number.base"]
  | PosInf | NegInf => ["number.infinity"]
  | Finite q =>
      if Qle_bool (inject_Z (- MAX_SAFE_INTEGER)) q
         && Qle_bool q (inject_Z MAX_SAFE_INTEGER)
      then
        (if sch.(num_integer) && negb (q_is_integer q)
         then ["number.integer"] else [])
        ++ opt_check sch.(num_min) (λ m, Qle_bool (inject_Z m) q) "number.min"
        ++ opt_check sch.(num_max) (λ m, Qle_bool q (inject_Z m)) "number.max"
      else ["number.unsafe"]
  end.

(** One present value against the schema of its key: the errors, and
    the value after conversion. *)
Definition validate_value (ty : KeyType) (v : JsVal) : list string * JsVal :=
  match ty, v with
  | JoiString sch, VStr s => (string_rules sch s, v)
  | JoiString sch, VNull =>
      (if sch.(str_allow_null) then [] else only_error sch ++ ["string.base"], v)
  | JoiString sch, _ => (only_error sch ++ ["string.base"], v)
  | JoiNumber sch, VNum n => (number_rules sch n, v)
  | JoiNumber sch, VStr s =>
      match joi_number_coerce s with
      | Some n => (number_rules sch n, VNum n)
      | None => (["number.base"], v)
      end
  | JoiNumber _, _ => (["number.base"], v)
  end.

(** One key of the object: the errors under its path and, when there is
    one, the value the result holds under the key. *)
Definition validate_key (k : string) (sch : KeySchema) (data : gmap string JsVal)
    : list FieldError * option JsVal :=
  match data !! k with
  | None =>
      if sch.(key_required) then ([mkFieldError k "any.required"], None)
      else ([], sch.(key_default))
  | Some v =>
      let '(errs, v') := validate_value sch.(key_type) v in
      (map (mkFieldError k) errs, Some v')
  end.

Fixpoint validate_keys (ks : list (string * KeySchema)) (data : gmap string JsVal)
    : list FieldError * gmap string JsVal :=
  match ks with
  | [] => ([], ∅)
  | (k, sch) :: rest =>
      let '(errs, ov) := validate_key k sch data in
      let '(errs', out) := validate_keys rest data in
      (errs ++ errs',
       match ov with Some v => <[k := v]> out | None => out end)
  end.

(** The keys of the input that the schema does not declare. *)
Definition unknown_part (sch : ObjectSchema) (data : gmap string JsVal)
    : gmap string JsVal :=
  filter (λ kv, kv.1 ∉ sch.(obj_keys).*1) data.

(** [schema.validate(data, { abortEarly: false, stripUnknown: true })]:
    every error is collected; keys the schema does not declare are
    dropped unless the schema itself is [.unknown(true)]. *)
Definition validate (sch : ObjectSchema) (data : gmap string JsVal)
    : list FieldError + gmap string JsVal :=
  let '(errs, known) := validate_keys sch.(obj_keys) data in
  let value := if sch.(obj_unknown) then known ∪ unknown_part sch data else known in
  let errs_min :=
    opt_check sch.(obj_min) (λ n, (n <=? size value)%nat) "object.min" in
  match errs ++ map (mkFieldError "") errs_min with
  | [] => inr value
  | e :: es => inl (e :: es)
  end.

(** [schema.validate] on what a request holds.  None of the schemas is
    [.required()], so [undefined] passes, as it is. *)
Definition validate_any (sch : ObjectSchema) (data : option (gmap string JsVal))
    : list FieldError + option (gmap string JsVal) :=
  match data with
  | None => inr None
  | Some d =>
      match validate sch d with
      | inl dets => inl dets
      | inr value => inr (Some value)
      end
  end.
End Joi.
End Joi.

(** *** utils/validation *)

Definition registerSchema : ObjectSchema :=
  Eval cbv -[inject_Z] in
  Joi.object
    [ ("email", Joi.string_ |> Joi.email |> Joi.required);
      ("password", Joi.string_ |> Joi.min_length 8 |> Joi.required);
      ("role", Joi.string_ |> Joi.valid ["USER"; "ADMIN"] |> Joi.optional
               |> Joi.default_ (VStr "USER")) ].

Definition loginSchema : ObjectSchema :=
  Eval cbv -[inject_Z] in
  Joi.object
    [ ("email", Joi.string_ |> Joi.email |> Joi.required);
      ("password", Joi.string_ |> Joi.required) ].

Definition createTaskSchema : ObjectSchema :=
  Eval cbv -[inject_Z] in
  Joi.object
    [ ("title", Joi.string_ |> Joi.min_length 1 |> Joi.max_length 255 |> Joi.required);
      ("description", Joi.string_ |> Joi.max_length 1000 |> Joi.allow_null_and_empty
                      |> Joi.optional);
      ("status", Joi.string_ |> Joi.valid ["PENDING"; "IN_PROGRESS"; "COMPLETED"]
                 |> Joi.optional) ].

Definition updateTaskSchema : ObjectSchema :=
  Eval cbv -[inject_Z] in
  Joi.object
    [ ("title", Joi.string_ |> Joi.min_length 1 |> Joi.max_length 255 |> Joi.optional);
      ("description", Joi.string_ |> Joi.max_length 1000 |> Joi.allow_null_and_empty
                      |> Joi.optional);
      ("status", Joi.string_ |> Joi.valid ["PENDING"; "IN_PROGRESS"; "COMPLETED"]
                 |> Joi.optional) ]
  |> Joi.min_keys 1.

Definition paginationSchema : ObjectSchema :=
  Eval cbv -[inject_Z] in
  Joi.object
    [ ("page", Joi.number_ |> Joi.integer |> Joi.min 1 |> Joi.optional
               |> Joi.default_ (VNum (Finite (inject_Z 1))));
      ("limit", Joi.number_ |> Joi.integer |> Joi.min 1 |> Joi.max 100 |> Joi.optional
                |> Joi.default_ (VNum (Finite (inject_Z 10)))) ]
  |> Joi.unknown.

(** ** services/taskService *)

Record CreateTaskDTO := mkCreateTaskDTO {
  ct_title : string;
  ct_description : option (option string);
  ct_status : option TaskStatus
}.

(** A field that is absent leaves the column alone; [description] may also
    be present and null. *)
Record UpdateTaskDTO := mkUpdateTaskDTO {
  ut_title : option string;
  ut_description : option (option string);
  ut_status : option TaskStatus
}.

Record PaginationParams := mkPaginationParams { page : Z; limit : Z }.

Record Pagination := mkPagination {
  pg_page : Z;
  pg_limit : Z;
  pg_total : Z;
  pg_totalPages : JsNumber
}.

Record TaskPage := mkTaskPage { data : list Task; pagination : Pagination }.

(** A page of [getAllTasks]: each task with the [user] it includes. *)
Record AdminTaskPage := mkAdminTaskPage {
  admin_data : list (Task * option PartialUser);
  admin_pagination : Pagination
}.

(** [orderBy: { createdAt: 'desc' }]. *)
Definition newer_first (a b : Task) : Prop := b.(t_createdAt) ≤ a.(t_createdAt).

#[global] Instance newer_first_dec : RelDecision newer_first.
Proof. intros a b. unfold newer_first. apply _. Defined.

(** [Math.ceil(total / limit)]: dividing by zero gives NaN or an infinity. *)
Definition totalPages (total limit0 : Z) : JsNumber :=
  if decide (limit0 = 0) then
    (if decide (total = 0) then NaN else if decide (0 < total) then PosInf else NegInf)
  else Finite (inject_Z (- ((- total) / limit0))).

Module prisma_task.

Definition owned_by (owner : option string) (t : Task) : bool :=
  match owner with
  | Some uid => bool_decide (t.(t_userId) = uid)
  | None => true
  end.

(** [prisma.task.create]: the id is generated and unique, the owner must
    be a row of the user table. *)
Definition create (newId : string) (now_ms : Z) (title : string)
    (description : option string) (status : TaskStatus) (owner : string)
    : M Task :=
  λ db,
    if existsb (λ t, bool_decide (t.(t_id) = newId)) db.(tasks)
    then (inl (PrismaErr "P2002"), db)
    else if negb (existsb (λ u, bool_decide (u.(u_id) = owner)) db.(users))
    then (inl (PrismaErr "P2003"), db)
    else
      let t := mkTask newId title description status owner now_ms now_ms in
      (inr t, mkDb db.(users) (db.(tasks) ++ [t])).

(** The window [skip]/[take] of an ordered result; a negative [take]
    counts from the end. *)
Definition window (skip take : Z) (rows : list Task) : list Task :=
  if decide (0 ≤ take) then
    firstn (Z.to_nat take) (skipn (Z.to_nat skip) rows)
  else
    rev (firstn (Z.to_nat (- take)) (skipn (Z.to_nat skip) (rev rows))).

(** [prisma.task.findMany({ where, skip, take, orderBy })].  Rows with the
    same [createdAt] come in the order the sort leaves them. *)
Definition findMany (owner : option string) (skip take : Z) : M (list Task) :=
  λ db,
    if decide (skip < 0) then (inl (PrismaErr "PrismaClientValidationError"), db)
    else
      (inr (window skip take
              (merge_sort newer_first (filter (λ t, owned_by owner t = true) db.(tasks)))),
       db).

(** [include: { user: { select: { id, email, role } } }]. *)
Definition include_user (rows : list Task) : M (list (Task * option PartialUser)) :=
  λ db,
    (inr (map (λ t,
                 (t,
                  (λ u, mkPartialUser (Some u.(u_id)) (Some u.(u_email)) None
                          (Some u.(u_role)) None None)
                    <$> find (λ u, bool_decide (u.(u_id) = t.(t_userId))) db.(users)))
              rows),
     db).

(** [prisma.task.count({ where })]. *)
Definition count (owner : option string) : M Z :=
  λ db, (inr (Z.of_nat (length (filter (λ t, owned_by owner t = true) db.(tasks)))), db).

(** [prisma.task.findFirst({ where: { id, userId } })]. *)
Definition findFirst (taskId owner : string) : M (option Task) :=
  λ db,
    (inr (find (λ t, bool_decide (t.(t_id) = taskId)
                     && bool_decide (t.(t_userId) = owner)) db.(tasks)),
     db).

Definition apply_update (now_ms : Z) (d : UpdateTaskDTO) (t : Task) : Task :=
  mkTask t.(t_id)
    (default t.(t_title) d.(ut_title))
    (default t.(t_description) d.(ut_description))
    (default t.(t_status) d.(ut_status))
    t.(t_userId) t.(t_createdAt) now_ms.

(** [prisma.task.update({ where: { id }, data })]; P2025 when no row has
    the id. *)
Definition update (taskId : string) (now_ms : Z) (d : UpdateTaskDTO) : M Task :=
  λ db,
    match find (λ t, bool_decide (t.(t_id) = taskId)) db.(tasks) with
    | None => (inl (PrismaErr "P2025"), db)
    | Some t =>
        let t' := apply_update now_ms d t in
        (inr t',
         mkDb db.(users)
           (map (λ x, if bool_decide (x.(t_id) = taskId) then t' else x) db.(tasks)))
    end.

(** [prisma.task.delete({ where: { id } })]. *)
Definition delete (taskId : string) : M Task :=
  λ db,
    match find (λ t, bool_decide (t.(t_id) = taskId)) db.(tasks) with
    | None => (inl (PrismaErr "P2025"), db)
    | Some t =>
        (inr t,
         mkDb db.(users)
           (filter (λ x, x.(t_id) ≠ taskId) db.(tasks)))
    end.

(** One row of [prisma.task.createMany]: the id the database generates,
    then title, description, status and owner. *)
Record NewTask := mkNewTask {
  nt_id : string;
  nt_title : string;
  nt_description : option string;
  nt_status : TaskStatus;
  nt_userId : string
}.

(** [prisma.task.createMany({ data })]: one insert statement; a duplicate
    id or an owner that is no user fails it as a whole. *)
Definition createMany (rows : list NewTask) (now_ms : Z) : M Z :=
  λ db,
    if negb (bool_decide (NoDup (nt_id <$> rows)))
       || existsb (λ r, existsb (λ t, bool_decide (t.(t_id) = r.(nt_id))) db.(tasks)) rows
    then (inl (PrismaErr "P2002"), db)
    else if existsb (λ r, negb (existsb (λ u, bool_decide (u.(u_id) = r.(nt_userId)))
                                  db.(users))) rows
    then (inl (PrismaErr "P2003"), db)
    else
      (inr (Z.of_nat (length rows)),
       mkDb db.(users)
         (db.(tasks)
          ++ map (λ r, mkTask r.(nt_id) r.(nt_title) r.(nt_description) r.(nt_status)
                         r.(nt_userId) now_ms now_ms) rows)).

End prisma_task.

Module TaskService.

Definition createTask (owner : string) (d : CreateTaskDTO)
    (newId : string) (now_ms : Z) : M Task :=
  prisma_task.create newId now_ms d.(ct_title)
    (default None d.(ct_description))
    (default PENDING d.(ct_status)) owner.

Definition getTasks (owner : string) (params : PaginationParams) : M TaskPage :=
  let skip := (params.(page) - 1) * params.(limit) in
  rows ← prisma_task.findMany (Some owner) skip params.(limit);
  total ← prisma_task.count (Some owner);
  mret (mkTaskPage rows
          (mkPagination params.(page) params.(limit) total
             (totalPages total params.(limit)))).

Definition getTaskById (taskId owner : string) : M Task :=
  found ← prisma_task.findFirst taskId owner;
  match found with
  | None => throw (AppErr (mkAppError 404 NOT_FOUND "Task not found" None))
  | Some t => mret t
  end.

Definition updateTask (taskId owner : string) (d : UpdateTaskDTO) (now_ms : Z)
    : M Task :=
  t ← getTaskById taskId owner;
  prisma_task.update t.(t_id) now_ms d.

Definition deleteTask (taskId owner : string) : M unit :=
  t ← getTaskById taskId owner;
  _ ← prisma_task.delete t.(t_id);
  mret tt.

(** Admin only. *)
Definition getAllTasks (params : PaginationParams) : M AdminTaskPage :=
  let skip := (params.(page) - 1) * params.(limit) in
  rows ← prisma_task.findMany None skip params.(limit);
  owners ← prisma_task.include_user rows;
  total ← prisma_task.count None;
  mret (mkAdminTaskPage owners
          (mkPagination params.(page) params.(limit) total
             (totalPages total params.(limit)))).

End TaskService.

(** ** prisma/seed *)

(** What one run of the seed script draws from its environment: the clock,
    the ids the database generates and the salts of the two hashes. *)
Record SeedEnv := mkSeedEnv {
  seed_now : Z;
  admin_newId : string;
  user_newId : string;
  admin_salt : string;
  user_salt : string;
  task_newIds : string * string * string
}.

Module seed.
Section seed.
Context `{Bcrypt}.

Definition main (env : SeedEnv) : M unit :=
  let adminPassword := bcrypt_hash "Admin@123" 10 env.(admin_salt) in
  admin ← prisma.user_upsert env.(admin_newId) env.(seed_now)
            "admin@taskapp.com" adminPassword ADMIN;
  let userPassword := bcrypt_hash "User@123" 10 env.(user_salt) in
  user0 ← prisma.user_upsert env.(user_newId) env.(seed_now)
            "user@taskapp.com" userPassword USER;
  let '(id1, id2, id3) := env.(task_newIds) in
  _ ← prisma_task.createMany
        [ prisma_task.mkNewTask id1 "Complete project documentation"
            (Some "Write comprehensive README and API docs") PENDING user0.(u_id);
          prisma_task.mkNewTask id2 "Setup CI/CD pipeline"
            (Some "Configure GitHub Actions for automated testing") IN_PROGRESS
            user0.(u_id);
          prisma_task.mkNewTask id3 "Review pull requests"
            (Some "Review and merge pending PRs") COMPLETED admin.(u_id) ]
        env.(seed_now);
  mret tt.
End seed.
End seed.

(** ** Requests, responses and the middleware stack *)

(** [req.user] of [AuthRequest]. *)
Record AuthUser := mkAuthUser { au_id : string; au_role : Role }.

(** [req.body] is [undefined] (None) when the request had no body that a
    parser read; [req.query] and [req.params] are always objects. *)
Record Request := mkRequest {
  authorization : option string;
  body : option (gmap string JsVal);
  query : gmap string JsVal;
  params : gmap string JsVal;
  req_user : option AuthUser
}.

(** The code on the wire: one of [errorCodes], or the literal the error
    handler uses for anything that is not an [AppError]. *)
Inductive WireCode :=
| Code (c : ErrorCode)
| INTERNAL_ERROR.

Inductive ResBody :=
| JsonError (c : WireCode) (msg : string) (det : option (list FieldError))
| JsonRegister (r : RegisterResult)
| JsonLogin (r : LoginResult)
| JsonTask (t : Task)
| JsonTaskPage (p : TaskPage)
| JsonAdminTaskPage (p : AdminTaskPage)
| NoBody.

Record Response := mkResponse { status : Z; res_body : ResBody }.

(** What a request draws from its environment while it is handled. *)
Record Env := mkEnv { now_ms : Z; newId : string; salt : string }.

(** What is observed of a request besides its response: the layers that
    ran, and the calls of [authService.verifyToken]. *)
Inductive Event :=
| Entered (layer : string)
| VerifyTokenCalled (tok : string).

(** A layer ends by calling [next()], by handing an error to [next] (or
    throwing it, which Express treats alike), or by sending the response. *)
Inductive Outcome :=
| Next (req : Request)
| Fail (e : Exn)
| Send (res : Response).

Definition Layer : Type := Request → Db → (list Event * Outcome) * Db.

(** middleware/errorHandler *)
Definition errorHandler (err : Exn) : Response :=
  match err with
  | AppErr e => mkResponse e.(statusCode) (JsonError (Code e.(code)) e.(message) e.(details))
  | _ => mkResponse 500 (JsonError INTERNAL_ERROR "An unexpected error occurred" None)
  end.

(** The handler at the end of the application, for a request no route
    answered. *)
Definition routeNotFound : Response :=
  mkResponse 404 (JsonError (Code NOT_FOUND) "Route not found" None).

(** Express runs the layers of a route in order; the first error skips the
    rest and reaches the error handler. *)
Fixpoint dispatch (stack : list (string * Layer)) (req : Request) (db : Db)
    : (list Event * Response) * Db :=
  match stack with
  | [] => (([], routeNotFound), db)
  | (name, run) :: rest =>
      match run req db with
      | ((tr, Next req'), db') =>
          let '((tr', res), db'') := dispatch rest req' db' in
          ((Entered name :: tr ++ tr', res), db'')
      | ((tr, Fail e), db') => ((Entered name :: tr, errorHandler e), db')
      | ((tr, Send res), db') => ((Entered name :: tr, res), db')
      end
  end.

(** A service call made by a controller: its result is sent, its
    exception goes to [next]. *)
Definition respond {A} (c : M A) (ok : A → Response) : Db → (list Event * Outcome) * Db :=
  λ db,
    match c db with
    | (inr x, db') => (([], Send (ok x)), db')
    | (inl e, db') => (([], Fail e), db')
    end.

(** ** middleware/auth *)

Definition set_user (req : Request) (u : AuthUser) : Request :=
  mkRequest req.(authorization) req.(body) req.(query) req.(params) (Some u).

(** [!authHeader]. *)
Definition header_missing (h : option string) : bool :=
  match h with
  | None => true
  | Some s => bool_decide (s = "")
  end.

(** [authHeader.startsWith('Bearer ')]. *)
Definition is_bearer (h : option string) : bool :=
  match h with
  | None => false
  | Some s => String.prefix "Bearer " s
  end.

(** [authHeader.substring(7)]. *)
Definition bearer_token (s : string) : string :=
  String.substring 7 (String.length s - 7) s.

Section auth.
Context `{Jws}.
Variable config : Config.
Variable env : Env.

Definition authenticate : Layer := λ req db,
  if header_missing req.(authorization) || negb (is_bearer req.(authorization)) then
    (([], Fail (AppErr (mkAppError 401 INVALID_TOKEN "No token provided" None))), db)
  else
    let tok := bearer_token (default "" req.(authorization)) in
    match AuthService.verifyToken config tok env.(now_ms) with
    | inr payload =>
        (([VerifyTokenCalled tok],
          Next (set_user req (mkAuthUser payload.(sub) payload.(role)))), db)
    | inl e => (([VerifyTokenCalled tok], Fail e), db)
    end.
End auth.

Definition requireRole (roles : list Role) : Layer := λ req db,
  match req.(req_user) with
  | None => (([], Fail (AppErr (mkAppError 401 INVALID_TOKEN "Not authenticated" None))), db)
  | Some u =>
      if bool_decide (u.(au_role) ∈ roles) then (([], Next req), db)
      else (([], Fail (AppErr (mkAppError 403 FORBIDDEN "Insufficient permissions" None))), db)
  end.

(** ** middleware/validate

    The middleware as the task routes use it: query values that read as
    numbers are converted before Joi sees them, and the validated value is
    written back to the request. *)

Inductive Property := Body | Query | Params.

Definition get_property (p : Property) (req : Request)
    : option (gmap string JsVal) :=
  match p with
  | Body => req.(body)
  | Query => Some req.(query)
  | Params => Some req.(params)
  end.

Section validate.
Context `{JsText}.

(** A query value that is a string and reads as a number becomes that
    number. *)
Definition to_number_if_numeric (v : JsVal) : JsVal :=
  match v with
  | VStr s => if negb (isNaN (Number s)) then VNum (Number s) else v
  | _ => v
  end.

(** The validated value replaces the body or the params
    ([req[property] = value]).  For the query the source calls
    [Object.assign(req.query, value)]: in Express 5 [req.query] is a getter
    that parses the URL anew at every access, so the object that is written
    to is dropped, and the request is the one that came in. *)
Definition put_property (p : Property) (value : option (gmap string JsVal))
    (req : Request) : Request :=
  match p with
  | Body => mkRequest req.(authorization) value req.(query) req.(params) req.(req_user)
  | Query => req
  | Params =>
      mkRequest req.(authorization) req.(body) req.(query)
        (default req.(params) value) req.(req_user)
  end.

Definition validate (schema : ObjectSchema) (property : Property) : Layer := λ req db,
  let dataToValidate :=
    match property with
    | Query => Some (to_number_if_numeric <$> req.(query))
    | _ => get_property property req
    end in
  match Joi.validate_any schema dataToValidate with
  | inl dets =>
      (([], Fail (AppErr (mkAppError 400 VALIDATION_ERROR "Validation failed"
                            (Some dets)))),
       db)
  | inr value => (([], Next (put_property property value req)), db)
  end.
End validate.

(** ** Controllers

    A controller passes [req.body] or [req.query] to its service under a
    type assertion.  The assertion holds for an object that the schema in
    front of the controller has validated; a value of another shape is
    refused by the Prisma client when it reaches a query, and reading a
    field of an absent body throws. *)

Definition illTyped : Exn := PrismaErr "PrismaClientValidationError".

Definition typeError : Exn := PlainError "TypeError".

Definition as_Role (v : JsVal) : option Role :=
  match v with
  | VStr s =>
      if bool_decide (s = "USER") then Some USER
      else if bool_decide (s = "ADMIN") then Some ADMIN
      else None
  | _ => None
  end.

Definition as_TaskStatus (v : JsVal) : option TaskStatus :=
  match v with
  | VStr s =>
      if bool_decide (s = "PENDING") then Some PENDING
      else if bool_decide (s = "IN_PROGRESS") then Some IN_PROGRESS
      else if bool_decide (s = "COMPLETED") then Some COMPLETED
      else None
  | _ => None
  end.

Definition as_string (v : JsVal) : option string :=
  match v with VStr s => Some s | _ => None end.

(** A key that may be absent: absent is fine, present must have the type. *)
Definition optional {A} (o : option JsVal) (cast : JsVal → option A)
    : option (option A) :=
  match o with
  | None => Some None
  | Some v => Some <$> cast v
  end.

Definition as_description (v : JsVal) : option (option string) :=
  match v with
  | VNull => Some None
  | VStr s => Some (Some s)
  | _ => None
  end.

Definition as_integer (v : JsVal) : option Z :=
  match v with
  | VNum (Finite q) => if q_is_integer q then Some (q_to_Z q) else None
  | _ => None
  end.

Definition as_RegisterDTO (o : gmap string JsVal) : option RegisterDTO :=
  e ← o !! "email" ≫= as_string;
  p ← o !! "password" ≫= as_string;
  r ← optional (o !! "role") as_Role;
  Some (mkRegisterDTO e p r).

Definition as_LoginDTO (o : gmap string JsVal) : option LoginDTO :=
  e ← o !! "email" ≫= as_string;
  p ← o !! "password" ≫= as_string;
  Some (mkLoginDTO e p).

Definition as_CreateTaskDTO (o : gmap string JsVal) : option CreateTaskDTO :=
  t ← o !! "title" ≫= as_string;
  d ← optional (o !! "description") as_description;
  s ← optional (o !! "status") as_TaskStatus;
  Some (mkCreateTaskDTO t d s).

Definition as_UpdateTaskDTO (o : gmap string JsVal) : option UpdateTaskDTO :=
  t ← optional (o !! "title") as_string;
  d ← optional (o !! "description") as_description;
  s ← optional (o !! "status") as_TaskStatus;
  Some (mkUpdateTaskDTO t d s).

Definition as_PaginationParams (o : gmap string JsVal) : option PaginationParams :=
  p ← o !! "page" ≫= as_integer;
  l ← o !! "limit" ≫= as_integer;
  Some (mkPaginationParams p l).

(** [String(req.params.id)]. *)
Definition param_id (req : Request) : string :=
  match req.(params) !! "id" with
  | Some (VStr s) => s
  | _ => "undefined"
  end.

(** [req.body] under the type a service expects: the service reads a
    field of it first ([data.email], [data.title]), which throws when
    there is no body. *)
Definition with_body {A} (req : Request) (cast : gmap string JsVal → option A)
    (k : A → Db → (list Event * Outcome) * Db)
    : Db → (list Event * Outcome) * Db :=
  match req.(body) with
  | None => λ db, (([], Fail typeError), db)
  | Some b =>
      match cast b with
      | Some dto => k dto
      | None => λ db, (([], Fail illTyped), db)
      end
  end.

Module AuthController.
Section AuthController.
Context `{Bcrypt} `{Jws}.
Variable config : Config.
Variable env : Env.

Definition register : Layer := λ req,
  with_body req as_RegisterDTO (λ dto,
    respond (AuthService.register dto env.(salt) env.(newId) env.(now_ms))
      (λ r, mkResponse 201 (JsonRegister r))).

Definition login : Layer := λ req,
  with_body req as_LoginDTO (λ dto,
    respond (AuthService.login config dto env.(now_ms))
      (λ r, mkResponse 200 (JsonLogin r))).
End AuthController.
End AuthController.

Module TaskController.
Section TaskController.
Variable env : Env.

(** [req.user!.id]: without a user the property access throws. *)
Definition with_user (req : Request)
    (k : AuthUser → Db → (list Event * Outcome) * Db)
    : Db → (list Event * Outcome) * Db :=
  match req.(req_user) with
  | Some u => k u
  | None => λ db, (([], Fail typeError), db)
  end.

Definition createTask : Layer := λ req,
  with_user req (λ u,
    with_body req as_CreateTaskDTO (λ dto,
      respond (TaskService.createTask u.(au_id) dto env.(newId) env.(now_ms))
        (λ t, mkResponse 201 (JsonTask t)))).

Definition getTasks : Layer := λ req,
  with_user req (λ u,
    match as_PaginationParams req.(query) with
    | Some p =>
        respond (TaskService.getTasks u.(au_id) p)
          (λ r, mkResponse 200 (JsonTaskPage r))
    | None => λ db, (([], Fail illTyped), db)
    end).

Definition getTaskById : Layer := λ req,
  with_user req (λ u,
    respond (TaskService.getTaskById (param_id req) u.(au_id))
      (λ t, mkResponse 200 (JsonTask t))).

(** The service looks the task up before the body reaches the Prisma
    client: without a task of the caller the answer is NOT_FOUND whatever
    the body is. *)
Definition updateTask : Layer := λ req,
  with_user req (λ u,
    match req.(body) ≫= as_UpdateTaskDTO with
    | Some dto =>
        respond (TaskService.updateTask (param_id req) u.(au_id) dto env.(now_ms))
          (λ t, mkResponse 200 (JsonTask t))
    | None =>
        respond (t ← TaskService.getTaskById (param_id req) u.(au_id);
                 throw illTyped)
          (λ t : Task, mkResponse 200 (JsonTask t))
    end).

Definition deleteTask : Layer := λ req,
  with_user req (λ u,
    respond (TaskService.deleteTask (param_id req) u.(au_id))
      (λ _, mkResponse 204 NoBody)).

(** Admin only. *)
Definition getAllTasks : Layer := λ req,
  match as_PaginationParams req.(query) with
  | Some p =>
      respond (TaskService.getAllTasks p) (λ r, mkResponse 200 (JsonAdminTaskPage r))
  | None => λ db, (([], Fail illTyped), db)
  end.
End TaskController.
End TaskController.

(** ** routes/taskRoutes *)

Inductive TaskRoute :=
| POST_tasks
| GET_tasks
| GET_tasks_all
| GET_task
| PUT_task
| DELETE_task.

Section taskRoutes.
Context `{Jws} `{JsText}.
Variable config : Config.
Variable env : Env.

(** The layers of a route after [router.use(authenticate)]. *)
Definition route_layers (r : TaskRoute) : list (string * Layer) :=
  match r with
  | POST_tasks =>
      [("validate", validate createTaskSchema Body);
       ("createTask", TaskController.createTask env)]
  | GET_tasks =>
      [("validate", validate paginationSchema Query);
       ("getTasks", TaskController.getTasks)]
  | GET_tasks_all =>
      [("requireRole", requireRole [ADMIN]);
       ("validate", validate paginationSchema Query);
       ("getAllTasks", TaskController.getAllTasks)]
  | GET_task => [("getTaskById", TaskController.getTaskById)]
  | PUT_task =>
      [("validate", validate updateTaskSchema Body);
       ("updateTask", TaskController.updateTask env)]
  | DELETE_task => [("deleteTask", TaskController.deleteTask)]
  end.

(** All task routes require authentication. *)
Definition taskRoutes (r : TaskRoute) : list (string * Layer) :=
  ("authenticate", authenticate config env) :: route_layers r.

Definition handle (r : TaskRoute) (req : Request) (db : Db)
    : (list Event * Response) * Db :=
  dispatch (taskRoutes r) req db.
End taskRoutes.

(** * A reference platform

    Small executable instances of the three interfaces, on which the
    program can be run.  Numbers are written in unary inside the reference
    token format, so that reading them back is one structural recursion. *)

Module Reference.

Definition is_char (c : Ascii.ascii) (d : string) : bool :=
  bool_decide (String c "" = d).

Fixpoint write_nat (n : nat) : string :=
  match n with
  | O => "0"
  | S n' => String.append "1" (write_nat n')
  end.

Fixpoint read_nat (s : string) : option (nat * string) :=
  match s with
  | String c rest =>
      if is_char c "0" then Some (O, rest)
      else if is_char c "1" then
        match read_nat rest with
        | Some (n, r) => Some (S n, r)
        | None => None
        end
      else None
  | EmptyString => None
  end.

Definition write_Z (z : Z) : string :=
  String.append (if decide (z < 0) then "-" else "+") (write_nat (Z.abs_nat z)).

Definition read_Z (s : string) : option (Z * string) :=
  match s with
  | String c rest =>
      match read_nat rest with
      | Some (n, r) =>
          if is_char c "-" then Some (- Z.of_nat n, r)
          else if is_char c "+" then Some (Z.of_nat n, r)
          else None
      | None => None
      end
  | EmptyString => None
  end.

Fixpoint split_at (n : nat) (s : string) : option (string * string) :=
  match n with
  | O => Some ("", s)
  | S n' =>
      match s with
      | String c rest =>
          match split_at n' rest with
          | Some (a, b) => Some (String c a, b)
          | None => None
          end
      | EmptyString => None
      end
  end.

Definition write_text (s : string) : string :=
  String.append (write_nat (String.length s)) s.

Definition read_text (s : string) : option (string * string) :=
  match read_nat s with
  | Some (n, r) => split_at n r
  | None => None
  end.

Definition write_role (r : Role) : string :=
  match r with USER => "U" | ADMIN => "A" end.

Definition read_role (s : string) : option (Role * string) :=
  match s with
  | String c rest =>
      if is_char c "U" then Some (USER, rest)
      else if is_char c "A" then Some (ADMIN, rest)
      else None
  | EmptyString => None
  end.

(** A claim that may be absent: a mark, then the number if there is one. *)
Definition write_claim (o : option Z) : string :=
  match o with
  | Some z => String.append "!" (write_Z z)
  | None => "~"
  end.

Definition read_claim (s : string) : option (option Z * string) :=
  match s with
  | String c rest =>
      if is_char c "~" then Some (None, rest)
      else if is_char c "!" then
        match read_Z rest with
        | Some (z, r) => Some (Some z, r)
        | None => None
        end
      else None
  | EmptyString => None
  end.

(** The reference token: the payload, then the secret as its signature. *)
Definition sign_text (secret : string) (p : TokenPayload) : string :=
  String.append (write_role p.(role))
    (String.append (write_Z p.(iat))
       (String.append (write_claim p.(exp))
          (String.append (write_claim p.(nbf))
             (String.append (write_text p.(sub)) secret)))).

Definition read_token (s : string) : option (TokenPayload * string) :=
  match read_role s with
  | Some (r, s1) =>
      match read_Z s1 with
      | Some (i, s2) =>
          match read_claim s2 with
          | Some (e, s3) =>
              match read_claim s3 with
              | Some (n, s4) =>
                  match read_text s4 with
                  | Some (su, sig) => Some (mkClaims su r i e n, sig)
                  | None => None
                  end
              | None => None
              end
          | None => None
          end
      | None => None
      end
  | None => None
  end.

Definition decode_text (s : string) : option TokenPayload :=
  fst <$> read_token s.

Definition verify_text (s secret : string) : bool :=
  match read_token s with
  | Some (_, sig) => bool_decide (sig = secret)
  | None => false
  end.

(** The reference hash: the salt, then the password. *)
Definition hash_text (pw : string) (rounds : nat) (salt0 : string) : string :=
  String.append (write_text salt0) pw.

Definition compare_text (pw hashed : string) : bool :=
  match read_text hashed with
  | Some (_, stored) => bool_decide (stored = pw)
  | None => false
  end.

(** Decimal digits, for the reference [Number]. *)
Definition digit_value (c : Ascii.ascii) : option Z :=
  let n := Z.of_nat (Ascii.nat_of_ascii c) in
  if decide (48 ≤ n ≤ 57) then Some (n - 48) else None.

Fixpoint read_digits (acc : Z) (s : string) : option Z :=
  match s with
  | EmptyString => Some acc
  | String c rest =>
      match digit_value c with
      | Some d => read_digits (10 * acc + d) rest
      | None => None
      end
  end.

(** [Number(s)] on the empty string, decimal integers and their
    negatives; everything else is NaN here. *)
Definition number_text (s : string) : JsNumber :=
  match s with
  | EmptyString => Finite (inject_Z 0)
  | String c rest =>
      if is_char c "-" then
        match rest with
        | EmptyString => NaN
        | _ => match read_digits 0 rest with
               | Some z => Finite (inject_Z (- z))
               | None => NaN
               end
        end
      else
        match read_digits 0 s with
        | Some z => Finite (inject_Z z)
        | None => NaN
        end
  end.

Definition coerce_text (s : string) : option JsNumber :=
  match s, number_text s with
  | EmptyString, _ => None
  | _, NaN => None
  | _, n => Some n
  end.

Fixpoint has_at (s : string) : bool :=
  match s with
  | EmptyString => false
  | String c rest => is_char c "@" || has_at rest
  end.

End Reference.

(** * Vocabulary of the properties *)

(** ** The errors the services and the middleware throw *)

Definition conflictError : Exn :=
  AppErr (mkAppError 409 CONFLICT "User already exists" None).

Definition authFailedError : Exn :=
  AppErr (mkAppError 401 AUTH_FAILED "Invalid credentials" None).

Definition invalidTokenError : Exn :=
  AppErr (mkAppError 401 INVALID_TOKEN "Invalid or expired token" None).

Definition noTokenError : Exn :=
  AppErr (mkAppError 401 INVALID_TOKEN "No token provided" None).

Definition notAuthenticatedError : Exn :=
  AppErr (mkAppError 401 INVALID_TOKEN "Not authenticated" None).

Definition forbiddenError : Exn :=
  AppErr (mkAppError 403 FORBIDDEN "Insufficient permissions" None).

Definition notFoundError : Exn :=
  AppErr (mkAppError 404 NOT_FOUND "Task not found" None).

Definition validationError (dets : list FieldError) : Exn :=
  AppErr (mkAppError 400 VALIDATION_ERROR "Validation failed" (Some dets)).

(** ** The responses the error handler makes of them *)

Definition noTokenResponse : Response :=
  mkResponse 401 (JsonError (Code INVALID_TOKEN) "No token provided" None).

Definition forbiddenResponse : Response :=
  mkResponse 403 (JsonError (Code FORBIDDEN) "Insufficient permissions" None).

Definition notFoundResponse : Response :=
  mkResponse 404 (JsonError (Code NOT_FOUND) "Task not found" None).

Definition validationResponse (dets : list FieldError) : Response :=
  mkResponse 400 (JsonError (Code VALIDATION_ERROR) "Validation failed" (Some dets)).

(** ** Tokens *)





(** The two time claims of a payload allow the clock. *)
Definition in_time (p : TokenPayload) (now : Z) : Prop :=
  (∀ n, p.(nbf) = Some n → n ≤ clockTimestamp now)
  ∧ (∀ e, p.(exp) = Some e → clockTimestamp now < e).

(** ** The stores *)

(** The row [register] inserts. *)
Definition new_user `{Bcrypt} (data : RegisterDTO) (salt0 newId0 : string) (now : Z) : User :=
  mkUser newId0 data.(reg_email) (bcrypt_hash data.(reg_password) 10 salt0)
    (default USER data.(reg_role)) now now.

(** The primary key of the task table. *)
Definition ids_unique (db : Db) : Prop := NoDup (t_id <$> db.(tasks)).

(** The unique constraint on [email] of the user table. *)
Definition emails_unique (db : Db) : Prop := NoDup (u_email <$> db.(users)).

(** A request that carries nothing: no header, no user. *)
Definition anonymous_request : Request := mkRequest None None ∅ ∅ None.

(** ** Query values as numbers *)

(** The number a query value is read as, if any. *)
Definition query_number `{JsText} (q : gmap string JsVal) (k : string) : option JsNumber :=
  match to_number_if_numeric <$> q !! k with
  | Some (VNum n) => Some n
  | _ => None
  end.

Definition below (n : JsNumber) (m : Z) : Prop :=
  match n with
  | Finite q => (q < inject_Z m)%Q
  | NegInf => True
  | _ => False
  end.

Definition above (n : JsNumber) (m : Z) : Prop :=
  match n with
  | Finite q => (inject_Z m < q)%Q
  | PosInf => True
  | _ => False
  end.


(** * Sample data

    A small store and a few requests, on which the properties are run with
    the reference platform. *)

Module Sample.

Definition config : Config := mkConfig "secret" 900.

Definition alice : User :=
  mkUser "u1" "alice@example.com" (Reference.hash_text "Secret123" 10 "salt") USER 0 0.

Definition bob_task : Task := mkTask "t1" "Write the report" None PENDING "u2" 0 0.
Definition alice_task : Task :=
  mkTask "t2" "Review" (Some "the pull requests") IN_PROGRESS "u1" 5 5.

Definition db : Db := mkDb [alice] [bob_task; alice_task].

Definition env : Env := mkEnv 2000 "u9" "salt".

Definition as_user (u : AuthUser) (id : string) : Request :=
  mkRequest None None ∅ {[ "id" := VStr id ]} (Some u).

Definition with_query (q : gmap string JsVal) : Request :=
  mkRequest None None q ∅ (Some (mkAuthUser "u1" USER)).

(** What Alice gets when she logs in at second 1. *)
Definition alice_token : string :=
  Reference.sign_text "secret" (mkTokenPayload "u1" USER 1 901).


Definition alice_login : LoginResult :=
  mkLoginResult alice_token
    (mkPartialUser (Some "u1") (Some "alice@example.com") None (Some USER) None None).

(** A registration that asks for the ADMIN role, and one that names none. *)
Definition admin_body : gmap string JsVal :=
  {[ "email" := VStr "carol@example.com"; "password" := VStr "Secret123";
     "role" := VStr "ADMIN" ]}.

Definition plain_body : gmap string JsVal :=
  {[ "email" := VStr "dave@example.com"; "password" := VStr "Secret123" ]}.

Definition plain_value : gmap string JsVal :=
  {[ "email" := VStr "dave@example.com"; "password" := VStr "Secret123";
     "role" := VStr "USER" ]}.

(** A request for the task "t1" that presents a token. *)
Definition bearer (tok : string) : Request :=
  mkRequest (Some (String.append "Bearer " tok)) None ∅ {[ "id" := VStr "t1" ]} None.

End Sample.

(** ** Vocabulary of the further properties *)

(** The tasks a user owns, in the order of the table. *)
Definition tasks_of (owner : string) (db : Db) : list Task :=
  filter (λ t, prisma_task.owned_by (Some owner) t = true) db.(tasks).

(** The foreign key of the task table. *)
Definition owners_exist (db : Db) : Prop :=
  ∀ t, t ∈ db.(tasks) → ∃ u, u ∈ db.(users) ∧ u.(u_id) = t.(t_userId).

(** The table after an update: the row with the id replaced. *)
Definition replace_task (t' : Task) (ts : list Task) : list Task :=
  map (λ x, if bool_decide (x.(t_id) = t'.(t_id)) then t' else x) ts.

(** What identifies an account: everything but the two time stamps. *)
Definition account (u : User) : string * string * string * Role :=
  (u.(u_id), u.(u_email), u.(u_password), u.(u_role)).

(** The three sample tasks of the seed script. *)
Definition sample_tasks (ids : string * string * string) (adminId userId : string)
    (now : Z) : list Task :=
  let '(id1, id2, id3) := ids in
  [ mkTask id1 "Complete project documentation"
      (Some "Write comprehensive README and API docs") PENDING userId now now;
    mkTask id2 "Setup CI/CD pipeline"
      (Some "Configure GitHub Actions for automated testing") IN_PROGRESS userId now now;
    mkTask id3 "Review pull requests"
      (Some "Review and merge pending PRs") COMPLETED adminId now now ].

(** The two accounts of the seed script, as it creates them. *)
Definition seeded_admin `{Bcrypt} (env : SeedEnv) : User :=
  mkUser env.(admin_newId) "admin@taskapp.com"
    (bcrypt_hash "Admin@123" 10 env.(admin_salt)) ADMIN env.(seed_now) env.(seed_now).

Definition seeded_user `{Bcrypt} (env : SeedEnv) : User :=
  mkUser env.(user_newId) "user@taskapp.com"
    (bcrypt_hash "User@123" 10 env.(user_salt)) USER env.(seed_now) env.(seed_now).

(** The ids of three new tasks are distinct and new to the table. *)
Definition task_ids_fresh (ids : string * string * string) (db : Db) : Prop :=
  let '(id1, id2, id3) := ids in
  NoDup [id1; id2; id3] ∧ ∀ t, t ∈ db.(tasks) → t.(t_id) ∉ [id1; id2; id3].

(** ** More sample data *)

Module Scenario.

(** A store in which every task has its owner. *)
Definition owned_db : Db := mkDb [Sample.alice] [Sample.alice_task].

Definition carol : RegisterDTO := mkRegisterDTO "carol@example.com" "Secret123" None.

Definition retitle : UpdateTaskDTO := mkUpdateTaskDTO (Some "Review twice") None None.

Definition alice_user : AuthUser := mkAuthUser "u1" USER.
Definition root_user : AuthUser := mkAuthUser "u7" ADMIN.

(** A request of an authenticated user with a body. *)
Definition with_body (u : AuthUser) (b : gmap string JsVal) : Request :=
  mkRequest None (Some b) ∅ ∅ (Some u).

(** A task body that also names an owner and an id. *)
Definition task_body : gmap string JsVal :=
  {[ "title" := VStr "Call Bob"; "userId" := VStr "u2"; "id" := VStr "t1" ]}.

Definition created_task : Task := mkTask "u9" "Call Bob" None PENDING "u1" 2000 2000.

Definition weak_body : gmap string JsVal :=
  {[ "email" := VStr "erin@example.com"; "password" := VStr "short" ]}.

Definition login_body : gmap string JsVal :=
  {[ "email" := VStr "alice@example.com"; "password" := VStr "Secret123";
     "remember" := VBool true ]}.

Definition login_value : gmap string JsVal :=
  {[ "email" := VStr "alice@example.com"; "password" := VStr "Secret123" ]}.

(** An administrator asks for the first page of all tasks. *)
Definition paged_admin_request : Request :=
  mkRequest None None {[ "page" := VStr "1"; "limit" := VStr "10" ]} ∅ (Some root_user).

(** The admin listing of the sample store: Bob's task has no user row. *)
Definition all_tasks_page : AdminTaskPage :=
  mkAdminTaskPage
    [ (Sample.alice_task,
       Some (mkPartialUser (Some "u1") (Some "alice@example.com") None (Some USER)
               None None));
      (Sample.bob_task, None) ]
    (mkPagination 1 10 2 (Finite (inject_Z 1))).

(** The accounts of a seeded store whose administrator has changed the
    password since. *)
Definition root : User :=
  mkUser "a1" "admin@taskapp.com" (Reference.hash_text "Changed#1" 10 "salt-c") ADMIN
    7000 8000.

Definition member : User :=
  mkUser "a2" "user@taskapp.com" (Reference.hash_text "User@123" 10 "salt-u") USER
    7000 7000.

Definition seeded_db : Db := mkDb [Sample.alice; root; member] [Sample.alice_task].

(** Alice asks for her own task, with her token. *)
Definition own_request : Request :=
  mkRequest (Some (String.append "Bearer " Sample.alice_token)) None ∅
    {[ "id" := VStr "t2" ]} None.

(** A query with a key the pagination schema does not declare. *)
Definition sorted_query : gmap string JsVal :=
  {[ "limit" := VNum (Finite (inject_Z 20)); "sort" := VStr "asc" ]}.

Definition sorted_value : gmap string JsVal :=
  {[ "page" := VNum (Finite (inject_Z 1)); "limit" := VNum (Finite (inject_Z 20));
     "sort" := VStr "asc" ]}.

Definition seed_env : SeedEnv :=
  mkSeedEnv 7000 "a1" "a2" "salt-a" "salt-u" ("s1", "s2", "s3").

Definition reseed_env : SeedEnv :=
  mkSeedEnv 9000 "b1" "b2" "salt-b" "salt-v" ("s4", "s5", "s6").

End Scenario.

(** * Properties *)

(** ** The reference platform satisfies the laws *)

Module ReferenceLaws.
Import Reference.

Lemma append_String (c : Ascii.ascii) (a b : string) :
  String.append (String c a) b = String c (String.append a b).
Proof. reflexivity. Qed.

Lemma append_empty (b : string) : String.append "" b = b.
Proof. reflexivity. Qed.

Lemma append_assoc (a b c : string) :
  String.append (String.append a b) c = String.append a (String.append b c).
Proof.
  induction a as [|x a IH]; [reflexivity |].
  rewrite !append_String. f_equal. exact IH.
Qed.

Lemma read_write_nat (n : nat) (rest : string) :
  read_nat (String.append (write_nat n) rest) = Some (n, rest).
Proof.
  induction n as [|n IH]; [reflexivity |].
  cbn [write_nat]. rewrite append_assoc, !append_String, append_empty.
  cbn [read_nat]. rewrite IH. reflexivity.
Qed.

Lemma read_write_Z (z : Z) (rest : string) :
  read_Z (String.append (write_Z z) rest) = Some (z, rest).
Proof.
  unfold write_Z.
  destruct (decide (z < 0)) as [Hneg | Hpos];
    rewrite append_assoc, !append_String, append_empty;
    cbn [read_Z]; rewrite read_write_nat; cbn; f_equal; f_equal; lia.
Qed.

Lemma split_at_append (a b : string) :
  split_at (String.length a) (String.append a b) = Some (a, b).
Proof.
  induction a as [|x a IH]; [reflexivity |].
  rewrite append_String. cbn [String.length split_at]. now rewrite IH.
Qed.

Lemma read_write_text (s rest : string) :
  read_text (String.append (write_text s) rest) = Some (s, rest).
Proof.
  unfold read_text, write_text.
  rewrite append_assoc, read_write_nat. apply split_at_append.
Qed.

Lemma read_write_role (r : Role) (rest : string) :
  read_role (String.append (write_role r) rest) = Some (r, rest).
Proof. destruct r; reflexivity. Qed.

Lemma read_write_claim (o : option Z) (rest : string) :
  read_claim (String.append (write_claim o) rest) = Some (o, rest).
Proof.
  destruct o as [z|]; [| reflexivity].
  unfold write_claim. rewrite append_assoc, !append_String, append_empty.
  cbn [read_claim]. now rewrite read_write_Z.
Qed.

Lemma read_sign_text (secret : string) (p : TokenPayload) :
  read_token (sign_text secret p) = Some (p, secret).
Proof.
  unfold read_token, sign_text.
  rewrite read_write_role, read_write_Z, !read_write_claim, read_write_text.
  now destruct p.
Qed.

Lemma sign_text_nonempty (secret : string) (p : TokenPayload) :
  sign_text secret p ≠ "".
Proof. unfold sign_text. destruct (role p); discriminate. Qed.

Lemma decode_sign_text (secret : string) (p : TokenPayload) :
  decode_text (sign_text secret p) = Some p.
Proof. unfold decode_text. now rewrite read_sign_text. Qed.

Lemma verify_sign_text (secret : string) (p : TokenPayload) :
  verify_text (sign_text secret p) secret = true.
Proof. unfold verify_text. rewrite read_sign_text. now apply bool_decide_eq_true. Qed.

Lemma compare_hash_text (pw : string) (rounds : nat) (salt0 : string) :
  compare_text pw (hash_text pw rounds salt0) = true.
Proof.
  unfold compare_text, hash_text. rewrite read_write_text.
  now apply bool_decide_eq_true.
Qed.

End ReferenceLaws.

Definition reference_bcrypt : Bcrypt :=
  {| bcrypt_hash := Reference.hash_text;
     bcrypt_compare := Reference.compare_text;
     bcrypt_compare_hash := ReferenceLaws.compare_hash_text |}.

Definition reference_jws : Jws :=
  {| jws_sign := Reference.sign_text;
     jws_decode := Reference.decode_text;
     jws_verify := Reference.verify_text;
     jws_sign_nonempty := ReferenceLaws.sign_text_nonempty;
     jws_decode_sign := ReferenceLaws.decode_sign_text;
     jws_verify_sign := ReferenceLaws.verify_sign_text |}.

Definition reference_text : JsText :=
  {| Number := Reference.number_text;
     joi_email := Reference.has_at;
     joi_number_coerce := Reference.coerce_text |}.

(** ** The monad *)

Lemma bind_inr {A B} (c : M A) (f : A → M B) (db db' : Db) (x : A) :
  c db = (inr x, db') → (c ≫= f) db = f x db'.
Proof. intros Hc. unfold mbind, M_bind. now rewrite Hc. Qed.

Lemma bind_inl {A B} (c : M A) (f : A → M B) (db db' : Db) (e : Exn) :
  c db = (inl e, db') → (c ≫= f) db = (inl e, db').
Proof. intros Hc. unfold mbind, M_bind. now rewrite Hc. Qed.

(** ** The user table *)

Lemma find_email_Some (email : string) (us : list User) (u : User) :
  u ∈ us → u.(u_email) = email →
  ∃ v, find (λ x, bool_decide (x.(u_email) = email)) us = Some v ∧ v.(u_email) = email.
Proof.
  intros Hin Heq. induction Hin as [u us | u w us Hin IH]; simpl.
  - rewrite bool_decide_eq_true_2 by exact Heq. eauto.
  - destruct (bool_decide (u_email w = email)) eqn:E.
    + apply bool_decide_eq_true_1 in E. eauto.
    + exact (IH Heq).
Qed.

Lemma find_email_None (email : string) (us : list User) :
  (∀ u, u ∈ us → u.(u_email) ≠ email) →
  find (λ x, bool_decide (x.(u_email) = email)) us = None.
Proof.
  induction us as [|w us IH]; intros Hno; simpl; [reflexivity |].
  rewrite bool_decide_eq_false_2 by (apply Hno; left).
  apply IH. intros u Hu. apply Hno. now right.
Qed.

(** C3: when the store already holds an identity with the email, [register]
    fails with CONFLICT (409) and hands back the store it was given: every
    identity keeps its password hash and its role, and none is added. *)
Theorem register_duplicate_email_conflict `{Bcrypt}
    (data : RegisterDTO) (salt0 newId0 : string) (now : Z) (db : Db) (u : User) :
  u ∈ db.(users) → u.(u_email) = data.(reg_email) →
  AuthService.register data salt0 newId0 now db = (inl conflictError, db)
  ∧ error_kind conflictError = Some Conflict.
Proof.
  intros Hin Heq.
  destruct (find_email_Some _ _ _ Hin Heq) as (v & Hfind & _).
  split; [| reflexivity].
  unfold AuthService.register, mbind, M_bind, prisma.user_findUnique.
  rewrite Hfind. reflexivity.
Qed.

Lemma login_unknown_email `{Bcrypt} `{Jws} (config : Config) (d : LoginDTO) (now : Z)
    (db : Db) :
  prisma.user_findUnique d.(login_email) db = (inr None, db) →
  AuthService.login config d now db = (inl authFailedError, db).
Proof.
  intros Hfind. unfold AuthService.login, mbind, M_bind. rewrite Hfind. reflexivity.
Qed.

Lemma login_wrong_password `{Bcrypt} `{Jws} (config : Config) (d : LoginDTO) (now : Z)
    (db : Db) (u : User) :
  prisma.user_findUnique d.(login_email) db = (inr (Some u), db) →
  bcrypt_compare d.(login_password) u.(u_password) = false →
  AuthService.login config d now db = (inl authFailedError, db).
Proof.
  intros Hfind Hcmp. unfold AuthService.login, mbind, M_bind.
  rewrite Hfind, Hcmp. reflexivity.
Qed.

(** C4: a login with an email no identity has, and a login with the email
    of an identity but a password that bcrypt does not verify against the
    stored hash, throw one and the same error, AUTH_FAILED (401, "Invalid
    credentials"), and leave the store as it was. *)
Theorem login_failures_indistinguishable `{Bcrypt} `{Jws}
    (config : Config) (unknown wrong : LoginDTO) (now now' : Z) (db : Db) (u : User) :
  (∀ x, x ∈ db.(users) → x.(u_email) ≠ unknown.(login_email)) →
  prisma.user_findUnique wrong.(login_email) db = (inr (Some u), db) →
  bcrypt_compare wrong.(login_password) u.(u_password) = false →
  AuthService.login config unknown now db = (inl authFailedError, db)
  ∧ AuthService.login config wrong now' db = (inl authFailedError, db)
  ∧ error_kind authFailedError = Some AuthFailed.
Proof.
  intros Hno Hfind Hcmp. split; [| split; [| reflexivity]].
  - apply login_unknown_email. unfold prisma.user_findUnique.
    now rewrite find_email_None.
  - now apply login_wrong_password with u.
Qed.

(** C7: what a successful [login] returns is the token, signed over the
    id and role of the identity, and the summary of the identity with its
    id, email and role and nothing else: the password field of the summary
    is absent.  The store is unchanged. *)
Theorem login_result_is_token_and_summary `{Bcrypt} `{Jws}
    (config : Config) (d : LoginDTO) (now : Z) (db db' : Db) (r : LoginResult) :
  AuthService.login config d now db = (inr r, db') →
  ∃ u, u ∈ db.(users) ∧ u.(u_email) = d.(login_email)
    ∧ r.(token) = jws_sign config.(jwt_secret)
                    (mkTokenPayload u.(u_id) u.(u_role) (clockTimestamp now)
                       (clockTimestamp now + config.(jwt_expiry)))
    ∧ r.(user) = mkPartialUser (Some u.(u_id)) (Some u.(u_email)) None
                   (Some u.(u_role)) None None
    ∧ r.(user).(pu_password) = None
    ∧ db' = db.
Proof.
  unfold AuthService.login, mbind, M_bind, prisma.user_findUnique, jwt.sign.
  intros Hlogin.
  destruct (find _ (users db)) as [u|] eqn:Hfind; [| discriminate].
  apply find_some in Hfind as [Hin Hmail].
  apply bool_decide_eq_true_1 in Hmail.
  destruct (bcrypt_compare _ _); [| discriminate].
  cbn in Hlogin.
  destruct (decide (jwt_secret config = "")); [discriminate |].
  inversion Hlogin; subst. exists u.
  rewrite <- list_elem_of_In in Hin. repeat split; assumption || reflexivity.
Qed.

(** ** Joi: what an accepted object looks like *)

Section JoiFacts.
Context `{JsText}.

Lemma validate_keys_cons (k : string) (sch : KeySchema)
    (rest : list (string * KeySchema)) (data : gmap string JsVal) :
  Joi.validate_keys ((k, sch) :: rest) data
  = ((Joi.validate_key k sch data).1 ++ (Joi.validate_keys rest data).1,
     match (Joi.validate_key k sch data).2 with
     | Some v => <[k := v]> (Joi.validate_keys rest data).2
     | None => (Joi.validate_keys rest data).2
     end).
Proof.
  cbn [Joi.validate_keys].
  destruct (Joi.validate_key k sch data) as [errs ov].
  destruct (Joi.validate_keys rest data) as [errs' out]. reflexivity.
Qed.

Lemma validate_inr (sch : ObjectSchema) (data value : gmap string JsVal) :
  Joi.validate sch data = inr value →
  (Joi.validate_keys sch.(obj_keys) data).1 = []
  ∧ value = (if sch.(obj_unknown)
             then (Joi.validate_keys sch.(obj_keys) data).2 ∪ Joi.unknown_part sch data
             else (Joi.validate_keys sch.(obj_keys) data).2).
Proof.
  unfold Joi.validate.
  destruct (Joi.validate_keys (obj_keys sch) data) as [errs known]. cbn.
  destruct errs as [|e errs]; cbn; [| discriminate].
  destruct (map _ _); [| discriminate].
  intros [= <-]. split; reflexivity.
Qed.

Lemma validate_inl (sch : ObjectSchema) (data : gmap string JsVal) :
  (Joi.validate_keys sch.(obj_keys) data).1 ≠ [] →
  ∃ dets, Joi.validate sch data = inl dets.
Proof.
  unfold Joi.validate.
  destruct (Joi.validate_keys (obj_keys sch) data) as [errs known]. cbn.
  destruct errs as [|e errs]; [congruence |]. intros _. cbn. eauto.
Qed.

Lemma validate_key_ok (k : string) (sch : KeySchema) (data : gmap string JsVal) :
  (Joi.validate_key k sch data).1 = [] →
  match data !! k with
  | None =>
      sch.(key_required) = false
      ∧ (Joi.validate_key k sch data).2 = sch.(key_default)
  | Some v =>
      (Joi.validate_value sch.(key_type) v).1 = []
      ∧ (Joi.validate_key k sch data).2 = Some (Joi.validate_value sch.(key_type) v).2
  end.
Proof.
  unfold Joi.validate_key. destruct (data !! k) as [v|].
  - destruct (Joi.validate_value (key_type sch) v) as [errs v']. cbn.
    destruct errs; [auto | discriminate].
  - destruct (key_required sch); cbn; [discriminate | auto].
Qed.

Lemma validate_string_ok (sch : StringSchema) (v : JsVal) :
  (Joi.validate_value (JoiString sch) v).1 = [] →
  (Joi.validate_value (JoiString sch) v).2 = v
  ∧ ((∃ s, v = VStr s ∧ Joi.string_rules sch s = [])
     ∨ (v = VNull ∧ sch.(str_allow_null) = true)).
Proof.
  destruct v; cbn;
    try (intros Hx; apply app_eq_nil in Hx as [_ Hx]; discriminate).
  - intros Hr. split; [reflexivity |]. left. eauto.
  - destruct (str_allow_null sch); [auto |].
    intros Hx. apply app_eq_nil in Hx as [_ Hx]. discriminate.
Qed.

(** A string passes a [.valid(...)] schema only as one of the values named
    (or as the empty string, where that is allowed). *)
Lemma string_rules_only (sch : StringSchema) (s : string) (allowed : list string) :
  sch.(str_valid) = Some allowed → Joi.string_rules sch s = [] →
  s ∈ allowed ∨ (sch.(str_allow_empty) = true ∧ s = "").
Proof.
  unfold Joi.string_rules, Joi.string_allowed, Joi.only_error. intros ->.
  destruct (str_allow_empty sch); cbn.
  - destruct (bool_decide (s = "")) eqn:He; cbn.
    { apply bool_decide_eq_true_1 in He. auto. }
    destruct (bool_decide (s ∈ allowed)) eqn:Hin; [| discriminate].
    apply bool_decide_eq_true_1 in Hin. auto.
  - destruct (bool_decide (s ∈ allowed)) eqn:Hin; [| discriminate].
    apply bool_decide_eq_true_1 in Hin. auto.
Qed.

(** A string passes a schema without [.valid(...)] and [.allow('')] only
    by its rules. *)
Lemma string_rules_base (sch : StringSchema) (s : string) :
  sch.(str_valid) = None → sch.(str_allow_empty) = false →
  Joi.string_rules sch s = [] → Joi.base_rules sch s = [].
Proof.
  unfold Joi.string_rules, Joi.string_allowed, Joi.only_error. intros -> ->. cbn. auto.
Qed.

Lemma number_rules_ok (sch : NumberSchema) (n : JsNumber) :
  Joi.number_rules sch n = [] →
  ∃ q, n = Finite q
    ∧ (sch.(num_integer) = true → q_is_integer q = true)
    ∧ (∀ m, sch.(num_min) = Some m → Qle_bool (inject_Z m) q = true)
    ∧ (∀ m, sch.(num_max) = Some m → Qle_bool q (inject_Z m) = true).
Proof.
  destruct n as [q| | |]; cbn; try discriminate.
  destruct (_ && _); [| discriminate].
  intros Hr. apply app_eq_nil in Hr as [Hint Hr].
  apply app_eq_nil in Hr as [Hmin Hmax].
  exists q. split; [reflexivity |]. repeat split.
  - intros Hi. rewrite Hi in Hint. cbn in Hint.
    destruct (q_is_integer q); [reflexivity | discriminate].
  - intros m Hm. rewrite Hm in Hmin. cbn in Hmin.
    destruct (Qle_bool (inject_Z m) q); [reflexivity | discriminate].
  - intros m Hm. rewrite Hm in Hmax. cbn in Hmax.
    destruct (Qle_bool q (inject_Z m)); [reflexivity | discriminate].
Qed.

Lemma validate_number_ok (sch : NumberSchema) (v : JsVal) :
  (Joi.validate_value (JoiNumber sch) v).1 = [] →
  ∃ n, (Joi.validate_value (JoiNumber sch) v).2 = VNum n
    ∧ Joi.number_rules sch n = []
    ∧ (v = VNum n ∨ ∃ s, v = VStr s ∧ joi_number_coerce s = Some n).
Proof.
  destruct v; cbn; try discriminate.
  - destruct (joi_number_coerce s) as [n|] eqn:Hc; cbn; [| discriminate].
    intros Hr. exists n. split; [reflexivity |]. split; [exact Hr |]. right. eauto.
  - intros Hr. exists n. split; [reflexivity |]. split; [exact Hr |]. now left.
Qed.
End JoiFacts.

Lemma validate_registerSchema_inv `{JsText} (body value : gmap string JsVal) :
  Joi.validate registerSchema body = inr value →
  ∃ e p r,
    body !! "email" = Some (VStr e) ∧ body !! "password" = Some (VStr p)
    ∧ match body !! "role" with
      | None => r = USER
      | Some v => as_Role v = Some r
      end
    ∧ value = {[ "email" := VStr e; "password" := VStr p;
                 "role" := VStr (Role_to_string r) ]}.
Proof.
  intros Hv. apply validate_inr in Hv as [Herrs ->].
  unfold registerSchema in *. cbn [obj_keys obj_unknown] in *.
  rewrite !validate_keys_cons in *. cbn [fst snd] in *.
  apply app_eq_nil in Herrs as [He Herrs].
  apply app_eq_nil in Herrs as [Hp Herrs].
  apply app_eq_nil in Herrs as [Hr _].
  apply validate_key_ok in He, Hp, Hr.
  cbn [key_type key_required key_default] in *.
  destruct (body !! "email") as [ve|]; [| destruct He; discriminate].
  destruct He as [He ->].
  apply validate_string_ok in He as [-> [(e & -> & _) | [_ ?]]]; [| discriminate].
  destruct (body !! "password") as [vp|]; [| destruct Hp; discriminate].
  destruct Hp as [Hp ->].
  apply validate_string_ok in Hp as [-> [(p & -> & _) | [_ ?]]]; [| discriminate].
  exists e, p. cbn [Joi.validate_keys snd].
  destruct (body !! "role") as [vr|]; destruct Hr as [Hr ->].
  - apply validate_string_ok in Hr as [-> [(s & -> & Hs) | [_ ?]]]; [| discriminate].
    match type of Hs with Joi.string_rules ?sc _ = _ =>
      destruct (string_rules_only sc s _ eq_refl Hs) as [Hin | [? _]]; [| discriminate]
    end.
    apply elem_of_cons in Hin as [-> | Hin]; [exists USER | ].
    { rewrite insert_empty. auto. }
    apply elem_of_cons in Hin as [-> | Hin]; [exists ADMIN | ].
    { rewrite insert_empty. auto. }
    now apply elem_of_nil in Hin.
  - exists USER. rewrite insert_empty. auto.
Qed.

Lemma as_RegisterDTO_validated (e p : string) (r : Role) :
  as_RegisterDTO
    {[ "email" := VStr e; "password" := VStr p; "role" := VStr (Role_to_string r) ]}
  = Some (mkRegisterDTO e p (Some r)).
Proof.
  set (m := ({[ "email" := VStr e; "password" := VStr p;
                "role" := VStr (Role_to_string r) ]} : gmap string JsVal)).
  assert (He : m !! "email" = Some (VStr e)) by (subst m; by simplify_map_eq).
  assert (Hp : m !! "password" = Some (VStr p)) by (subst m; by simplify_map_eq).
  assert (Hr : m !! "role" = Some (VStr (Role_to_string r))) by (subst m; by simplify_map_eq).
  unfold as_RegisterDTO. rewrite He, Hp, Hr. destruct r; reflexivity.
Qed.

(** ** Registration of a new identity *)

Lemma existsb_fresh (email newId0 : string) (us : list User) :
  (∀ u, u ∈ us → u.(u_email) ≠ email ∧ u.(u_id) ≠ newId0) →
  existsb (λ u, bool_decide (u.(u_email) = email) || bool_decide (u.(u_id) = newId0)) us
  = false.
Proof.
  induction us as [|w us IH]; intros Hfresh; [reflexivity |].
  cbn [existsb]. destruct (Hfresh w) as [He Hi]; [left |].
  rewrite (bool_decide_eq_false_2 _ He), (bool_decide_eq_false_2 _ Hi).
  cbn. apply IH. intros u Hu. apply Hfresh. now right.
Qed.

Lemma register_fresh `{Bcrypt} (data : RegisterDTO) (salt0 newId0 : string) (now : Z)
    (db : Db) :
  (∀ u, u ∈ db.(users) → u.(u_email) ≠ data.(reg_email) ∧ u.(u_id) ≠ newId0) →
  AuthService.register data salt0 newId0 now db
  = (inr (mkRegisterResult newId0),
     mkDb (db.(users) ++ [new_user data salt0 newId0 now]) db.(tasks)).
Proof.
  intros Hfresh.
  unfold AuthService.register, mbind, M_bind, prisma.user_findUnique, prisma.user_create.
  rewrite find_email_None by (intros u Hu; now apply Hfresh).
  rewrite existsb_fresh by exact Hfresh. reflexivity.
Qed.

(** C8: for a body that passes [registerSchema] and whose email (and
    generated id) is new to the store, [register] creates one identity, and
    its role is the role the caller sent, ADMIN included; without a role in
    the body the identity is a USER. *)
Theorem register_role_trusted_as_given `{Bcrypt} `{JsText}
    (body value : gmap string JsVal) (salt0 newId0 : string) (now : Z) (db : Db) :
  Joi.validate registerSchema body = inr value →
  (∀ u, u ∈ db.(users) →
        body !! "email" ≠ Some (VStr u.(u_email)) ∧ u.(u_id) ≠ newId0) →
  ∃ dto u,
    as_RegisterDTO value = Some dto
    ∧ AuthService.register dto salt0 newId0 now db
      = (inr (mkRegisterResult newId0), mkDb (db.(users) ++ [u]) db.(tasks))
    ∧ u.(u_id) = newId0
    ∧ body !! "email" = Some (VStr u.(u_email))
    ∧ (∀ r, body !! "role" = Some (VStr (Role_to_string r)) → u.(u_role) = r)
    ∧ (body !! "role" = None → u.(u_role) = USER).
Proof.
  intros Hvalid Hfresh.
  destruct (validate_registerSchema_inv _ _ Hvalid) as (e & p & r & He & Hp & Hr & ->).
  exists (mkRegisterDTO e p (Some r)), (new_user (mkRegisterDTO e p (Some r)) salt0 newId0 now).
  split; [apply as_RegisterDTO_validated |].
  split.
  { apply register_fresh. intros u Hu. destruct (Hfresh u Hu) as [Hne Hid].
    split; [| exact Hid]. cbn. intros Heq. apply Hne. now rewrite Heq. }
  split; [reflexivity |]. split; [exact He |]. cbn. split.
  - intros r' Hr'. rewrite Hr' in Hr. destruct r'; vm_compute in Hr; congruence.
  - intros Hnone. now rewrite Hnone in Hr.
Qed.

(** ** Token verification *)


Lemma verifyToken_accepts_iff `{Jws} (config : Config) (tok : string) (now : Z)
    (p : TokenPayload) :
  AuthService.verifyToken config tok now = inr p
  ↔ tok ≠ "" ∧ jws_decode tok = Some p ∧ config.(jwt_secret) ≠ ""
    ∧ jws_verify tok config.(jwt_secret) = true
    ∧ in_time p now.
Proof.
  unfold AuthService.verifyToken, jwt.verify, jwt.not_active, in_time.
  destruct (decide (tok = "")) as [Htok | Htok].
  { split; [discriminate | intros [? _]; contradiction]. }
  destruct (jws_decode tok) as [q|].
  2:{ split; [discriminate | intros (_ & ? & _); discriminate]. }
  destruct (decide (jwt_secret config = "")) as [Hsec | Hsec].
  { split; [discriminate | intros (_ & _ & ? & _); contradiction]. }
  destruct (jws_verify tok (jwt_secret config)); cbn.
  2:{ split; [discriminate | intros (_ & _ & _ & ? & _); discriminate]. }
  assert (Hnbf : (match nbf q with
                  | Some n => bool_decide (clockTimestamp now < n)
                  | None => false
                  end) = false
                 ↔ ∀ n, nbf q = Some n → n ≤ clockTimestamp now).
  { destruct (nbf q) as [n|].
    - rewrite bool_decide_eq_false. split.
      + intros Hn m [= <-]. lia.
      + intros Hn. specialize (Hn n eq_refl). lia.
    - split; [discriminate | reflexivity]. }
  destruct (match nbf q with Some n => _ | None => _ end).
  { split; [discriminate |]. intros (_ & [= ->] & _ & _ & Hn & _).
    apply Hnbf in Hn. discriminate. }
  pose proof (proj1 Hnbf eq_refl) as Hn.
  destruct (exp q) as [e|] eqn:He.
  - destruct (decide (e ≤ clockTimestamp now)) as [Hexp | Hexp].
    + split; [discriminate |]. intros (_ & [= <-] & _ & _ & _ & Hlt).
      specialize (Hlt e He). lia.
    + split.
      * intros [= <-]. repeat split; auto. rewrite He. intros e' [= <-]. lia.
      * intros (_ & [= ->] & _). reflexivity.
  - split.
    + intros [= <-]. repeat split; auto. rewrite He. discriminate.
    + intros (_ & [= ->] & _). reflexivity.
Qed.

Lemma in_time_issued (sub0 : string) (role0 : Role) (iat0 exp0 now : Z) :
  in_time (mkTokenPayload sub0 role0 iat0 exp0) now ↔ clockTimestamp now < exp0.
Proof.
  unfold in_time. cbn. split.
  - intros [_ Hexp]. now apply Hexp.
  - intros Hlt. split; [discriminate |]. now intros e [= <-].
Qed.




(** ** Register, then login, then verify *)

Lemma login_success `{Bcrypt} `{Jws} (config : Config) (d : LoginDTO) (now : Z)
    (db : Db) (u : User) :
  prisma.user_findUnique d.(login_email) db = (inr (Some u), db) →
  bcrypt_compare d.(login_password) u.(u_password) = true →
  config.(jwt_secret) ≠ "" →
  AuthService.login config d now db
  = (inr (mkLoginResult
            (jws_sign config.(jwt_secret)
               (mkTokenPayload u.(u_id) u.(u_role) (clockTimestamp now)
                  (clockTimestamp now + config.(jwt_expiry))))
            (mkPartialUser (Some u.(u_id)) (Some u.(u_email)) None
               (Some u.(u_role)) None None)),
     db).
Proof.
  intros Hfind Hcmp Hsec. unfold AuthService.login, mbind, M_bind, jwt.sign.
  rewrite Hfind, Hcmp. cbn [negb].
  destruct (decide (jwt_secret config = "")); [contradiction | reflexivity].
Qed.

Lemma register_then_login_on_empty `{Bcrypt} `{Jws} (config : Config) (dto : RegisterDTO)
    (salt0 newId0 : string) (t_register t_login now : Z) :
  config.(jwt_secret) ≠ "" →
  clockTimestamp now < clockTimestamp t_login + config.(jwt_expiry) →
  ∃ db1 r,
    AuthService.register dto salt0 newId0 t_register empty_db
    = (inr (mkRegisterResult newId0), db1)
    ∧ AuthService.login config (mkLoginDTO dto.(reg_email) dto.(reg_password)) t_login db1
      = (inr r, db1)
    ∧ AuthService.verifyToken config r.(token) now
      = inr (mkTokenPayload newId0 (default USER dto.(reg_role)) (clockTimestamp t_login)
               (clockTimestamp t_login + config.(jwt_expiry))).
Proof.
  intros Hsec Hnow.
  set (u := new_user dto salt0 newId0 t_register).
  exists (mkDb [u] []). eexists. split; [| split].
  - rewrite register_fresh; [reflexivity |]. intros x Hx. now apply elem_of_nil in Hx.
  - apply (login_success config _ t_login _ u); [| apply bcrypt_compare_hash | exact Hsec].
    unfold prisma.user_findUnique. cbn [users find].
    now rewrite bool_decide_eq_true_2.
  - cbn [token]. apply verifyToken_accepts_iff.
    split; [apply jws_sign_nonempty |]. split; [apply jws_decode_sign |].
    split; [exact Hsec |]. split; [apply jws_verify_sign | now apply in_time_issued].
Qed.

(** C1: on the empty store, registering a valid email and password without
    a role (the body as [registerSchema] hands it on, or the bare pair
    given to the service) and then logging in with them succeeds, and the
    token of the login verifies, inside its validity window, to the id of
    the new identity as subject and the role USER. *)
Theorem register_login_verify `{Bcrypt} `{Jws} `{JsText} (config : Config)
    (email password salt0 newId0 : string) (t_register t_login now : Z)
    (value : gmap string JsVal) (dto : RegisterDTO) :
  config.(jwt_secret) ≠ "" →
  Joi.validate registerSchema {[ "email" := VStr email; "password" := VStr password ]}
  = inr value →
  as_RegisterDTO value = Some dto ∨ dto = mkRegisterDTO email password None →
  clockTimestamp now < clockTimestamp t_login + config.(jwt_expiry) →
  ∃ db1 r p,
    AuthService.register dto salt0 newId0 t_register empty_db
    = (inr (mkRegisterResult newId0), db1)
    ∧ AuthService.login config (mkLoginDTO email password) t_login db1 = (inr r, db1)
    ∧ AuthService.verifyToken config r.(token) now = inr p
    ∧ p.(sub) = newId0 ∧ p.(role) = USER.
Proof.
  intros Hsec Hvalid Hdto Hnow.
  assert (Hshape : dto.(reg_email) = email ∧ dto.(reg_password) = password
                   ∧ default USER dto.(reg_role) = USER).
  { destruct Hdto as [Hcast | ->]; [| now repeat split].
    destruct (validate_registerSchema_inv _ _ Hvalid) as (e & p & r & He & Hp & Hr & ->).
    rewrite lookup_insert_eq in He. injection He as <-.
    rewrite lookup_insert_ne, lookup_singleton_eq in Hp by discriminate.
    injection Hp as <-.
    rewrite !lookup_insert_ne, lookup_singleton_ne in Hr by discriminate. subst r.
    rewrite as_RegisterDTO_validated in Hcast. injection Hcast as <-.
    now repeat split. }
  destruct Hshape as (Hemail & Hpassword & Hrole).
  destruct (register_then_login_on_empty config dto salt0 newId0 t_register t_login now
              Hsec Hnow) as (db1 & r & Hreg & Hlogin & Hverify).
  rewrite Hemail, Hpassword in Hlogin. rewrite Hrole in Hverify.
  exists db1, r. eexists. split; [exact Hreg |]. split; [exact Hlogin |].
  split; [exact Hverify |]. split; reflexivity.
Qed.

(** ** Role enforcement *)

(** C5, as stated, fails: on a request without an authenticated user the
    error of [requireRole] is not of the kind Unauthenticated. *)
Lemma requireRole_anonymous_is_not_Unauthenticated :
  ¬ (∃ e, requireRole [ADMIN] anonymous_request empty_db = (([], Fail e), empty_db)
          ∧ error_kind e = Some Unauthenticated).
Proof.
  intros (e & Hrun & Hkind). cbn in Hrun.
  injection Hrun as <-. discriminate Hkind.
Qed.

(** C5, as the code has it: [requireRole] lets the request through when
    the role of the authenticated user is among the allowed ones, fails
    with FORBIDDEN (403) when it is not, and fails with INVALID_TOKEN (401,
    "Not authenticated") when the request has no authenticated user. *)
Theorem requireRole_decision (roles : list Role) (req : Request) (db : Db) :
  (∀ u, req.(req_user) = Some u → u.(au_role) ∈ roles →
        requireRole roles req db = (([], Next req), db))
  ∧ (∀ u, req.(req_user) = Some u → u.(au_role) ∉ roles →
          requireRole roles req db = (([], Fail forbiddenError), db)
          ∧ error_kind forbiddenError = Some Forbidden)
  ∧ (req.(req_user) = None →
       requireRole roles req db = (([], Fail notAuthenticatedError), db)
       ∧ error_kind notAuthenticatedError = Some InvalidToken).
Proof.
  unfold requireRole. split; [| split].
  - intros u -> Hin. now rewrite bool_decide_eq_true_2.
  - intros u -> Hout. now rewrite bool_decide_eq_false_2.
  - intros ->. split; reflexivity.
Qed.

(** ** The authorization gate *)

(** C6: when the Authorization header is missing, empty, or does not start
    with "Bearer ", [authenticate] hands INVALID_TOKEN (401) to the error
    handler without a call of [verifyToken]; on every task route the only
    layer that runs is [authenticate], the response is that error, no
    request with a user attached is passed on, and the store is
    unchanged. *)
Theorem authenticate_rejects_without_bearer `{Jws} `{JsText}
    (config : Config) (env : Env) (req : Request) (db : Db) :
  header_missing req.(authorization) = true ∨ is_bearer req.(authorization) = false →
  authenticate config env req db = (([], Fail noTokenError), db)
  ∧ error_kind noTokenError = Some InvalidToken
  ∧ (∀ downstream,
       dispatch (("authenticate", authenticate config env) :: downstream) req db
       = (([Entered "authenticate"], noTokenResponse), db))
  ∧ (∀ r, handle config env r req db = (([Entered "authenticate"], noTokenResponse), db)).
Proof.
  intros Hhdr.
  assert (Hrun : authenticate config env req db = (([], Fail noTokenError), db)).
  { unfold authenticate.
    destruct Hhdr as [-> | ->]; [reflexivity |]. now rewrite orb_true_r. }
  split; [exact Hrun |]. split; [reflexivity |].
  assert (Hstack : ∀ downstream,
             dispatch (("authenticate", authenticate config env) :: downstream) req db
             = (([Entered "authenticate"], noTokenResponse), db)).
  { intros downstream. cbn [dispatch]. now rewrite Hrun. }
  split; [exact Hstack |]. intros r. apply Hstack.
Qed.

(** ** Pagination *)

Lemma q_integer_ge (q : Q) (m : Z) :
  q_is_integer q = true → Qle_bool (inject_Z m) q = true → m ≤ q_to_Z q.
Proof.
  unfold q_is_integer, q_to_Z. intros Hint Hle.
  apply Z.eqb_eq in Hint. apply Qle_bool_iff in Hle.
  unfold Qle in Hle. cbn in Hle.
  destruct q as [n d]. cbn in *.
  pose proof (Z.div_mod n (Zpos d) ltac:(lia)) as Hdm. rewrite Hint in Hdm.
  nia.
Qed.

Lemma q_integer_le (q : Q) (m : Z) :
  q_is_integer q = true → Qle_bool q (inject_Z m) = true → q_to_Z q ≤ m.
Proof.
  unfold q_is_integer, q_to_Z. intros Hint Hle.
  apply Z.eqb_eq in Hint. apply Qle_bool_iff in Hle.
  unfold Qle in Hle. cbn in Hle.
  destruct q as [n d]. cbn in *.
  pose proof (Z.div_mod n (Zpos d) ltac:(lia)) as Hdm. rewrite Hint in Hdm.
  nia.
Qed.

Section PaginationFacts.
Context `{JsText}.

Lemma number_rules_below (sch : NumberSchema) (n : JsNumber) (m : Z) :
  sch.(num_min) = Some m → below n m → Joi.number_rules sch n ≠ [].
Proof.
  intros Hmin Hlow Hnil.
  apply number_rules_ok in Hnil as (q & -> & _ & Hge & _).
  specialize (Hge m Hmin). apply Qle_bool_iff in Hge. cbn in Hlow.
  apply Qle_not_lt in Hge. contradiction.
Qed.

Lemma number_rules_above (sch : NumberSchema) (n : JsNumber) (m : Z) :
  sch.(num_max) = Some m → above n m → Joi.number_rules sch n ≠ [].
Proof.
  intros Hmax Hhigh Hnil.
  apply number_rules_ok in Hnil as (q & -> & _ & _ & Hle).
  specialize (Hle m Hmax). apply Qle_bool_iff in Hle. cbn in Hhigh.
  apply Qle_not_lt in Hle. contradiction.
Qed.

Lemma query_number_lookup (q : gmap string JsVal) (k : string) (n : JsNumber) :
  query_number q k = Some n →
  (to_number_if_numeric <$> q) !! k = Some (VNum n).
Proof.
  unfold query_number. rewrite lookup_fmap.
  destruct (to_number_if_numeric <$> q !! k) as [[]|]; try discriminate.
  now intros [= ->].
Qed.

(** A key whose number breaks a rule of its schema makes the key fail. *)
Lemma validate_key_number_fails (k : string) (sch : NumberSchema) (dflt : option JsVal)
    (data : gmap string JsVal) (n : JsNumber) :
  data !! k = Some (VNum n) →
  Joi.number_rules sch n ≠ [] →
  (Joi.validate_key k (mkKeySchema (JoiNumber sch) false dflt) data).1 ≠ [].
Proof.
  intros Hk Hrules. unfold Joi.validate_key. rewrite Hk. cbn.
  destruct (Joi.number_rules sch n); [congruence | discriminate].
Qed.

Lemma validate_layer_cases (schema : ObjectSchema) (property : Property)
    (req : Request) (db : Db) :
  (∃ req', validate schema property req db = (([], Next req'), db))
  ∨ (∃ dets, validate schema property req db = (([], Fail (validationError dets)), db)).
Proof.
  unfold validate. destruct (Joi.validate_any _ _); eauto.
Qed.

(** The layer on a query: the converted query goes to Joi; the request
    that goes on is the one that came in. *)
Lemma validate_query (schema : ObjectSchema) (req : Request) (db : Db) :
  validate schema Query req db
  = match Joi.validate schema (to_number_if_numeric <$> req.(query)) with
    | inl dets => (([], Fail (validationError dets)), db)
    | inr _ => (([], Next req), db)
    end.
Proof.
  unfold validate, Joi.validate_any.
  now destruct (Joi.validate schema (to_number_if_numeric <$> query req)).
Qed.

(** The layer on a body: an absent body goes on as it is, an object goes
    to Joi and is replaced by the validated value. *)
Lemma validate_body (schema : ObjectSchema) (req : Request) (db : Db) :
  validate schema Body req db
  = match req.(body) with
    | None => (([], Next req), db)
    | Some b =>
        match Joi.validate schema b with
        | inl dets => (([], Fail (validationError dets)), db)
        | inr value => (([], Next (put_property Body (Some value) req)), db)
        end
    end.
Proof.
  unfold validate, Joi.validate_any. cbn [get_property].
  destruct (body req) as [b|] eqn:Hb.
  - now destruct (Joi.validate schema b).
  - destruct req. cbn in Hb. now subst.
Qed.

Lemma pagination_rejected (req : Request) (db : Db) :
  (Joi.validate_keys paginationSchema.(obj_keys)
     (to_number_if_numeric <$> req.(query))).1 ≠ [] →
  ∃ dets, validate paginationSchema Query req db
          = (([], Fail (validationError dets)), db).
Proof.
  intros Herrs. apply validate_inl in Herrs as [dets Hdets].
  exists dets. rewrite validate_query. now rewrite Hdets.
Qed.

(** What [paginationSchema] lets through holds a whole page of at least 1
    and a whole limit between 1 and 100, the defaults where the input had
    no value. *)
Lemma pagination_value (data value : gmap string JsVal) :
  Joi.validate paginationSchema data = inr value →
  ∃ qp ql,
    value !! "page" = Some (VNum (Finite qp))
    ∧ value !! "limit" = Some (VNum (Finite ql))
    ∧ q_is_integer qp = true ∧ q_is_integer ql = true
    ∧ Qle_bool (inject_Z 1) qp = true
    ∧ Qle_bool (inject_Z 1) ql = true ∧ Qle_bool ql (inject_Z 100) = true
    ∧ (data !! "page" = None → qp = inject_Z 1)
    ∧ (data !! "limit" = None → ql = inject_Z 10).
Proof.
  intros Hv. apply validate_inr in Hv as [Herrs ->].
  unfold paginationSchema in *. cbn [obj_keys obj_unknown] in *.
  rewrite !validate_keys_cons in *. cbn [fst snd Joi.validate_keys] in *.
  apply app_eq_nil in Herrs as [Hp Herrs].
  apply app_eq_nil in Herrs as [Hl _].
  apply validate_key_ok in Hp, Hl.
  cbn [key_type key_required key_default] in *.
  assert (Hpage : ∃ qp, (Joi.validate_key "page"
              (mkKeySchema (JoiNumber (mkNumberSchema true (Some 1) None)) false
                 (Some (VNum (Finite (inject_Z 1))))) data).2
            = Some (VNum (Finite qp))
            ∧ q_is_integer qp = true ∧ Qle_bool (inject_Z 1) qp = true
            ∧ (data !! "page" = None → qp = inject_Z 1)).
  { destruct (data !! "page") as [v|]; destruct Hp as [Hp ->].
    - apply validate_number_ok in Hp as (n & -> & Hrules & _).
      apply number_rules_ok in Hrules as (qp & -> & Hint & Hmin & _).
      exists qp. repeat split; auto. discriminate.
    - exists (inject_Z 1). repeat split; reflexivity. }
  assert (Hlimit : ∃ ql, (Joi.validate_key "limit"
              (mkKeySchema (JoiNumber (mkNumberSchema true (Some 1) (Some 100))) false
                 (Some (VNum (Finite (inject_Z 10))))) data).2
            = Some (VNum (Finite ql))
            ∧ q_is_integer ql = true ∧ Qle_bool (inject_Z 1) ql = true
            ∧ Qle_bool ql (inject_Z 100) = true
            ∧ (data !! "limit" = None → ql = inject_Z 10)).
  { destruct (data !! "limit") as [v|]; destruct Hl as [Hl ->].
    - apply validate_number_ok in Hl as (n & -> & Hrules & _).
      apply number_rules_ok in Hrules as (ql & -> & Hint & Hmin & Hmax).
      exists ql. repeat split; auto. discriminate.
    - exists (inject_Z 10). repeat split; reflexivity. }
  destruct Hpage as (qp & -> & Hpi & Hp1 & Hpd).
  destruct Hlimit as (ql & -> & Hli & Hl1 & Hl100 & Hld).
  exists qp, ql.
  split; [apply lookup_union_Some_l, lookup_insert_eq |].
  split.
  { apply lookup_union_Some_l.
    rewrite lookup_insert_ne by discriminate. apply lookup_insert_eq. }
  repeat split; auto.
Qed.

Lemma pagination_accepted (req req' : Request) (db : Db) :
  validate paginationSchema Query req db = (([], Next req'), db) →
  ∃ value,
    Joi.validate paginationSchema (to_number_if_numeric <$> req.(query)) = inr value
    ∧ req' = req.
Proof.
  rewrite validate_query.
  destruct (Joi.validate _ _) as [dets | value]; [discriminate |].
  intros [= <-]. eauto.
Qed.
End PaginationFacts.

(** What [validate(paginationSchema, 'query')] does.  For a query that
    passes, the validated value holds a page of at least 1 and a limit
    between 1 and 100, the page being 1 and the limit 10 when the query
    did not have them; the request that goes on to the controller is the
    one that came in, with its query as it was.  A query whose page reads
    as a number below 1, or whose limit reads as a number below 1 or above
    100, is rejected with VALIDATION_ERROR (400) and no later layer of the
    route runs. *)
Lemma pagination_value_is_bounded `{JsText} (req : Request) (db : Db) :
  (∀ req', validate paginationSchema Query req db = (([], Next req'), db) →
     req' = req
     ∧ ∃ value p,
         Joi.validate paginationSchema (to_number_if_numeric <$> req.(query)) = inr value
         ∧ as_PaginationParams value = Some p
         ∧ 1 ≤ p.(page) ∧ 1 ≤ p.(limit) ≤ 100
         ∧ (req.(query) !! "page" = None → p.(page) = 1)
         ∧ (req.(query) !! "limit" = None → p.(limit) = 10))
  ∧ ((∃ n, query_number req.(query) "page" = Some n ∧ below n 1)
     ∨ (∃ n, query_number req.(query) "limit" = Some n ∧ (below n 1 ∨ above n 100)) →
     ∃ dets,
       validate paginationSchema Query req db = (([], Fail (validationError dets)), db)
       ∧ error_kind (validationError dets) = Some ValidationError
       ∧ ∀ downstream,
           dispatch (("validate", validate paginationSchema Query) :: downstream) req db
           = (([Entered "validate"], validationResponse dets), db)).
Proof.
  split.
  - intros req' Hok.
    apply pagination_accepted in Hok as (value & Hvalue & ->).
    split; [reflexivity |].
    destruct (pagination_value _ _ Hvalue)
      as (qp & ql & Hp & Hl & Hpi & Hli & Hp1 & Hl1 & Hl100 & Hpd & Hld).
    exists value, (mkPaginationParams (q_to_Z qp) (q_to_Z ql)).
    assert (Hcast : as_PaginationParams value
                    = Some (mkPaginationParams (q_to_Z qp) (q_to_Z ql))).
    { unfold as_PaginationParams. rewrite Hp, Hl. cbn. now rewrite Hpi, Hli. }
    split; [exact Hvalue |]. split; [exact Hcast |].
    cbn [page limit].
    split; [now apply q_integer_ge |].
    split; [split; [now apply q_integer_ge | now apply q_integer_le] |].
    split.
    { intros Hnone. rewrite Hpd; [reflexivity |]. now rewrite lookup_fmap, Hnone. }
    intros Hnone. rewrite Hld; [reflexivity |]. now rewrite lookup_fmap, Hnone.
  - intros Hbad.
    assert (Herrs : (Joi.validate_keys paginationSchema.(obj_keys)
                       (to_number_if_numeric <$> req.(query))).1 ≠ []).
    { unfold paginationSchema. cbn [obj_keys]. rewrite !validate_keys_cons. cbn [fst].
      intros Hnil. apply app_eq_nil in Hnil as [Hp Hnil].
      apply app_eq_nil in Hnil as [Hl _].
      destruct Hbad as [(n & Hn & Hlow) | (n & Hn & Hcmp)].
      - revert Hp. apply (validate_key_number_fails _ _ _ _ n).
        + now apply query_number_lookup.
        + now apply (number_rules_below _ _ 1).
      - revert Hl. apply (validate_key_number_fails _ _ _ _ n).
        + now apply query_number_lookup.
        + destruct Hcmp as [Hlow | Hhigh].
          * now apply (number_rules_below _ _ 1).
          * now apply (number_rules_above _ _ 100). }
    apply (pagination_rejected req db) in Herrs as [dets Hdets].
    exists dets. split; [exact Hdets |]. split; [reflexivity |].
    intros downstream. cbn [dispatch]. now rewrite Hdets.
Qed.

(** C10, on the code: the validated page and limit do not reach the task
    service.  On [?page=1&limit=10], the query of the repository's own
    test, the schema passes and Joi's value holds the numbers 1 and 10, but
    the request that goes on still holds the two strings; the controller
    hands them to the service as they are, the Prisma client refuses them,
    and the answer is 500.  On [?limit=20] no page 1 is filled in either. *)
Lemma pagination_does_not_reach_the_service :
  @validate reference_text paginationSchema Query
    (Sample.with_query {[ "page" := VStr "1"; "limit" := VStr "10" ]}) Sample.db
  = (([], Next (Sample.with_query {[ "page" := VStr "1"; "limit" := VStr "10" ]})),
     Sample.db)
  ∧ @Joi.validate reference_text paginationSchema
      (@to_number_if_numeric reference_text
         <$> ({[ "page" := VStr "1"; "limit" := VStr "10" ]} : gmap string JsVal))
    = inr {[ "page" := VNum (Finite (inject_Z 1));
             "limit" := VNum (Finite (inject_Z 10)) ]}
  ∧ as_PaginationParams
      (Sample.with_query {[ "page" := VStr "1"; "limit" := VStr "10" ]}).(query) = None
  ∧ dispatch (@route_layers reference_text Sample.env GET_tasks)
      (Sample.with_query {[ "page" := VStr "1"; "limit" := VStr "10" ]}) Sample.db
    = (([Entered "validate"; Entered "getTasks"],
        mkResponse 500 (JsonError INTERNAL_ERROR "An unexpected error occurred" None)),
       Sample.db)
  ∧ @validate reference_text paginationSchema Query
      (Sample.with_query {[ "limit" := VStr "20" ]}) Sample.db
    = (([], Next (Sample.with_query {[ "limit" := VStr "20" ]})), Sample.db)
  ∧ (Sample.with_query {[ "limit" := VStr "20" ]}).(query) !! "page" = None.
Proof. repeat split; vm_compute; reflexivity. Qed.

(** ** Ownership of tasks *)

Lemma same_id_same_task (ts : list Task) (a b : Task) :
  NoDup (t_id <$> ts) → a ∈ ts → b ∈ ts → a.(t_id) = b.(t_id) → a = b.
Proof.
  induction ts as [|x ts IH]; intros Hnd Ha Hb Heq; [now apply elem_of_nil in Ha |].
  cbn in Hnd. apply NoDup_cons in Hnd as [Hx Hnd].
  apply elem_of_cons in Ha as [-> | Ha]; apply elem_of_cons in Hb as [-> | Hb].
  - reflexivity.
  - exfalso. apply Hx. rewrite Heq. now apply list_elem_of_fmap_2.
  - exfalso. apply Hx. rewrite <- Heq. now apply list_elem_of_fmap_2.
  - now apply IH.
Qed.

Lemma findFirst_foreign (db : Db) (owner : string) (t : Task) :
  ids_unique db → t ∈ db.(tasks) → t.(t_userId) ≠ owner →
  prisma_task.findFirst t.(t_id) owner db = (inr None, db).
Proof.
  intros Hnd Hin Hother. unfold prisma_task.findFirst. do 2 f_equal.
  destruct (find _ (tasks db)) as [x|] eqn:Hfind; [exfalso | reflexivity].
  apply find_some in Hfind as [Hx Hmatch].
  apply andb_true_iff in Hmatch as [Hid Hown].
  apply bool_decide_eq_true_1 in Hid, Hown.
  apply list_elem_of_In in Hx.
  assert (x = t) as -> by (eapply same_id_same_task; eauto).
  contradiction.
Qed.

Lemma getTaskById_foreign (db : Db) (owner : string) (t : Task) :
  ids_unique db → t ∈ db.(tasks) → t.(t_userId) ≠ owner →
  TaskService.getTaskById t.(t_id) owner db = (inl notFoundError, db).
Proof.
  intros Hnd Hin Hother. unfold TaskService.getTaskById, mbind, M_bind.
  now rewrite findFirst_foreign.
Qed.

Lemma window_subset (skip take : Z) (rows : list Task) (x : Task) :
  x ∈ prisma_task.window skip take rows → x ∈ rows.
Proof.
  unfold prisma_task.window. destruct (decide (0 ≤ take)); intros Hx.
  - now apply subseteq_take, subseteq_drop in Hx.
  - apply list_elem_of_In, in_rev, list_elem_of_In in Hx.
    apply subseteq_take, subseteq_drop in Hx.
    now apply list_elem_of_In, in_rev, list_elem_of_In in Hx.
Qed.

Lemma getTasks_only_own (db db' : Db) (owner : string) (params : PaginationParams)
    (r : TaskPage) :
  TaskService.getTasks owner params db = (inr r, db') →
  db' = db ∧ ∀ x, x ∈ r.(data) → x ∈ db.(tasks) ∧ x.(t_userId) = owner.
Proof.
  unfold TaskService.getTasks, mbind, M_bind, prisma_task.findMany, prisma_task.count.
  destruct (decide _); [discriminate |]. cbn.
  intros [= <- <-]. split; [reflexivity |]. cbn. intros x Hx.
  apply window_subset in Hx. rewrite merge_sort_Permutation in Hx.
  apply list_elem_of_filter in Hx as [Hown Hin]. split; [exact Hin |].
  cbn in Hown. now apply bool_decide_eq_true_1 in Hown.
Qed.

Lemma routes_refuse_foreign_task `{JsText} (env : Env) (req : Request) (db : Db)
    (owner : string) (t : Task) :
  ids_unique db → t ∈ db.(tasks) → t.(t_userId) ≠ owner →
  req.(req_user) = Some (mkAuthUser owner USER) → param_id req = t.(t_id) →
  dispatch (route_layers env GET_task) req db
  = (([Entered "getTaskById"], notFoundResponse), db)
  ∧ dispatch (route_layers env DELETE_task) req db
    = (([Entered "deleteTask"], notFoundResponse), db)
  ∧ (∃ tr res, dispatch (route_layers env PUT_task) req db = ((tr, res), db)
               ∧ res.(status) ≠ 200)
  ∧ dispatch (route_layers env GET_tasks_all) req db
    = (([Entered "requireRole"], forbiddenResponse), db).
Proof.
  intros Hnd Hin Hother Huser Hid.
  pose proof (getTaskById_foreign db owner t Hnd Hin Hother) as Hget.
  assert (Hupd : ∀ d now, TaskService.updateTask (t_id t) owner d now db
                          = (inl notFoundError, db)).
  { intros d now. unfold TaskService.updateTask. now apply bind_inl. }
  assert (Hdel : TaskService.deleteTask (t_id t) owner db = (inl notFoundError, db)).
  { unfold TaskService.deleteTask. now apply bind_inl. }
  split; [| split; [| split]].
  - cbn [route_layers dispatch].
    unfold TaskController.getTaskById, TaskController.with_user, respond.
    rewrite Huser, Hid. cbn [au_id]. now rewrite Hget.
  - cbn [route_layers dispatch].
    unfold TaskController.deleteTask, TaskController.with_user, respond.
    rewrite Huser, Hid. cbn [au_id]. now rewrite Hdel.
  - cbn [route_layers dispatch].
    destruct (validate_layer_cases updateTaskSchema Body req db)
      as [[req' Hok] | [dets Hbad]].
    + rewrite Hok.
      assert (Hsame : req_user req' = req_user req ∧ param_id req' = param_id req).
      { unfold validate in Hok. destruct (Joi.validate_any _ _); [discriminate |].
        injection Hok as <-. split; reflexivity. }
      destruct Hsame as [Hu' Hid'].
      unfold TaskController.updateTask, TaskController.with_user, respond.
      rewrite Hu', Huser, Hid', Hid. cbn [au_id].
      destruct (body req' ≫= as_UpdateTaskDTO) as [d|].
      * rewrite Hupd. do 2 eexists. split; [reflexivity |]. discriminate.
      * rewrite (bind_inl _ _ db db notFoundError Hget).
        do 2 eexists. split; [reflexivity |]. discriminate.
    + rewrite Hbad. do 2 eexists. split; [reflexivity |]. discriminate.
  - cbn [route_layers dispatch]. unfold requireRole. rewrite Huser. cbn [au_role].
    rewrite bool_decide_eq_false_2; [reflexivity |].
    intros Hadm. apply list_elem_of_singleton in Hadm. discriminate.
Qed.

(** C9: an operation a user makes on a task of somebody else
    ([getTaskById], [updateTask], [deleteTask]) fails with NOT_FOUND and
    changes nothing in the store; so the routes of a non-admin user neither
    show, change nor delete such a task (and the admin listing refuses
    them); and [getTasks] returns tasks of the store that the user owns,
    and no others. *)
Theorem foreign_task_is_not_found `{JsText} (db : Db) (owner : string) (t : Task)
    (d : UpdateTaskDTO) (now : Z) :
  ids_unique db → t ∈ db.(tasks) → t.(t_userId) ≠ owner →
  TaskService.getTaskById t.(t_id) owner db = (inl notFoundError, db)
  ∧ TaskService.updateTask t.(t_id) owner d now db = (inl notFoundError, db)
  ∧ TaskService.deleteTask t.(t_id) owner db = (inl notFoundError, db)
  ∧ error_kind notFoundError = Some NotFound
  ∧ (∀ env req,
       req.(req_user) = Some (mkAuthUser owner USER) → param_id req = t.(t_id) →
       dispatch (route_layers env GET_task) req db
       = (([Entered "getTaskById"], notFoundResponse), db)
       ∧ dispatch (route_layers env DELETE_task) req db
         = (([Entered "deleteTask"], notFoundResponse), db)
       ∧ (∃ tr res, dispatch (route_layers env PUT_task) req db = ((tr, res), db)
                    ∧ res.(status) ≠ 200)
       ∧ dispatch (route_layers env GET_tasks_all) req db
         = (([Entered "requireRole"], forbiddenResponse), db))
  ∧ (∀ params r db',
       TaskService.getTasks owner params db = (inr r, db') →
       db' = db ∧ ∀ x, x ∈ r.(data) → x ∈ db.(tasks) ∧ x.(t_userId) = owner).
Proof.
  intros Hnd Hin Hother.
  pose proof (getTaskById_foreign db owner t Hnd Hin Hother) as Hget.
  split; [exact Hget |]. split; [| split; [| split; [reflexivity | split]]].
  - unfold TaskService.updateTask. now apply bind_inl.
  - unfold TaskService.deleteTask. now apply bind_inl.
  - intros env req Huser Hid. now apply (routes_refuse_foreign_task env req db owner t).
  - intros params r db'. apply getTasks_only_own.
Qed.

(** ** The keys of the two tables stay unique *)

Lemma existsb_email_or_id (email newId0 : string) (us : list User) :
  existsb (λ u, bool_decide (u.(u_email) = email) || bool_decide (u.(u_id) = newId0)) us
  = false →
  email ∉ u_email <$> us.
Proof.
  induction us as [|w us IH]; cbn [existsb fmap list_fmap]; intros Hex Hin.
  - now apply elem_of_nil in Hin.
  - apply orb_false_iff in Hex as [Hw Hex]. apply orb_false_iff in Hw as [Hw _].
    apply bool_decide_eq_false_1 in Hw.
    apply elem_of_cons in Hin as [Heq | Hin]; [congruence | now apply IH].
Qed.

Lemma register_keeps_emails_unique `{Bcrypt} (data : RegisterDTO) (salt0 newId0 : string)
    (now : Z) (db : Db) :
  emails_unique db →
  emails_unique (AuthService.register data salt0 newId0 now db).2.
Proof.
  unfold emails_unique, AuthService.register, mbind, M_bind, prisma.user_findUnique,
    prisma.user_create.
  intros Hnd. destruct (find _ (users db)); [exact Hnd |].
  destruct (existsb _ (users db)) eqn:Hex; [exact Hnd |].
  cbn. rewrite fmap_app. apply NoDup_app. split; [exact Hnd |].
  split; [| apply NoDup_singleton].
  intros e He Hnew. cbn in Hnew. apply list_elem_of_singleton in Hnew. subst e.
  now apply existsb_email_or_id in Hex.
Qed.

Lemma existsb_task_id (newId0 : string) (ts : list Task) :
  existsb (λ t, bool_decide (t.(t_id) = newId0)) ts = false → newId0 ∉ t_id <$> ts.
Proof.
  induction ts as [|w ts IH]; cbn [existsb fmap list_fmap]; intros Hex Hin.
  - now apply elem_of_nil in Hin.
  - apply orb_false_iff in Hex as [Hw Hex]. apply bool_decide_eq_false_1 in Hw.
    apply elem_of_cons in Hin as [Heq | Hin]; [congruence | now apply IH].
Qed.

Lemma createTask_keeps_ids_unique (owner : string) (d : CreateTaskDTO) (newId0 : string)
    (now : Z) (db : Db) :
  ids_unique db → ids_unique (TaskService.createTask owner d newId0 now db).2.
Proof.
  unfold ids_unique, TaskService.createTask, prisma_task.create. intros Hnd.
  destruct (existsb _ (tasks db)) eqn:Hex; [exact Hnd |].
  destruct (negb _); [exact Hnd |].
  cbn. rewrite fmap_app. apply NoDup_app. split; [exact Hnd |].
  split; [| apply NoDup_singleton].
  intros i Hi Hnew. cbn in Hnew. apply list_elem_of_singleton in Hnew. subst i.
  now apply existsb_task_id in Hex.
Qed.

Lemma update_keeps_ids (taskId : string) (t' : Task) (ts : list Task) :
  t'.(t_id) = taskId →
  t_id <$> map (λ x, if bool_decide (x.(t_id) = taskId) then t' else x) ts = t_id <$> ts.
Proof.
  intros Hid. induction ts as [|w ts IH]; [reflexivity |].
  cbn [map fmap list_fmap]. f_equal; [| exact IH].
  destruct (bool_decide (t_id w = taskId)) eqn:Hw; [| reflexivity].
  apply bool_decide_eq_true_1 in Hw. congruence.
Qed.

Lemma updateTask_keeps_ids_unique (taskId owner : string) (d : UpdateTaskDTO) (now : Z)
    (db : Db) :
  ids_unique db → ids_unique (TaskService.updateTask taskId owner d now db).2.
Proof.
  unfold ids_unique, TaskService.updateTask, TaskService.getTaskById, mbind, M_bind,
    prisma_task.findFirst, prisma_task.update.
  intros Hnd. destruct (find _ (tasks db)) as [t|]; [| exact Hnd]. cbn.
  destruct (find _ (tasks db)) as [t0|] eqn:Hfind; [| exact Hnd].
  cbn. rewrite update_keeps_ids; [exact Hnd |].
  apply find_some in Hfind as [_ Hid]. now apply bool_decide_eq_true_1 in Hid.
Qed.

Lemma deleteTask_keeps_ids_unique (taskId owner : string) (db : Db) :
  ids_unique db → ids_unique (TaskService.deleteTask taskId owner db).2.
Proof.
  unfold ids_unique, TaskService.deleteTask, TaskService.getTaskById, mbind, M_bind,
    prisma_task.findFirst, prisma_task.delete.
  intros Hnd. destruct (find _ (tasks db)) as [t|]; [| exact Hnd]. cbn.
  destruct (find _ (tasks db)) as [t0|]; [| exact Hnd].
  cbn. apply (sublist_NoDup _ (t_id <$> tasks db) Hnd).
  apply fmap_sublist, sublist_filter.
Qed.

(** ** Runs on the sample data *)

(** A closed equation of the model is settled by running both sides. *)
Ltac by_running := vm_compute; reflexivity.

Lemma register_duplicate_email_conflict_witness :
  Sample.alice ∈ Sample.db.(users)
  ∧ Sample.alice.(u_email) = "alice@example.com"
  ∧ @AuthService.register reference_bcrypt
      (mkRegisterDTO "alice@example.com" "Another99" (Some ADMIN)) "pepper" "u2" 1000 Sample.db
    = (inl conflictError, Sample.db)
  ∧ error_kind conflictError = Some Conflict.
Proof.
  assert (Hin : Sample.alice ∈ Sample.db.(users)) by left.
  split; [exact Hin |]. split; [reflexivity |].
  exact (@register_duplicate_email_conflict reference_bcrypt
           (mkRegisterDTO "alice@example.com" "Another99" (Some ADMIN))
           "pepper" "u2" 1000 Sample.db Sample.alice Hin eq_refl).
Defined.


Lemma login_failures_indistinguishable_witness :
  (∀ x, x ∈ Sample.db.(users) → x.(u_email) ≠ "nobody@example.com")
  ∧ prisma.user_findUnique "alice@example.com" Sample.db
    = (inr (Some Sample.alice), Sample.db)
  ∧ @bcrypt_compare reference_bcrypt "WrongPass1" Sample.alice.(u_password) = false
  ∧ @AuthService.login reference_bcrypt reference_jws Sample.config
      (mkLoginDTO "nobody@example.com" "Secret123") 1000 Sample.db
    = (inl authFailedError, Sample.db)
  ∧ @AuthService.login reference_bcrypt reference_jws Sample.config
      (mkLoginDTO "alice@example.com" "WrongPass1") 2000 Sample.db
    = (inl authFailedError, Sample.db)
  ∧ error_kind authFailedError = Some AuthFailed.
Proof.
  assert (Hno : ∀ x, x ∈ Sample.db.(users) → x.(u_email) ≠ "nobody@example.com").
  { intros x Hx. apply list_elem_of_singleton in Hx. subst x. discriminate. }
  split; [exact Hno |]. split; [reflexivity |]. split; [reflexivity |].
  exact (@login_failures_indistinguishable reference_bcrypt reference_jws Sample.config
           (mkLoginDTO "nobody@example.com" "Secret123")
           (mkLoginDTO "alice@example.com" "WrongPass1")
           1000 2000 Sample.db Sample.alice Hno eq_refl eq_refl).
Defined.

Lemma login_result_is_token_and_summary_witness :
  @AuthService.login reference_bcrypt reference_jws Sample.config
    (mkLoginDTO "alice@example.com" "Secret123") 1000 Sample.db
  = (inr Sample.alice_login, Sample.db)
  ∧ ∃ u, u ∈ Sample.db.(users) ∧ u.(u_email) = "alice@example.com"
      ∧ Sample.alice_login.(token) = @jws_sign reference_jws "secret"
                      (mkTokenPayload u.(u_id) u.(u_role) (clockTimestamp 1000)
                         (clockTimestamp 1000 + 900))
      ∧ Sample.alice_login.(user)
        = mkPartialUser (Some u.(u_id)) (Some u.(u_email)) None (Some u.(u_role)) None None
      ∧ Sample.alice_login.(user).(pu_password) = None
      ∧ Sample.db = Sample.db.
Proof.
  assert (Hrun : @AuthService.login reference_bcrypt reference_jws Sample.config
                   (mkLoginDTO "alice@example.com" "Secret123") 1000 Sample.db
                 = (inr Sample.alice_login, Sample.db)) by by_running.
  split; [exact Hrun |].
  exact (@login_result_is_token_and_summary reference_bcrypt reference_jws Sample.config
           (mkLoginDTO "alice@example.com" "Secret123") 1000 Sample.db Sample.db
           Sample.alice_login Hrun).
Defined.

Lemma register_role_trusted_as_given_witness :
  @Joi.validate reference_text registerSchema Sample.admin_body = inr Sample.admin_body
  ∧ (∀ u, u ∈ Sample.db.(users) →
          Sample.admin_body !! "email" ≠ Some (VStr u.(u_email)) ∧ u.(u_id) ≠ "u2")
  ∧ ∃ dto u,
      as_RegisterDTO Sample.admin_body = Some dto
      ∧ @AuthService.register reference_bcrypt dto "pepper" "u2" 1000 Sample.db
        = (inr (mkRegisterResult "u2"),
           mkDb (Sample.db.(users) ++ [u]) Sample.db.(tasks))
      ∧ u.(u_id) = "u2"
      ∧ Sample.admin_body !! "email" = Some (VStr u.(u_email))
      ∧ (∀ r, Sample.admin_body !! "role" = Some (VStr (Role_to_string r)) →
              u.(u_role) = r)
      ∧ (Sample.admin_body !! "role" = None → u.(u_role) = USER).
Proof.
  assert (Hvalid : @Joi.validate reference_text registerSchema Sample.admin_body
                   = inr Sample.admin_body)
    by by_running.
  assert (Hfresh : ∀ u, u ∈ Sample.db.(users) →
                        Sample.admin_body !! "email" ≠ Some (VStr u.(u_email))
                        ∧ u.(u_id) ≠ "u2").
  { intros u Hu. apply list_elem_of_singleton in Hu. subst u.
    split; [vm_compute |]; discriminate. }
  split; [exact Hvalid |]. split; [exact Hfresh |].
  exact (@register_role_trusted_as_given reference_bcrypt reference_text
           Sample.admin_body Sample.admin_body
           "pepper" "u2" 1000 Sample.db Hvalid Hfresh).
Defined.


Lemma register_login_verify_witness :
  Sample.config.(jwt_secret) ≠ ""
  ∧ @Joi.validate reference_text registerSchema
      {[ "email" := VStr "dave@example.com"; "password" := VStr "Secret123" ]}
    = inr Sample.plain_value
  ∧ as_RegisterDTO Sample.plain_value
    = Some (mkRegisterDTO "dave@example.com" "Secret123" (Some USER))
  ∧ clockTimestamp 900000 < clockTimestamp 1000 + Sample.config.(jwt_expiry)
  ∧ ∃ db1 r p,
      @AuthService.register reference_bcrypt
        (mkRegisterDTO "dave@example.com" "Secret123" (Some USER)) "salt" "u7" 500 empty_db
      = (inr (mkRegisterResult "u7"), db1)
      ∧ @AuthService.login reference_bcrypt reference_jws Sample.config
          (mkLoginDTO "dave@example.com" "Secret123") 1000 db1 = (inr r, db1)
      ∧ @AuthService.verifyToken reference_jws Sample.config r.(token) 900000 = inr p
      ∧ p.(sub) = "u7" ∧ p.(role) = USER.
Proof.
  assert (Hsec : Sample.config.(jwt_secret) ≠ "") by discriminate.
  assert (Hvalid : @Joi.validate reference_text registerSchema
                     {[ "email" := VStr "dave@example.com"; "password" := VStr "Secret123" ]}
                   = inr Sample.plain_value) by by_running.
  assert (Hcast : as_RegisterDTO Sample.plain_value
                  = Some (mkRegisterDTO "dave@example.com" "Secret123" (Some USER)))
    by by_running.
  assert (Hnow : clockTimestamp 900000 < clockTimestamp 1000 + Sample.config.(jwt_expiry))
    by by_running.
  split; [exact Hsec |]. split; [exact Hvalid |]. split; [exact Hcast |].
  split; [exact Hnow |].
  exact (@register_login_verify reference_bcrypt reference_jws reference_text Sample.config
           "dave@example.com" "Secret123" "salt" "u7" 500 1000 900000 Sample.plain_value
           (mkRegisterDTO "dave@example.com" "Secret123" (Some USER))
           Hsec Hvalid (or_introl Hcast) Hnow).
Defined.

Lemma requireRole_decision_witness :
  requireRole [ADMIN] (Sample.as_user (mkAuthUser "u0" ADMIN) "t1") Sample.db
  = (([], Next (Sample.as_user (mkAuthUser "u0" ADMIN) "t1")), Sample.db)
  ∧ requireRole [ADMIN] (Sample.as_user (mkAuthUser "u1" USER) "t1") Sample.db
    = (([], Fail forbiddenError), Sample.db)
  ∧ requireRole [ADMIN] anonymous_request Sample.db
    = (([], Fail notAuthenticatedError), Sample.db).
Proof.
  split; [| split].
  - apply (proj1 (requireRole_decision [ADMIN]
                    (Sample.as_user (mkAuthUser "u0" ADMIN) "t1") Sample.db)
             (mkAuthUser "u0" ADMIN) eq_refl).
    apply list_elem_of_singleton. reflexivity.
  - apply (proj1 (proj2 (requireRole_decision [ADMIN]
                           (Sample.as_user (mkAuthUser "u1" USER) "t1") Sample.db))
             (mkAuthUser "u1" USER) eq_refl).
    intros Hin. apply list_elem_of_singleton in Hin. discriminate.
  - apply (proj2 (proj2 (requireRole_decision [ADMIN] anonymous_request Sample.db))
             eq_refl).
Defined.

Lemma authenticate_rejects_without_bearer_witness :
  is_bearer (Some "Basic dXNlcjpwdw==") = false
  ∧ @authenticate reference_jws Sample.config Sample.env
      (mkRequest (Some "Basic dXNlcjpwdw==") None ∅ ∅ None) Sample.db
    = (([], Fail noTokenError), Sample.db)
  ∧ ∀ r, @handle reference_jws reference_text Sample.config Sample.env r
           (mkRequest (Some "Basic dXNlcjpwdw==") None ∅ ∅ None) Sample.db
         = (([Entered "authenticate"], noTokenResponse), Sample.db).
Proof.
  assert (Hhdr : is_bearer (Some "Basic dXNlcjpwdw==") = false) by reflexivity.
  split; [exact Hhdr |].
  destruct (@authenticate_rejects_without_bearer reference_jws reference_text
              Sample.config Sample.env
              (mkRequest (Some "Basic dXNlcjpwdw==") None ∅ ∅ None) Sample.db
              (or_intror Hhdr)) as (Hrun & _ & _ & Hroutes).
  split; [exact Hrun | exact Hroutes].
Defined.

Lemma foreign_task_is_not_found_witness :
  ids_unique Sample.db ∧ Sample.bob_task ∈ Sample.db.(tasks)
  ∧ Sample.bob_task.(t_userId) ≠ "u1"
  ∧ TaskService.getTaskById "t1" "u1" Sample.db = (inl notFoundError, Sample.db)
  ∧ TaskService.updateTask "t1" "u1" (mkUpdateTaskDTO (Some "Mine now") None None) 3000
      Sample.db = (inl notFoundError, Sample.db)
  ∧ TaskService.deleteTask "t1" "u1" Sample.db = (inl notFoundError, Sample.db)
  ∧ (∀ params r db',
       TaskService.getTasks "u1" params Sample.db = (inr r, db') →
       db' = Sample.db
       ∧ ∀ x, x ∈ r.(data) → x ∈ Sample.db.(tasks) ∧ x.(t_userId) = "u1").
Proof.
  assert (Hnd : ids_unique Sample.db) by (unfold ids_unique; cbn; compute_done).
  assert (Hin : Sample.bob_task ∈ Sample.db.(tasks)) by left.
  assert (Hother : Sample.bob_task.(t_userId) ≠ "u1") by discriminate.
  split; [exact Hnd |]. split; [exact Hin |]. split; [exact Hother |].
  destruct (@foreign_task_is_not_found reference_text Sample.db "u1" Sample.bob_task
              (mkUpdateTaskDTO (Some "Mine now") None None) 3000 Hnd Hin Hother)
    as (Hget & Hupd & Hdel & _ & _ & Hlist).
  split; [exact Hget |]. split; [exact Hupd |]. split; [exact Hdel | exact Hlist].
Defined.

(** ** The routes on the sample data

    Alice holds a USER token.  The task service lists her own task for
    her; she gets 404 for the task of somebody else, 403 on the admin
    listing, and 401 with a token that does not verify or after hers has
    expired. *)

Example alice_lists_her_tasks :
  TaskService.getTasks "u1" (mkPaginationParams 1 10) Sample.db
  = (inr (mkTaskPage [Sample.alice_task] (mkPagination 1 10 1 (Finite (inject_Z 1)))),
     Sample.db).
Proof. by_running. Qed.

Example alice_cannot_read_the_task_of_bob :
  (@handle reference_jws reference_text Sample.config Sample.env GET_task
     (Sample.bearer Sample.alice_token) Sample.db).1.2
  = notFoundResponse.
Proof. by_running. Qed.

Example alice_cannot_delete_the_task_of_bob :
  (@handle reference_jws reference_text Sample.config Sample.env DELETE_task
     (Sample.bearer Sample.alice_token) Sample.db).2
  = Sample.db.
Proof. by_running. Qed.

Example alice_is_no_admin :
  (@handle reference_jws reference_text Sample.config Sample.env
     GET_tasks_all (Sample.bearer Sample.alice_token) Sample.db).1.2
  = forbiddenResponse.
Proof. by_running. Qed.

Example garbage_token_is_refused :
  (@handle reference_jws reference_text Sample.config Sample.env GET_tasks
     (Sample.bearer "garbage") Sample.db).1
  = ([Entered "authenticate"; VerifyTokenCalled "garbage"],
     mkResponse 401 (JsonError (Code INVALID_TOKEN) "Invalid or expired token" None)).
Proof. by_running. Qed.

Example token_of_another_secret_is_refused :
  @AuthService.verifyToken reference_jws (mkConfig "other" 900) Sample.alice_token 2000
  = inl invalidTokenError.
Proof. by_running. Qed.

Example token_is_valid_until_its_last_second :
  @AuthService.verifyToken reference_jws Sample.config Sample.alice_token 900999
  = inr (mkTokenPayload "u1" USER 1 901)
  ∧ @AuthService.verifyToken reference_jws Sample.config Sample.alice_token 901000
    = inl invalidTokenError.
Proof. split; by_running. Qed.

(** * Further properties of the program *)

Ltac key_in := repeat (apply elem_of_cons; first [left; reflexivity | right]).

(** ** Login and registration *)

(** X1: [login] succeeds exactly when the store has an identity with the
    email, bcrypt verifies the password against its hash, and a signing
    secret is configured. *)
Theorem login_succeeds_iff `{Bcrypt} `{Jws} (config : Config) (d : LoginDTO) (now : Z)
    (db : Db) :
  (∃ r db', AuthService.login config d now db = (inr r, db'))
  ↔ ∃ u, prisma.user_findUnique d.(login_email) db = (inr (Some u), db)
         ∧ bcrypt_compare d.(login_password) u.(u_password) = true
         ∧ config.(jwt_secret) ≠ "".
Proof.
  split.
  - intros (r & db' & Hlogin). revert Hlogin.
    unfold AuthService.login, mbind, M_bind, prisma.user_findUnique, jwt.sign.
    destruct (find _ (users db)) as [u|]; [| discriminate].
    destruct (bcrypt_compare _ _) eqn:Hcmp; [| discriminate]. cbn.
    destruct (decide (jwt_secret config = "")) as [| Hsec]; [discriminate |].
    intros _. exists u. auto.
  - intros (u & Hfind & Hcmp & Hsec). do 2 eexists.
    now apply (login_success config d now db u).
Qed.

(** X2: what [register] does in each case.  When it succeeds, the email
    and the new id were in no row, the result is the new id, and the store
    has gained the one row [new_user] at the end; when it fails the store
    is untouched, and the failure is CONFLICT for an email that a row has,
    or the unique constraint of the database for an id that a row has. *)
Theorem register_effect `{Bcrypt} (data : RegisterDTO) (salt0 newId0 : string) (now : Z)
    (db : Db) :
  match AuthService.register data salt0 newId0 now db with
  | (inr r, db') =>
      r = mkRegisterResult newId0
      ∧ db' = mkDb (db.(users) ++ [new_user data salt0 newId0 now]) db.(tasks)
      ∧ (∀ u, u ∈ db.(users) → u.(u_email) ≠ data.(reg_email) ∧ u.(u_id) ≠ newId0)
  | (inl e, db') =>
      db' = db
      ∧ ((e = conflictError ∧ ∃ u, u ∈ db.(users) ∧ u.(u_email) = data.(reg_email))
         ∨ (e = PrismaErr "P2002" ∧ ∃ u, u ∈ db.(users) ∧ u.(u_id) = newId0))
  end.
Proof.
  unfold AuthService.register, mbind, M_bind, prisma.user_findUnique, prisma.user_create.
  destruct (find _ (users db)) as [u|] eqn:Hfind.
  - split; [reflexivity |]. left. split; [reflexivity |].
    apply find_some in Hfind as [Hin He]. apply bool_decide_eq_true_1 in He.
    exists u. split; [now apply list_elem_of_In | exact He].
  - destruct (existsb _ (users db)) eqn:Hex.
    + split; [reflexivity |]. right. split; [reflexivity |].
      apply existsb_exists in Hex as (u & Hin & Hu).
      apply orb_true_iff in Hu as [Hu | Hu]; apply bool_decide_eq_true_1 in Hu.
      * exfalso. eapply find_none in Hfind; [| exact Hin]. cbn in Hfind.
        now rewrite bool_decide_eq_true_2 in Hfind.
      * exists u. split; [now apply list_elem_of_In | exact Hu].
    + cbn. split; [reflexivity |]. split; [reflexivity |].
      intros u Hu. apply list_elem_of_In in Hu.
      destruct (bool_decide (u_email u = reg_email data) || bool_decide (u_id u = newId0))
        eqn:Hu'.
      { exfalso. rewrite (proj2 (existsb_exists _ _)) in Hex; [discriminate | eauto]. }
      apply orb_false_iff in Hu' as [He Hi].
      apply bool_decide_eq_false_1 in He, Hi. auto.
Qed.

Lemma find_email_app_new (email : string) (us : list User) (u : User) :
  (∀ x, x ∈ us → x.(u_email) ≠ email) → u.(u_email) = email →
  find (λ x, bool_decide (x.(u_email) = email)) (us ++ [u]) = Some u.
Proof.
  intros Hfresh Hu. induction us as [|w us IH]; cbn.
  - now rewrite bool_decide_eq_true_2.
  - rewrite bool_decide_eq_false_2 by (apply Hfresh; left).
    apply IH. intros x Hx. apply Hfresh. now right.
Qed.

(** X3: on any store that has neither the email nor the new id, [register]
    followed by [login] with the same email and password succeeds: the
    summary holds the new id, the email and the role (USER when none was
    given) and no password, and the token decodes to the new id and the
    role with the configured lifetime. *)
Theorem register_then_login `{Bcrypt} `{Jws} (config : Config) (data : RegisterDTO)
    (salt0 newId0 : string) (t_register t_login : Z) (db : Db) :
  (∀ u, u ∈ db.(users) → u.(u_email) ≠ data.(reg_email) ∧ u.(u_id) ≠ newId0) →
  config.(jwt_secret) ≠ "" →
  ∃ db1 r,
    AuthService.register data salt0 newId0 t_register db
    = (inr (mkRegisterResult newId0), db1)
    ∧ AuthService.login config (mkLoginDTO data.(reg_email) data.(reg_password))
        t_login db1 = (inr r, db1)
    ∧ r.(user) = mkPartialUser (Some newId0) (Some data.(reg_email)) None
                   (Some (default USER data.(reg_role))) None None
    ∧ jws_decode r.(token)
      = Some (mkTokenPayload newId0 (default USER data.(reg_role))
                (clockTimestamp t_login) (clockTimestamp t_login + config.(jwt_expiry))).
Proof.
  intros Hfresh Hsec.
  set (u := new_user data salt0 newId0 t_register).
  exists (mkDb (db.(users) ++ [u]) db.(tasks)). eexists.
  split; [now apply register_fresh |].
  split.
  { apply (login_success config _ t_login _ u); [| apply bcrypt_compare_hash | exact Hsec].
    unfold prisma.user_findUnique. cbn [users login_email].
    rewrite find_email_app_new; [reflexivity | | reflexivity].
    intros x Hx. now apply Hfresh. }
  split; [reflexivity |]. cbn [token]. apply jws_decode_sign.
Qed.

(** ** The gate on a request that carries a token *)

Lemma substring_all (s : string) : String.substring 0 (String.length s) s = s.
Proof. induction s as [|c s IH]; cbn; [reflexivity | now rewrite IH]. Qed.

Lemma bearer_token_of_header (tok : string) :
  bearer_token (String.append "Bearer " tok) = tok.
Proof.
  unfold bearer_token.
  rewrite !ReferenceLaws.append_String, ReferenceLaws.append_empty.
  cbn [String.length Nat.sub String.substring]. rewrite Nat.sub_0_r. apply substring_all.
Qed.

Lemma is_bearer_of_header (tok : string) :
  is_bearer (Some (String.append "Bearer " tok)) = true.
Proof.
  cbn [is_bearer].
  rewrite !ReferenceLaws.append_String, ReferenceLaws.append_empty.
  cbn. now destruct tok.
Qed.


Lemma authenticate_accepts `{Jws} (config : Config) (env : Env) (req : Request) (db : Db)
    (tok : string) (payload : TokenPayload) :
  req.(authorization) = Some (String.append "Bearer " tok) →
  AuthService.verifyToken config tok env.(now_ms) = inr payload →
  authenticate config env req db
  = (([VerifyTokenCalled tok],
      Next (set_user req (mkAuthUser payload.(sub) payload.(role)))), db).
Proof.
  intros Hh Hv. unfold authenticate. rewrite Hh.
  assert (Hne : String.append "Bearer " tok ≠ "").
  { rewrite ReferenceLaws.append_String. discriminate. }
  cbn [header_missing default from_option id].
  rewrite (bool_decide_eq_false_2 _ Hne), is_bearer_of_header, bearer_token_of_header.
  cbn [orb negb]. now rewrite Hv.
Qed.

(** X5: the token of a successful [login], sent as "Bearer <token>" before
    it expires, passes [authenticate], which attaches the id and the role
    of the identity that logged in. *)
Theorem login_token_opens_the_gate `{Bcrypt} `{Jws} (config : Config) (env : Env)
    (d : LoginDTO) (t_login : Z) (db db' : Db) (r : LoginResult) (req : Request) :
  AuthService.login config d t_login db = (inr r, db') →
  req.(authorization) = Some (String.append "Bearer " r.(token)) →
  clockTimestamp env.(now_ms) < clockTimestamp t_login + config.(jwt_expiry) →
  ∃ u, u ∈ db.(users) ∧ u.(u_email) = d.(login_email)
    ∧ authenticate config env req db
      = (([VerifyTokenCalled r.(token)],
          Next (set_user req (mkAuthUser u.(u_id) u.(u_role)))), db).
Proof.
  intros Hlogin Hh Hnow. revert Hlogin.
  unfold AuthService.login, mbind, M_bind, prisma.user_findUnique, jwt.sign.
  destruct (find _ (users db)) as [u|] eqn:Hfind; [| discriminate].
  destruct (bcrypt_compare _ _); [| discriminate]. cbn.
  destruct (decide (jwt_secret config = "")) as [| Hsec]; [discriminate |].
  intros [= <- <-]. cbn [token] in Hh.
  apply find_some in Hfind as [Hin Hmail]. apply bool_decide_eq_true_1 in Hmail.
  exists u. split; [now apply list_elem_of_In |]. split; [exact Hmail |].
  apply (authenticate_accepts config env req db _
           (mkTokenPayload u.(u_id) u.(u_role) (clockTimestamp t_login)
              (clockTimestamp t_login + config.(jwt_expiry))) Hh).
  apply verifyToken_accepts_iff.
  split; [apply jws_sign_nonempty |]. split; [apply jws_decode_sign |].
  split; [exact Hsec |]. split; [apply jws_verify_sign | now apply in_time_issued].
Qed.

(** ** Joi: the keys of an accepted object, and the errors of a refused one *)

Section ValidatedBodies.
Context `{JsText}.

Lemma validate_keys_dom (ks : list (string * KeySchema)) (data : gmap string JsVal)
    (k : string) :
  is_Some ((Joi.validate_keys ks data).2 !! k) → k ∈ ks.*1.
Proof.
  induction ks as [| [k0 sch] ks IH].
  - cbn. rewrite lookup_empty. now intros [? ?].
  - rewrite validate_keys_cons. cbn [snd fst fmap list_fmap].
    destruct (decide (k = k0)) as [-> | Hne]; [intros _; apply elem_of_cons; now left |].
    intros Hk. apply elem_of_cons. right. apply IH.
    destruct ((Joi.validate_key k0 sch data).2); [| exact Hk].
    now rewrite lookup_insert_ne in Hk by congruence.
Qed.

Lemma validate_keys_lookup (ks : list (string * KeySchema)) (data : gmap string JsVal)
    (k : string) (sch : KeySchema) :
  NoDup ks.*1 → (k, sch) ∈ ks →
  (Joi.validate_keys ks data).2 !! k = (Joi.validate_key k sch data).2.
Proof.
  induction ks as [| [k0 sch0] ks IH]; intros Hnd Hin; [now apply elem_of_nil in Hin |].
  cbn in Hnd. apply NoDup_cons in Hnd as [Hk0 Hnd].
  rewrite validate_keys_cons. cbn [snd].
  apply elem_of_cons in Hin as [[= -> ->] | Hin].
  - destruct ((Joi.validate_key k0 sch0 data).2) eqn:Hv; [apply lookup_insert_eq |].
    destruct (_ !! k0) eqn:Hl; [| reflexivity].
    exfalso. apply Hk0. eapply validate_keys_dom. eauto.
  - assert (k ≠ k0).
    { intros ->. apply Hk0. apply list_elem_of_fmap. now exists (k0, sch). }
    destruct ((Joi.validate_key k0 sch0 data).2).
    + rewrite lookup_insert_ne by congruence. now apply IH.
    + now apply IH.
Qed.

Lemma validate_keys_errors (ks : list (string * KeySchema)) (data : gmap string JsVal)
    (k : string) (sch : KeySchema) :
  (k, sch) ∈ ks → (Joi.validate_keys ks data).1 = [] → (Joi.validate_key k sch data).1 = [].
Proof.
  induction ks as [| [k0 sch0] ks IH]; intros Hin; [now apply elem_of_nil in Hin |].
  rewrite validate_keys_cons. cbn [fst]. intros Hnil.
  apply app_eq_nil in Hnil as [H0 Hrest].
  apply elem_of_cons in Hin as [[= -> ->] | Hin]; auto.
Qed.

Lemma validate_keys_fails (ks : list (string * KeySchema)) (data : gmap string JsVal)
    (k : string) (sch : KeySchema) (e : FieldError) :
  (k, sch) ∈ ks → e ∈ (Joi.validate_key k sch data).1 → e ∈ (Joi.validate_keys ks data).1.
Proof.
  induction ks as [| [k0 sch0] ks IH]; intros Hin He; [now apply elem_of_nil in Hin |].
  rewrite validate_keys_cons. cbn [fst]. apply elem_of_app.
  apply elem_of_cons in Hin as [[= -> ->] | Hin]; auto.
Qed.

(** X6: [stripUnknown: true]: what a schema that is not [.unknown(true)]
    lets through holds declared keys only. *)
Theorem validate_strips_undeclared (sch : ObjectSchema) (data value : gmap string JsVal)
    (k : string) :
  sch.(obj_unknown) = false → Joi.validate sch data = inr value →
  is_Some (value !! k) → k ∈ sch.(obj_keys).*1.
Proof.
  intros Hknown Hv. apply validate_inr in Hv as [_ ->]. rewrite Hknown.
  apply validate_keys_dom.
Qed.

Lemma string_rules_valid (sch : StringSchema) (s : string) (allowed : list string) :
  sch.(str_valid) = Some allowed → sch.(str_allow_empty) = false →
  Joi.string_rules sch s = [] → s ∈ allowed.
Proof.
  intros Hvalid Hempty Hrules.
  destruct (string_rules_only _ _ _ Hvalid Hrules) as [Hin | [He _]];
    [exact Hin | congruence].
Qed.

Lemma string_rules_length (sch : StringSchema) (s : string) (lo hi : nat) :
  sch.(str_valid) = None → sch.(str_allow_empty) = false →
  sch.(str_min) = Some lo → sch.(str_max) = Some hi →
  Joi.string_rules sch s = [] → (lo ≤ js_length s ≤ hi)%nat.
Proof.
  intros Hvalid Hempty Hlo Hhi Hrules.
  apply string_rules_base in Hrules; [| assumption ..]. revert Hrules.
  unfold Joi.base_rules. rewrite Hlo, Hhi.
  destruct (bool_decide (s = "")) eqn:Hs.
  - apply bool_decide_eq_true_1 in Hs. subst s.
    destruct (bool_decide (Some lo = Some 0%nat)) eqn:H0; [| discriminate].
    apply bool_decide_eq_true_1 in H0. injection H0 as ->. cbn. lia.
  - cbn -[Nat.leb].
    destruct (lo <=? js_length s)%nat eqn:Hge; [| discriminate].
    destruct (js_length s <=? hi)%nat eqn:Hle; [| discriminate].
    intros _. apply Nat.leb_le in Hge, Hle. lia.
Qed.

Lemma string_rules_min (sch : StringSchema) (s : string) (lo : nat) :
  sch.(str_valid) = None → sch.(str_allow_empty) = false →
  sch.(str_min) = Some lo →
  Joi.string_rules sch s = [] → (lo ≤ js_length s)%nat.
Proof.
  intros Hvalid Hempty Hlo Hrules.
  apply string_rules_base in Hrules; [| assumption ..]. revert Hrules.
  unfold Joi.base_rules. rewrite Hlo.
  destruct (bool_decide (s = "")) eqn:Hs.
  - apply bool_decide_eq_true_1 in Hs. subst s.
    destruct (bool_decide (Some lo = Some 0%nat)) eqn:H0; [| discriminate].
    apply bool_decide_eq_true_1 in H0. injection H0 as ->. cbn. lia.
  - cbn -[Nat.leb].
    destruct (lo <=? js_length s)%nat eqn:Hge; [| discriminate].
    intros _. now apply Nat.leb_le in Hge.
Qed.

(** A non-empty string that the schema of a required key let through, for
    a schema without [.valid(...)], [.allow('')] and [.min(0)]. *)
Lemma string_rules_nonempty (sch : StringSchema) (s : string) :
  sch.(str_valid) = None → sch.(str_allow_empty) = false →
  sch.(str_min) ≠ Some 0%nat →
  Joi.string_rules sch s = [] →
  s ≠ "" ∧ (sch.(str_email) = true → joi_email s = true).
Proof.
  intros Hvalid Hempty Hmin Hrules.
  apply string_rules_base in Hrules; [| assumption ..]. revert Hrules.
  unfold Joi.base_rules.
  destruct (bool_decide (s = "")) eqn:Hs.
  - rewrite bool_decide_eq_false_2 by exact Hmin. discriminate.
  - apply bool_decide_eq_false_1 in Hs. intros Hr.
    apply app_eq_nil in Hr as [_ Hr]. apply app_eq_nil in Hr as [_ Hr].
    split; [exact Hs |]. intros He. rewrite He in Hr. cbn in Hr.
    destruct (joi_email s); [reflexivity | discriminate].
Qed.

Lemma as_TaskStatus_allowed (s : string) :
  s ∈ ["PENDING"; "IN_PROGRESS"; "COMPLETED"] → is_Some (as_TaskStatus (VStr s)).
Proof.
  intros Hin. cbn.
  repeat (apply elem_of_cons in Hin as [-> | Hin]; [eexists; reflexivity |]).
  now apply elem_of_nil in Hin.
Qed.

Lemma optional_string_ok (k : string) (sch : StringSchema) (data : gmap string JsVal) :
  (Joi.validate_key k (mkKeySchema (JoiString sch) false None) data).1 = [] →
  (Joi.validate_key k (mkKeySchema (JoiString sch) false None) data).2 = data !! k
  ∧ match data !! k with
    | None => True
    | Some v =>
        (∃ s, v = VStr s ∧ Joi.string_rules sch s = [])
        ∨ (v = VNull ∧ sch.(str_allow_null) = true)
    end.
Proof.
  intros Hok. apply validate_key_ok in Hok. cbn [key_type key_required key_default] in Hok.
  destruct (data !! k) as [v|]; destruct Hok as [Hv ->]; [| auto].
  apply validate_string_ok in Hv as [-> Hv]. auto.
Qed.

Lemma required_string_ok (k : string) (sch : StringSchema) (data : gmap string JsVal) :
  sch.(str_allow_null) = false →
  (Joi.validate_key k (mkKeySchema (JoiString sch) true None) data).1 = [] →
  ∃ s, data !! k = Some (VStr s)
       ∧ (Joi.validate_key k (mkKeySchema (JoiString sch) true None) data).2
         = Some (VStr s)
       ∧ Joi.string_rules sch s = [].
Proof.
  intros Hnull Hok. apply validate_key_ok in Hok.
  cbn [key_type key_required key_default] in Hok.
  destruct (data !! k) as [v|]; destruct Hok as [Hv Hres]; [| discriminate].
  apply validate_string_ok in Hv as [Hsame [(s & -> & Hrules) | [_ Hn]]]; [| congruence].
  exists s. rewrite Hres, Hsame. auto.
Qed.

Lemma description_ok (data : gmap string JsVal) (sch : StringSchema) :
  (Joi.validate_key "description" (mkKeySchema (JoiString sch) false None) data).1 = [] →
  is_Some (optional (data !! "description") as_description).
Proof.
  intros Hok. apply optional_string_ok in Hok as [_ Hv].
  destruct (data !! "description") as [v|]; [| eexists; reflexivity].
  destruct Hv as [(s & -> & _) | [-> _]]; eexists; reflexivity.
Qed.

Lemma status_ok (data : gmap string JsVal) (sch : StringSchema) :
  sch.(str_valid) = Some ["PENDING"; "IN_PROGRESS"; "COMPLETED"] →
  sch.(str_allow_empty) = false →
  sch.(str_allow_null) = false →
  (Joi.validate_key "status" (mkKeySchema (JoiString sch) false None) data).1 = [] →
  is_Some (optional (data !! "status") as_TaskStatus).
Proof.
  intros Hvalid Hempty Hnull Hok. apply optional_string_ok in Hok as [_ Hv].
  destruct (data !! "status") as [v|]; [| eexists; reflexivity].
  destruct Hv as [(s & -> & Hrules) | [_ Hn]]; [| congruence].
  apply (string_rules_valid _ _ _ Hvalid Hempty), as_TaskStatus_allowed in Hrules
    as [st Hst].
  exists (Some st). cbn [optional]. now rewrite Hst.
Qed.

Lemma createTaskSchema_value (body value : gmap string JsVal) :
  Joi.validate createTaskSchema body = inr value →
  ∃ dto,
    as_CreateTaskDTO value = Some dto
    ∧ body !! "title" = Some (VStr dto.(ct_title))
    ∧ (1 ≤ js_length dto.(ct_title) ≤ 255)%nat
    ∧ optional (body !! "description") as_description = Some dto.(ct_description)
    ∧ optional (body !! "status") as_TaskStatus = Some dto.(ct_status)
    ∧ ∀ k, is_Some (value !! k) → k ∈ ["title"; "description"; "status"].
Proof.
  intros Hv.
  apply validate_inr in Hv as [Herrs ->].
  unfold createTaskSchema in *. cbn [obj_keys obj_unknown] in *.
  assert (Hnd : NoDup ["title"; "description"; "status"]) by compute_done.
  match type of Herrs with (Joi.validate_keys ?l _).1 = [] => set (ks := l) in * end.
  assert (Hkeys : ∀ k, is_Some ((Joi.validate_keys ks body).2 !! k)
                       → k ∈ ["title"; "description"; "status"]).
  { intros k. apply validate_keys_dom. }
  pose proof (validate_keys_lookup ks body "title" _ Hnd ltac:(key_in)) as Lt.
  pose proof (validate_keys_lookup ks body "description" _ Hnd
                ltac:(key_in)) as Ld.
  pose proof (validate_keys_lookup ks body "status" _ Hnd ltac:(key_in)) as Ls.
  pose proof (validate_keys_errors ks body "title" _ ltac:(key_in) Herrs)
    as Et.
  pose proof (validate_keys_errors ks body "description" _
                ltac:(key_in) Herrs) as Ed.
  pose proof (validate_keys_errors ks body "status" _ ltac:(key_in) Herrs)
    as Es.
  apply required_string_ok in Et as (title & Hbt & Hvt & Hrt); [| reflexivity].
  apply (string_rules_length _ _ 1 255) in Hrt; try reflexivity.
  pose proof (description_ok _ _ Ed) as [d Hd].
  pose proof Es as Hs'. apply status_ok in Hs' as [st Hst]; [| reflexivity ..].
  apply optional_string_ok in Ed as [Hvd _], Es as [Hvs _].
  exists (mkCreateTaskDTO title d st). cbn [ct_title ct_description ct_status].
  split.
  { unfold as_CreateTaskDTO. rewrite Lt, Ld, Ls, Hvt, Hvd, Hvs. cbn.
    rewrite Hd, Hst. reflexivity. }
  repeat split; auto; lia.
Qed.

Lemma loginSchema_object (body value : gmap string JsVal) :
  Joi.validate loginSchema body = inr value →
  ∃ dto,
    as_LoginDTO value = Some dto
    ∧ body !! "email" = Some (VStr dto.(login_email))
    ∧ body !! "password" = Some (VStr dto.(login_password))
    ∧ joi_email dto.(login_email) = true
    ∧ dto.(login_email) ≠ "" ∧ dto.(login_password) ≠ ""
    ∧ ∀ k, is_Some (value !! k) → k ∈ ["email"; "password"].
Proof.
  intros Hv. apply validate_inr in Hv as [Herrs ->].
  unfold loginSchema in *. cbn [obj_keys obj_unknown] in *.
  assert (Hnd : NoDup ["email"; "password"]) by compute_done.
  match type of Herrs with (Joi.validate_keys ?l _).1 = [] => set (ks := l) in * end.
  assert (Hkeys : ∀ k, is_Some ((Joi.validate_keys ks body).2 !! k)
                       → k ∈ ["email"; "password"]).
  { intros k. apply validate_keys_dom. }
  pose proof (validate_keys_lookup ks body "email" _ Hnd ltac:(key_in)) as Le.
  pose proof (validate_keys_lookup ks body "password" _ Hnd ltac:(key_in)) as Lp.
  pose proof (validate_keys_errors ks body "email" _ ltac:(key_in) Herrs) as Ee.
  pose proof (validate_keys_errors ks body "password" _ ltac:(key_in) Herrs) as Ep.
  apply required_string_ok in Ee as (e & Hbe & Hve & Hre); [| reflexivity].
  apply required_string_ok in Ep as (p & Hbp & Hvp & Hrp); [| reflexivity].
  exists (mkLoginDTO e p). cbn [login_email login_password].
  split. { unfold as_LoginDTO. rewrite Le, Lp, Hve, Hvp. reflexivity. }
  apply string_rules_nonempty in Hre as [He Hmail]; [| reflexivity | reflexivity | discriminate].
  apply string_rules_nonempty in Hrp as [Hp _]; [| reflexivity | reflexivity | discriminate].
  repeat split; auto.
Qed.

(** X7: what [validate(loginSchema)] passes on.  A request without a body
    passes as it is, for the schema does not require one, and [login]
    then fails on reading the email, before it looks at the store.  A
    request with an object as body passes with a body that is a
    [LoginDTO]: it holds the email and the password of the input
    unchanged, both non-empty, the email well-formed, and no other key. *)
Theorem login_body_validated `{Bcrypt} `{Jws} (config : Config) (env : Env)
    (req req' : Request) (db : Db) :
  validate loginSchema Body req db = (([], Next req'), db) →
  match req.(body) with
  | None =>
      req' = req
      ∧ AuthController.login config env req' db = (([], Fail typeError), db)
  | Some b =>
      ∃ value dto,
        req'.(body) = Some value
        ∧ as_LoginDTO value = Some dto
        ∧ b !! "email" = Some (VStr dto.(login_email))
        ∧ b !! "password" = Some (VStr dto.(login_password))
        ∧ joi_email dto.(login_email) = true
        ∧ dto.(login_email) ≠ "" ∧ dto.(login_password) ≠ ""
        ∧ ∀ k, is_Some (value !! k) → k ∈ ["email"; "password"]
  end.
Proof.
  rewrite validate_body. destruct (body req) as [b|] eqn:Hb.
  - destruct (Joi.validate loginSchema b) as [dets | value] eqn:Hv; [discriminate |].
    intros [= <-]. destruct (loginSchema_object _ _ Hv) as (dto & Hdto).
    exists value, dto. split; [reflexivity | exact Hdto].
  - intros [= <-]. split; [reflexivity |].
    unfold AuthController.login, with_body. now rewrite Hb.
Qed.

Lemma validate_fails_with (sch : ObjectSchema) (data : gmap string JsVal)
    (k : string) (ksch : KeySchema) :
  (k, ksch) ∈ sch.(obj_keys) → (Joi.validate_key k ksch data).1 ≠ [] →
  ∃ dets e, Joi.validate sch data = inl dets ∧ e ∈ dets ∧ e.(field) = k.
Proof.
  intros Hin Hne.
  destruct ((Joi.validate_key k ksch data).1) as [| e es] eqn:Hk; [congruence |].
  assert (He : e ∈ (Joi.validate_key k ksch data).1) by (rewrite Hk; left).
  pose proof (validate_keys_fails _ data _ _ _ Hin He) as Hall.
  unfold Joi.validate.
  destruct (Joi.validate_keys (obj_keys sch) data) as [errs known]. cbn [fst] in Hall.
  destruct (errs ++ _) as [| e0 es0] eqn:Herrs.
  - apply app_eq_nil in Herrs as [-> _]. now apply elem_of_nil in Hall.
  - exists (e0 :: es0), e. split; [reflexivity |]. split.
    + rewrite <- Herrs. apply elem_of_app. now left.
    + clear Hk. unfold Joi.validate_key in He. destruct (data !! k).
      * destruct (Joi.validate_value _ _) as [errs0 v']. cbn in He.
        apply list_elem_of_In, in_map_iff in He as (x & <- & _). reflexivity.
      * destruct (key_required ksch); cbn in He.
        -- apply list_elem_of_singleton in He. now subst e.
        -- now apply elem_of_nil in He.
Qed.

(** X8: a registration body that is an object is refused with
    VALIDATION_ERROR (400), with an entry for the field in the details,
    when it has no email or no password, when the password is a string of
    fewer than 8 UTF-16 code units, or when the role is a string other
    than USER and ADMIN; no layer after [validate] runs and the store is
    unchanged. *)
Theorem registerSchema_rejects (req : Request) (db : Db) (b : gmap string JsVal)
    (k : string) :
  req.(body) = Some b →
  (k = "email" ∧ b !! "email" = None)
  ∨ (k = "password" ∧ b !! "password" = None)
  ∨ (k = "password" ∧ ∃ p, b !! "password" = Some (VStr p) ∧ (js_length p < 8)%nat)
  ∨ (k = "role" ∧ ∃ r, b !! "role" = Some (VStr r) ∧ r ≠ "USER" ∧ r ≠ "ADMIN") →
  ∃ dets e,
    e ∈ dets ∧ e.(field) = k
    ∧ ∀ downstream,
        dispatch (("validate", validate registerSchema Body) :: downstream) req db
        = (([Entered "validate"], validationResponse dets), db).
Proof.
  intros Hbody Hbad.
  assert (Hv : ∃ dets e, Joi.validate registerSchema b = inl dets
                         ∧ e ∈ dets ∧ e.(field) = k).
  { destruct Hbad as [[-> Hb] | [[-> Hb] | [[-> (p & Hb & Hlen)] | [-> (r & Hb & Hu & Ha)]]]].
    - eapply validate_fails_with; [unfold registerSchema; cbn [obj_keys]; key_in |].
      unfold Joi.validate_key. rewrite Hb. discriminate.
    - eapply validate_fails_with; [unfold registerSchema; cbn [obj_keys]; key_in |].
      unfold Joi.validate_key. rewrite Hb. discriminate.
    - eapply validate_fails_with; [unfold registerSchema; cbn [obj_keys]; key_in |].
      unfold Joi.validate_key. rewrite Hb.
      cbn [key_type Joi.validate_value fst]. intros Hnil.
      apply map_eq_nil in Hnil.
      apply (string_rules_min _ _ 8) in Hnil; [lia | reflexivity ..].
    - eapply validate_fails_with; [unfold registerSchema; cbn [obj_keys]; key_in |].
      unfold Joi.validate_key. rewrite Hb.
      cbn [key_type Joi.validate_value fst]. intros Hnil.
      apply map_eq_nil in Hnil.
      apply (string_rules_valid _ _ ["USER"; "ADMIN"]) in Hnil; [| reflexivity ..].
      apply elem_of_cons in Hnil as [Heq | Hin]; [congruence |].
      apply elem_of_cons in Hin as [Heq | Hin]; [congruence |].
      now apply elem_of_nil in Hin. }
  destruct Hv as (dets & e & Hv & He & Hf).
  exists dets, e. split; [exact He |]. split; [exact Hf |].
  intros downstream. cbn [dispatch]. rewrite validate_body, Hbody. now rewrite Hv.
Qed.

End ValidatedBodies.

(** ** Pages of tasks *)

#[global] Instance newer_first_total : Total newer_first.
Proof. intros a b. unfold newer_first. lia. Qed.

#[global] Instance newer_first_trans : Transitive newer_first.
Proof. intros a b c. unfold newer_first. lia. Qed.

Lemma window_forward (skip take : Z) (rows : list Task) :
  0 ≤ take →
  prisma_task.window skip take rows
  = firstn (Z.to_nat take) (skipn (Z.to_nat skip) rows).
Proof. intros Ht. unfold prisma_task.window. now destruct (decide (0 ≤ take)). Qed.

Lemma length_window (skip take : Z) (rows : list Task) :
  0 ≤ skip → 0 ≤ take →
  Z.of_nat (length (prisma_task.window skip take rows))
  = Z.min take (Z.max 0 (Z.of_nat (length rows) - skip)).
Proof.
  intros Hs Ht. rewrite window_forward by exact Ht.
  rewrite length_take, length_drop. lia.
Qed.

Lemma window_sorted (skip take : Z) (rows : list Task) :
  0 ≤ take → StronglySorted newer_first rows →
  StronglySorted newer_first (prisma_task.window skip take rows).
Proof.
  intros Ht Hs. rewrite window_forward by exact Ht.
  rewrite <- (take_drop (Z.to_nat skip) rows) in Hs.
  apply StronglySorted_app_1_r in Hs.
  rewrite <- (take_drop (Z.to_nat take) (skipn (Z.to_nat skip) rows)) in Hs.
  now apply StronglySorted_app_1_l in Hs.
Qed.

Lemma getTasks_run (owner : string) (params : PaginationParams) (db : Db) :
  1 ≤ params.(page) → 0 ≤ params.(limit) →
  TaskService.getTasks owner params db
  = (inr (mkTaskPage
            (prisma_task.window ((params.(page) - 1) * params.(limit)) params.(limit)
               (merge_sort newer_first (tasks_of owner db)))
            (mkPagination params.(page) params.(limit)
               (Z.of_nat (length (tasks_of owner db)))
               (totalPages (Z.of_nat (length (tasks_of owner db))) params.(limit)))),
     db).
Proof.
  intros Hp Hl.
  unfold TaskService.getTasks, mbind, M_bind, prisma_task.findMany, prisma_task.count.
  destruct (decide ((page params - 1) * limit params < 0)); [nia | reflexivity].
Qed.

Lemma totalPages_ceil (total limit0 : Z) :
  1 ≤ limit0 →
  ∃ n, totalPages total limit0 = Finite (inject_Z n)
       ∧ (n - 1) * limit0 < total ≤ n * limit0.
Proof.
  intros Hl. unfold totalPages.
  destruct (decide (limit0 = 0)); [lia |].
  exists (- (- total / limit0)). split; [reflexivity |].
  pose proof (Z.div_mod (- total) limit0 ltac:(lia)) as Hdm.
  pose proof (Z.mod_pos_bound (- total) limit0 ltac:(lia)) as Hb.
  nia.
Qed.

(** X9: a page of [getTasks] for a page number and a limit of at least 1.
    The rows come newest first; the total counts the tasks of the owner;
    [totalPages] is the ceiling of total / limit; the page holds
    min(limit, total - (page - 1) * limit) rows, or none beyond the end;
    so it is non-empty exactly on the pages 1 to [totalPages]. *)
Theorem getTasks_page (owner : string) (params : PaginationParams) (db : Db) :
  1 ≤ params.(page) → 1 ≤ params.(limit) →
  ∃ r n,
    TaskService.getTasks owner params db = (inr r, db)
    ∧ StronglySorted newer_first r.(data)
    ∧ r.(pagination).(pg_total) = Z.of_nat (length (tasks_of owner db))
    ∧ r.(pagination).(pg_totalPages) = Finite (inject_Z n)
    ∧ (n - 1) * params.(limit) < r.(pagination).(pg_total) ≤ n * params.(limit)
    ∧ Z.of_nat (length r.(data))
      = Z.min params.(limit)
          (Z.max 0 (r.(pagination).(pg_total) - (params.(page) - 1) * params.(limit)))
    ∧ (r.(data) ≠ [] ↔ params.(page) ≤ n).
Proof.
  intros Hp Hl.
  destruct (totalPages_ceil (Z.of_nat (length (tasks_of owner db))) params.(limit) Hl)
    as (n & Hn & Hceil).
  eexists. exists n. split; [apply getTasks_run; lia |].
  cbn [data pagination pg_total pg_totalPages].
  assert (Hlen : Z.of_nat (length (prisma_task.window
                    ((page params - 1) * limit params) (limit params)
                    (merge_sort newer_first (tasks_of owner db))))
                 = Z.min (limit params)
                     (Z.max 0 (Z.of_nat (length (tasks_of owner db))
                               - (page params - 1) * limit params))).
  { rewrite length_window by nia.
    now rewrite (Permutation_length (merge_sort_Permutation newer_first _)). }
  split.
  { apply window_sorted; [lia |]. apply StronglySorted_merge_sort; apply _. }
  split; [reflexivity |]. split; [exact Hn |]. split; [exact Hceil |].
  split; [exact Hlen |].
  rewrite <- length_zero_iff_nil. split; intros Hx; nia.
Qed.

(** ** Creating, changing and deleting a task *)

Lemma find_task_app_new (P : Task → bool) (ts : list Task) (t : Task) :
  (∀ x, x ∈ ts → P x = false) → P t = true → find P (ts ++ [t]) = Some t.
Proof.
  intros Hno Ht. induction ts as [|w ts IH]; cbn.
  - now rewrite Ht.
  - rewrite (Hno w) by left. apply IH. intros x Hx. apply Hno. now right.
Qed.

Lemma createTask_run (owner : string) (d : CreateTaskDTO) (newId0 : string)
    (now : Z) (db : Db) :
  (∀ t, t ∈ db.(tasks) → t.(t_id) ≠ newId0) →
  (∃ u, u ∈ db.(users) ∧ u.(u_id) = owner) →
  TaskService.createTask owner d newId0 now db
  = (inr (mkTask newId0 d.(ct_title) (default None d.(ct_description))
            (default PENDING d.(ct_status)) owner now now),
     mkDb db.(users)
       (db.(tasks) ++ [mkTask newId0 d.(ct_title) (default None d.(ct_description))
                         (default PENDING d.(ct_status)) owner now now])).
Proof.
  intros Hfresh (u & Hu & Hid).
  assert (Hno : existsb (λ x, bool_decide (t_id x = newId0)) (tasks db) = false).
  { destruct (existsb _ (tasks db)) eqn:Hex; [| reflexivity].
    apply existsb_exists in Hex as (x & Hx & Hxid).
    apply bool_decide_eq_true_1 in Hxid. apply list_elem_of_In in Hx.
    now apply Hfresh in Hx. }
  assert (Hown : existsb (λ x, bool_decide (u_id x = owner)) (users db) = true).
  { apply existsb_exists. exists u. split; [now apply list_elem_of_In |].
    now apply bool_decide_eq_true_2. }
  unfold TaskService.createTask, prisma_task.create. now rewrite Hno, Hown.
Qed.

(** X10: [createTask] with an id new to the table, for an owner who is a
    user, appends one task with the given title, the description and the
    status of the DTO (none and PENDING by default), owned by the caller
    and stamped with the clock; the owner then reads it back by its id,
    and any other user gets NOT_FOUND. *)
Theorem createTask_then_get (owner : string) (d : CreateTaskDTO) (newId0 : string)
    (now : Z) (db : Db) :
  (∀ t, t ∈ db.(tasks) → t.(t_id) ≠ newId0) →
  (∃ u, u ∈ db.(users) ∧ u.(u_id) = owner) →
  let t := mkTask newId0 d.(ct_title) (default None d.(ct_description))
             (default PENDING d.(ct_status)) owner now now in
  let db1 := mkDb db.(users) (db.(tasks) ++ [t]) in
  TaskService.createTask owner d newId0 now db = (inr t, db1)
  ∧ TaskService.getTaskById newId0 owner db1 = (inr t, db1)
  ∧ (∀ other, other ≠ owner →
       TaskService.getTaskById newId0 other db1 = (inl notFoundError, db1)).
Proof.
  intros Hfresh Hown t db1.
  split; [now apply createTask_run | split].
  - unfold TaskService.getTaskById, mbind, M_bind, prisma_task.findFirst.
    cbn [tasks db1]. rewrite (find_task_app_new _ _ t); [reflexivity | |].
    + intros x Hx. apply andb_false_iff. left.
      apply bool_decide_eq_false_2. now apply Hfresh.
    + cbn. now rewrite !bool_decide_eq_true_2.
  - intros other Hother.
    unfold TaskService.getTaskById, mbind, M_bind, prisma_task.findFirst.
    cbn [tasks db1].
    destruct (find _ (tasks db ++ [t])) as [x|] eqn:Hfind; [exfalso | reflexivity].
    apply find_some in Hfind as [Hx Hm]. apply andb_true_iff in Hm as [Hi Ho].
    apply bool_decide_eq_true_1 in Hi, Ho.
    apply in_app_or in Hx as [Hx | [<- | []]].
    + apply list_elem_of_In in Hx. now apply Hfresh in Hx.
    + cbn in Ho. congruence.
Qed.

Lemma find_by_id_unique (ts : list Task) (t : Task) :
  NoDup (t_id <$> ts) → t ∈ ts →
  find (λ x, bool_decide (x.(t_id) = t.(t_id))) ts = Some t.
Proof.
  intros Hnd Hin.
  destruct (find _ ts) as [x|] eqn:Hfind.
  - apply find_some in Hfind as [Hx Hid]. apply bool_decide_eq_true_1 in Hid.
    apply list_elem_of_In in Hx. f_equal. eapply same_id_same_task; eauto.
  - apply list_elem_of_In in Hin. eapply find_none in Hfind; [| exact Hin].
    cbn in Hfind. now rewrite bool_decide_eq_true_2 in Hfind.
Qed.

Lemma findFirst_own (db : Db) (t : Task) :
  ids_unique db → t ∈ db.(tasks) →
  prisma_task.findFirst t.(t_id) t.(t_userId) db = (inr (Some t), db).
Proof.
  intros Hnd Hin. unfold prisma_task.findFirst. do 2 f_equal.
  destruct (find _ (tasks db)) as [x|] eqn:Hfind.
  - apply find_some in Hfind as [Hx Hm]. apply andb_true_iff in Hm as [Hid _].
    apply bool_decide_eq_true_1 in Hid. apply list_elem_of_In in Hx.
    f_equal. eapply same_id_same_task; eauto.
  - apply list_elem_of_In in Hin. eapply find_none in Hfind; [| exact Hin].
    cbn in Hfind. now rewrite !bool_decide_eq_true_2 in Hfind.
Qed.

Lemma replace_task_elem (t' x : Task) (ts : list Task) :
  x ∈ replace_task t' ts ↔
  (x = t' ∧ ∃ y, y ∈ ts ∧ y.(t_id) = t'.(t_id))
  ∨ (x ∈ ts ∧ x.(t_id) ≠ t'.(t_id)).
Proof.
  unfold replace_task. rewrite list_elem_of_In, in_map_iff. split.
  - intros (y & Hy & Hin). apply list_elem_of_In in Hin.
    destruct (bool_decide (t_id y = t_id t')) eqn:Hb.
    + apply bool_decide_eq_true_1 in Hb. left. split; [congruence | eauto].
    + apply bool_decide_eq_false_1 in Hb. right. now subst.
  - intros [(-> & y & Hy & Hid) | (Hx & Hne)].
    + exists y. rewrite bool_decide_eq_true_2 by exact Hid.
      split; [reflexivity | now apply list_elem_of_In].
    + exists x. rewrite bool_decide_eq_false_2 by exact Hne.
      split; [reflexivity | now apply list_elem_of_In].
Qed.

(** X11: [updateTask] by the owner of a task: the task keeps its id,
    owner and creation stamp, each of title, description and status is the
    one of the DTO where it gives one and the old one otherwise, no other
    row changes, and the owner reads the new row back. *)
Theorem updateTask_own (db : Db) (t : Task) (d : UpdateTaskDTO) (now : Z) :
  ids_unique db → t ∈ db.(tasks) →
  let t' := prisma_task.apply_update now d t in
  let db1 := mkDb db.(users) (replace_task t' db.(tasks)) in
  TaskService.updateTask t.(t_id) t.(t_userId) d now db = (inr t', db1)
  ∧ t'.(t_id) = t.(t_id) ∧ t'.(t_userId) = t.(t_userId)
  ∧ t'.(t_createdAt) = t.(t_createdAt)
  ∧ t'.(t_title) = default t.(t_title) d.(ut_title)
  ∧ t'.(t_description) = default t.(t_description) d.(ut_description)
  ∧ t'.(t_status) = default t.(t_status) d.(ut_status)
  ∧ (∀ x, x ∈ db1.(tasks) ↔ x = t' ∨ (x ∈ db.(tasks) ∧ x ≠ t))
  ∧ TaskService.getTaskById t.(t_id) t.(t_userId) db1 = (inr t', db1).
Proof.
  intros Hnd Hin t' db1.
  assert (Hrun : TaskService.updateTask t.(t_id) t.(t_userId) d now db = (inr t', db1)).
  { unfold TaskService.updateTask, TaskService.getTaskById.
    rewrite (bind_inr _ _ db db t).
    2:{ now rewrite (bind_inr _ _ db db (Some t)) by now apply findFirst_own. }
    unfold prisma_task.update. now rewrite find_by_id_unique. }
  assert (Hmem : ∀ x, x ∈ db1.(tasks) ↔ x = t' ∨ (x ∈ db.(tasks) ∧ x ≠ t)).
  { intros x. cbn [db1 tasks]. rewrite replace_task_elem.
    cbn [t' t_id prisma_task.apply_update].
    split.
    - intros [(-> & _) | (Hx & Hne)]; [now left | right]. split; [exact Hx | congruence].
    - intros [-> | (Hx & Hne)]; [left; eauto | right].
      split; [exact Hx |]. intros Hid. apply Hne. eapply same_id_same_task; eauto. }
  split; [exact Hrun |]. do 6 (split; [reflexivity |]). split; [exact Hmem |].
  assert (Hnd1 : ids_unique db1).
  { pose proof (updateTask_keeps_ids_unique t.(t_id) t.(t_userId) d now db Hnd) as H1.
    now rewrite Hrun in H1. }
  unfold TaskService.getTaskById.
  rewrite (bind_inr _ _ db1 db1 (Some t')); [reflexivity |].
  apply (findFirst_own db1 t' Hnd1). apply Hmem. now left.
Qed.

(** X12: [deleteTask] by the owner of a task removes that row and no
    other; afterwards reading or deleting the id fails with NOT_FOUND for
    everybody. *)
Theorem deleteTask_own (db : Db) (t : Task) :
  ids_unique db → t ∈ db.(tasks) →
  let db1 := mkDb db.(users) (filter (λ x, x.(t_id) ≠ t.(t_id)) db.(tasks)) in
  TaskService.deleteTask t.(t_id) t.(t_userId) db = (inr tt, db1)
  ∧ (∀ x, x ∈ db1.(tasks) ↔ x ∈ db.(tasks) ∧ x ≠ t)
  ∧ (∀ owner, TaskService.getTaskById t.(t_id) owner db1 = (inl notFoundError, db1))
  ∧ (∀ owner, TaskService.deleteTask t.(t_id) owner db1 = (inl notFoundError, db1)).
Proof.
  intros Hnd Hin db1.
  assert (Hmem : ∀ x, x ∈ db1.(tasks) ↔ x ∈ db.(tasks) ∧ x ≠ t).
  { intros x. cbn [db1 tasks]. rewrite list_elem_of_filter. split.
    - intros [Hne Hx]. split; [exact Hx | congruence].
    - intros [Hx Hne]. split; [| exact Hx]. intros Hid. apply Hne.
      eapply same_id_same_task; eauto. }
  assert (Hgone : ∀ owner,
             TaskService.getTaskById t.(t_id) owner db1 = (inl notFoundError, db1)).
  { intros owner. unfold TaskService.getTaskById, mbind, M_bind, prisma_task.findFirst.
    destruct (find _ (tasks db1)) as [x|] eqn:Hfind; [exfalso | reflexivity].
    apply find_some in Hfind as [Hx Hm]. apply andb_true_iff in Hm as [Hid _].
    apply bool_decide_eq_true_1 in Hid. apply list_elem_of_In in Hx.
    cbn [db1 tasks] in Hx. apply list_elem_of_filter in Hx as [Hne _]. contradiction. }
  split; [| split; [exact Hmem | split; [exact Hgone |]]].
  - unfold TaskService.deleteTask, TaskService.getTaskById.
    rewrite (bind_inr _ _ db db t).
    2:{ now rewrite (bind_inr _ _ db db (Some t)) by now apply findFirst_own. }
    unfold mbind, M_bind, prisma_task.delete. now rewrite find_by_id_unique.
  - intros owner. unfold TaskService.deleteTask. now apply bind_inl.
Qed.

(** X13: [updateTask] and [deleteTask] fail in one way only: with
    NOT_FOUND, before anything is written, when no task has both the id
    and the caller as owner.  The write that follows the ownership check
    never fails. *)
Theorem task_writes_fail_only_not_found (taskId owner : string) (d : UpdateTaskDTO)
    (now : Z) (db db' : Db) (e : Exn) :
  TaskService.updateTask taskId owner d now db = (inl e, db')
  ∨ TaskService.deleteTask taskId owner db = (inl e, db') →
  e = notFoundError ∧ db' = db
  ∧ ∀ t, t ∈ db.(tasks) → t.(t_id) = taskId → t.(t_userId) ≠ owner.
Proof.
  assert (Hnone : find (λ t, bool_decide (t_id t = taskId)
                             && bool_decide (t_userId t = owner)) (tasks db) = None →
                  ∀ t, t ∈ db.(tasks) → t.(t_id) = taskId → t.(t_userId) ≠ owner).
  { intros Hfind t Ht Hid Hown. apply list_elem_of_In in Ht.
    eapply find_none in Hfind; [| exact Ht]. cbn in Hfind.
    now rewrite !bool_decide_eq_true_2 in Hfind. }
  assert (Hsome : ∀ t, find (λ t, bool_decide (t_id t = taskId)
                                  && bool_decide (t_userId t = owner)) (tasks db) = Some t →
                       is_Some (find (λ x, bool_decide (t_id x = t_id t)) (tasks db))).
  { intros t Hfind. apply find_some in Hfind as [Ht _].
    destruct (find (λ x, bool_decide (t_id x = t_id t)) (tasks db)) eqn:Hf;
      [eexists; reflexivity |].
    eapply find_none in Hf; [| exact Ht]. cbn in Hf.
    now rewrite bool_decide_eq_true_2 in Hf. }
  unfold TaskService.updateTask, TaskService.deleteTask, TaskService.getTaskById,
    mbind, M_bind, prisma_task.findFirst, prisma_task.update, prisma_task.delete.
  destruct (find _ (tasks db)) as [t|] eqn:Hfind; cbn.
  - destruct (Hsome t eq_refl) as [x ->]. cbn. intros [? | ?]; discriminate.
  - intros [[= <- <-] | [= <- <-]]; auto.
Qed.

(** ** The admin listing *)

(** X14: a page of [getAllTasks].  The store is unchanged; the total
    counts every task; each row is a task of the table, and the [user] it
    includes is the row of the task's owner reduced to id, email and role:
    the password hash and the time stamps are not selected.  When every
    task has its owner, every row has its [user]. *)
Theorem getAllTasks_rows (params : PaginationParams) (db db' : Db) (r : AdminTaskPage) :
  TaskService.getAllTasks params db = (inr r, db') →
  db' = db
  ∧ r.(admin_pagination).(pg_total) = Z.of_nat (length db.(tasks))
  ∧ ∀ t ou, (t, ou) ∈ r.(admin_data) →
      t ∈ db.(tasks)
      ∧ (owners_exist db → is_Some ou)
      ∧ ∀ pu, ou = Some pu →
          pu.(pu_password) = None ∧ pu.(pu_createdAt) = None ∧ pu.(pu_updatedAt) = None
          ∧ ∃ u, u ∈ db.(users) ∧ u.(u_id) = t.(t_userId)
                 ∧ pu.(pu_id) = Some u.(u_id) ∧ pu.(pu_email) = Some u.(u_email)
                 ∧ pu.(pu_role) = Some u.(u_role).
Proof.
  unfold TaskService.getAllTasks, mbind, M_bind, prisma_task.findMany,
    prisma_task.include_user, prisma_task.count.
  destruct (decide _); [discriminate |]. cbn.
  intros [= <- <-]. split; [reflexivity |]. cbn.
  split.
  { f_equal. f_equal. induction (tasks db) as [| x l IH]; [reflexivity |].
    rewrite filter_cons_True by reflexivity. now f_equal. }
  intros t ou Hin. apply list_elem_of_In, in_map_iff in Hin as (x & [= <- <-] & Hx).
  apply list_elem_of_In, window_subset in Hx.
  rewrite merge_sort_Permutation in Hx. apply list_elem_of_filter in Hx as [_ Hx].
  split; [exact Hx |]. split.
  - intros Hfk. destruct (Hfk x Hx) as (u & Hu & Hid).
    destruct (find _ (users db)) as [v|] eqn:Hfind; [eexists; reflexivity |].
    apply list_elem_of_In in Hu. eapply find_none in Hfind; [| exact Hu].
    cbn in Hfind. now rewrite bool_decide_eq_true_2 in Hfind.
  - intros pu. destruct (find _ (users db)) as [v|] eqn:Hfind; [| discriminate].
    intros [= <-]. cbn. repeat split.
    apply find_some in Hfind as [Hv Hid]. apply bool_decide_eq_true_1 in Hid.
    exists v. repeat split; [now apply list_elem_of_In | exact Hid].
Qed.

(** ** The keys of the store under every write *)

Lemma createTask_keeps_owners (owner : string) (c : CreateTaskDTO) (newId0 : string)
    (now : Z) (db : Db) :
  owners_exist db → owners_exist (TaskService.createTask owner c newId0 now db).2.
Proof.
  unfold owners_exist, TaskService.createTask, prisma_task.create. intros Hfk.
  destruct (existsb _ (tasks db)); [exact Hfk |].
  destruct (existsb _ (users db)) eqn:Hown; cbn; [| exact Hfk].
  intros t Ht. apply elem_of_app in Ht as [Ht | Ht]; [now apply Hfk |].
  apply list_elem_of_singleton in Ht. subst t. cbn.
  apply existsb_exists in Hown as (u & Hu & Hid). apply bool_decide_eq_true_1 in Hid.
  exists u. split; [now apply list_elem_of_In | exact Hid].
Qed.

Lemma register_store `{Bcrypt} (data : RegisterDTO) (salt0 newId0 : string) (now : Z)
    (db : Db) :
  (AuthService.register data salt0 newId0 now db).2 = db
  ∨ (AuthService.register data salt0 newId0 now db).2
    = mkDb (db.(users) ++ [new_user data salt0 newId0 now]) db.(tasks).
Proof.
  unfold AuthService.register, mbind, M_bind, prisma.user_findUnique, prisma.user_create.
  destruct (find _ (users db)); [now left |]. cbn.
  destruct (existsb _ (users db)); [now left | now right].
Qed.

(** X15: the keys of the store survive every write of the two services:
    after [register], [createTask], [updateTask] or [deleteTask], whether
    it succeeds or fails, task ids and emails are still unique and every
    task still has its owner. *)
Theorem store_keys_are_kept `{Bcrypt} (db : Db) :
  ids_unique db → emails_unique db → owners_exist db →
  (∀ data salt0 newId0 now,
     let db1 := (AuthService.register data salt0 newId0 now db).2 in
     ids_unique db1 ∧ emails_unique db1 ∧ owners_exist db1)
  ∧ (∀ owner c newId0 now,
       let db1 := (TaskService.createTask owner c newId0 now db).2 in
       ids_unique db1 ∧ emails_unique db1 ∧ owners_exist db1)
  ∧ (∀ taskId owner d now,
       let db1 := (TaskService.updateTask taskId owner d now db).2 in
       ids_unique db1 ∧ emails_unique db1 ∧ owners_exist db1)
  ∧ (∀ taskId owner,
       let db1 := (TaskService.deleteTask taskId owner db).2 in
       ids_unique db1 ∧ emails_unique db1 ∧ owners_exist db1).
Proof.
  intros Hids Hemails Hfk. split; [| split; [| split]].
  - intros data salt0 newId0 now db1.
    pose proof (register_keeps_emails_unique data salt0 newId0 now db Hemails) as He.
    subst db1. destruct (register_store data salt0 newId0 now db) as [Heq | Heq].
    + rewrite Heq. auto.
    + rewrite Heq in He |- *. split; [exact Hids |]. split; [exact He |].
      intros t Ht. destruct (Hfk t Ht) as (u & Hu & Hid).
      exists u. split; [| exact Hid]. cbn. apply elem_of_app. now left.
  - intros owner c newId0 now db1. subst db1.
    split; [now apply createTask_keeps_ids_unique |].
    split; [| now apply createTask_keeps_owners].
    unfold emails_unique, TaskService.createTask, prisma_task.create.
    destruct (existsb _ (tasks db)); [exact Hemails |].
    now destruct (negb _).
  - intros taskId owner d now db1. subst db1.
    split; [now apply updateTask_keeps_ids_unique |].
    unfold emails_unique, owners_exist, TaskService.updateTask,
      TaskService.getTaskById, mbind, M_bind, prisma_task.findFirst, prisma_task.update.
    destruct (find _ (tasks db)) as [t|]; [| auto]. cbn.
    destruct (find _ (tasks db)) as [t0|] eqn:Hfind; [| auto]. cbn.
    split; [exact Hemails |]. intros x Hx.
    apply list_elem_of_In, in_map_iff in Hx as (y & Hy & Hin).
    apply list_elem_of_In in Hin.
    destruct (bool_decide (t_id y = t_id t)); [| subst; now apply Hfk].
    subst x. cbn. apply Hfk. apply find_some in Hfind as [Hin0 _].
    now apply list_elem_of_In.
  - intros taskId owner db1. subst db1.
    split; [now apply deleteTask_keeps_ids_unique |].
    unfold emails_unique, owners_exist, TaskService.deleteTask,
      TaskService.getTaskById, mbind, M_bind, prisma_task.findFirst, prisma_task.delete.
    destruct (find _ (tasks db)) as [t|]; [| auto]. cbn.
    destruct (find _ (tasks db)) as [t0|]; [| auto]. cbn.
    split; [exact Hemails |]. intros x Hx.
    apply list_elem_of_filter in Hx as [_ Hx]. now apply Hfk.
Qed.

(** ** Two routes, end to end *)

Section TaskRoutes.
Context `{JsText}.

(** X16: POST /tasks behind [authenticate], for a user who is in the
    store.  A request without a body passes the schema, which does not
    require one, and the controller fails on it: the answer is 500 and
    nothing is written.  A request with an object as body is refused by
    [createTaskSchema] (400, nothing written), or the answer is 201 with
    the one task that was appended, whose owner is the authenticated user
    whatever the body says, whose title is the one of the body, of 1 to 255
    UTF-16 code units, and whose status is PENDING when the body gives
    none. *)
Theorem create_route_owner (env : Env) (req : Request) (db : Db) (u : AuthUser) :
  req.(req_user) = Some u →
  (∃ x, x ∈ db.(users) ∧ x.(u_id) = u.(au_id)) →
  (∀ t, t ∈ db.(tasks) → t.(t_id) ≠ env.(newId)) →
  match req.(body) with
  | None =>
      dispatch (route_layers env POST_tasks) req db
      = (([Entered "validate"; Entered "createTask"], errorHandler typeError), db)
  | Some b =>
      (∃ dets,
         dispatch (route_layers env POST_tasks) req db
         = (([Entered "validate"], validationResponse dets), db))
      ∨ (∃ t,
           dispatch (route_layers env POST_tasks) req db
           = (([Entered "validate"; Entered "createTask"], mkResponse 201 (JsonTask t)),
              mkDb db.(users) (db.(tasks) ++ [t]))
           ∧ t.(t_userId) = u.(au_id) ∧ t.(t_id) = env.(newId)
           ∧ b !! "title" = Some (VStr t.(t_title))
           ∧ (1 ≤ js_length t.(t_title) ≤ 255)%nat
           ∧ t.(t_createdAt) = env.(now_ms)
           ∧ (b !! "status" = None → t.(t_status) = PENDING))
  end.
Proof.
  intros Hu Hown Hfresh. cbn [route_layers dispatch]. rewrite validate_body.
  destruct (body req) as [b|] eqn:Hb.
  - destruct (Joi.validate createTaskSchema b) as [dets | value] eqn:Hv.
    { left. exists dets. reflexivity. }
    right.
    destruct (createTaskSchema_value _ _ Hv) as (dto & Hcast & Ht & Hlen & _ & Hst & _).
    unfold TaskController.createTask, TaskController.with_user, with_body.
    cbn [put_property req_user body]. rewrite Hu, Hcast. unfold respond.
    rewrite (createTask_run _ dto _ _ db Hfresh Hown).
    eexists. split; [reflexivity |]. cbn.
    split; [reflexivity |]. split; [reflexivity |]. split; [exact Ht |].
    split; [lia |]. split; [reflexivity |].
    intros Hnone. rewrite Hnone in Hst. cbn in Hst. injection Hst as <-. reflexivity.
  - unfold TaskController.createTask, TaskController.with_user, with_body.
    now rewrite Hu, Hb.
Qed.

(** X17: GET /tasks/all behind [authenticate].  A USER is refused with
    FORBIDDEN before the query is looked at.  For an ADMIN the query is
    refused by [paginationSchema] (400), or it passes and the controller
    gets it as it came: with its limit a string, as the query parser
    delivers it, the Prisma client refuses the call and the answer is 500.
    The store is unchanged in every case. *)
Theorem admin_route_by_role (env : Env) (req : Request) (db : Db) (u : AuthUser) :
  req.(req_user) = Some u →
  match u.(au_role) with
  | USER =>
      dispatch (route_layers env GET_tasks_all) req db
      = (([Entered "requireRole"], forbiddenResponse), db)
  | ADMIN =>
      ∀ l, req.(query) !! "limit" = Some (VStr l) →
      (∃ dets,
         dispatch (route_layers env GET_tasks_all) req db
         = (([Entered "requireRole"; Entered "validate"], validationResponse dets), db))
      ∨ dispatch (route_layers env GET_tasks_all) req db
        = (([Entered "requireRole"; Entered "validate"; Entered "getAllTasks"],
            errorHandler illTyped), db)
  end.
Proof.
  intros Hu. destruct (au_role u) eqn:Hrole.
  - cbn [route_layers dispatch]. unfold requireRole. rewrite Hu, Hrole.
    rewrite bool_decide_eq_false_2; [reflexivity |].
    intros Hin. apply list_elem_of_singleton in Hin. discriminate.
  - intros l Hl.
    assert (Hgate : requireRole [ADMIN] req db = (([], Next req), db)).
    { unfold requireRole. rewrite Hu, Hrole.
      now rewrite bool_decide_eq_true_2 by (apply list_elem_of_singleton; reflexivity). }
    cbn [route_layers dispatch]. rewrite Hgate, validate_query.
    destruct (Joi.validate paginationSchema _) as [dets | value].
    + left. exists dets. reflexivity.
    + right. unfold TaskController.getAllTasks, as_PaginationParams.
      rewrite Hl. cbn. now destruct (query req !! "page" ≫= as_integer).
Qed.

End TaskRoutes.

(** ** The whole stack for the owner of a task *)

Lemma getTaskById_own (db : Db) (t : Task) :
  ids_unique db → t ∈ db.(tasks) →
  TaskService.getTaskById t.(t_id) t.(t_userId) db = (inr t, db).
Proof.
  intros Hnd Hin. unfold TaskService.getTaskById.
  now rewrite (bind_inr _ _ db db (Some t)) by now apply findFirst_own.
Qed.

Lemma deleteTask_run (db : Db) (t : Task) :
  ids_unique db → t ∈ db.(tasks) →
  TaskService.deleteTask t.(t_id) t.(t_userId) db
  = (inr tt, mkDb db.(users) (filter (λ x, x.(t_id) ≠ t.(t_id)) db.(tasks))).
Proof.
  intros Hnd Hin. unfold TaskService.deleteTask.
  rewrite (bind_inr _ _ db db t) by now apply getTaskById_own.
  unfold mbind, M_bind, prisma_task.delete. now rewrite find_by_id_unique.
Qed.

Section WholeStack.
Context `{Jws} `{JsText}.

(** X20: the whole stack for the owner of a task.  A request with
    "Bearer <token>", where the token verifies to the owner, and with the
    id of the task: GET /tasks/:id answers 200 with the task and leaves the
    store alone; DELETE /tasks/:id answers 204 with no body and removes
    that row and no other.  [authenticate] runs first and calls
    [verifyToken] once. *)
Theorem own_task_through_the_stack (config : Config) (env : Env) (req : Request)
    (db : Db) (tok : string) (payload : TokenPayload) (t : Task) :
  ids_unique db → t ∈ db.(tasks) →
  req.(authorization) = Some (String.append "Bearer " tok) →
  AuthService.verifyToken config tok env.(now_ms) = inr payload →
  payload.(sub) = t.(t_userId) → param_id req = t.(t_id) →
  handle config env GET_task req db
  = (([Entered "authenticate"; VerifyTokenCalled tok; Entered "getTaskById"],
      mkResponse 200 (JsonTask t)), db)
  ∧ handle config env DELETE_task req db
    = (([Entered "authenticate"; VerifyTokenCalled tok; Entered "deleteTask"],
        mkResponse 204 NoBody),
       mkDb db.(users) (filter (λ x, x.(t_id) ≠ t.(t_id)) db.(tasks))).
Proof.
  intros Hnd Hin Hh Hv Hsub Hid.
  pose proof (authenticate_accepts config env req db tok payload Hh Hv) as Hgate.
  unfold handle, taskRoutes. cbn [dispatch]. rewrite Hgate.
  cbn [route_layers dispatch].
  unfold TaskController.getTaskById, TaskController.deleteTask,
    TaskController.with_user, respond.
  cbn [set_user req_user au_id].
  change (param_id (set_user req (mkAuthUser payload.(sub) payload.(role))))
    with (param_id req).
  rewrite Hid, Hsub, (getTaskById_own db t Hnd Hin), (deleteTask_run db t Hnd Hin).
  split; reflexivity.
Qed.

(** X21: [.unknown(true)]: what [paginationSchema] lets through still
    holds every key of the input other than page and limit, with the value
    it had. *)
Theorem pagination_keeps_other_keys (data value : gmap string JsVal) (k : string) :
  Joi.validate paginationSchema data = inr value →
  k ≠ "page" → k ≠ "limit" →
  value !! k = data !! k.
Proof.
  intros Hv Hp Hl. apply validate_inr in Hv as [_ ->].
  cbn [paginationSchema obj_unknown obj_keys].
  assert (Hknown : (Joi.validate_keys (obj_keys paginationSchema) data).2 !! k = None).
  { destruct (_ !! k) eqn:Hk; [exfalso | reflexivity].
    assert (Hin : k ∈ (obj_keys paginationSchema).*1)
      by (eapply validate_keys_dom; eauto).
    cbn in Hin. apply elem_of_cons in Hin as [-> | Hin]; [congruence |].
    apply list_elem_of_singleton in Hin. congruence. }
  unfold paginationSchema in Hknown. cbn [obj_keys] in Hknown.
  rewrite lookup_union, Hknown. unfold Joi.unknown_part. cbn [obj_keys].
  destruct (data !! k) as [v|] eqn:Hd.
  - erewrite (map_lookup_filter_Some_2 _ data k v); [reflexivity | exact Hd |].
    cbn. intros Hin. apply elem_of_cons in Hin as [-> | Hin]; [congruence |].
    apply list_elem_of_singleton in Hin. congruence.
  - rewrite map_lookup_filter_None_2; [reflexivity | now left].
Qed.

End WholeStack.

(** ** The seed script *)

Lemma find_email_app (email : string) (us l : list User) :
  (∀ x, x ∈ us → x.(u_email) ≠ email) →
  find (λ x, bool_decide (x.(u_email) = email)) (us ++ l)
  = find (λ x, bool_decide (x.(u_email) = email)) l.
Proof.
  intros Hfresh. induction us as [|w us IH]; cbn; [reflexivity |].
  rewrite bool_decide_eq_false_2 by (apply Hfresh; left).
  apply IH. intros x Hx. apply Hfresh. now right.
Qed.

Lemma find_email_unique (us : list User) (u : User) :
  NoDup (u_email <$> us) → u ∈ us →
  find (λ x, bool_decide (x.(u_email) = u.(u_email))) us = Some u.
Proof.
  induction us as [| w us IH]; intros Hnd Hin; [now apply elem_of_nil in Hin |].
  cbn in Hnd. apply NoDup_cons in Hnd as [Hw Hnd]. cbn.
  apply elem_of_cons in Hin as [-> | Hin].
  - now rewrite bool_decide_eq_true_2.
  - rewrite bool_decide_eq_false_2; [now apply IH |].
    intros Heq. apply Hw. rewrite Heq. now apply list_elem_of_fmap_2.
Qed.

Lemma upsert_new (newId0 : string) (now : Z) (email pw : string) (r : Role) (db : Db) :
  (∀ u, u ∈ db.(users) → u.(u_email) ≠ email ∧ u.(u_id) ≠ newId0) →
  prisma.user_upsert newId0 now email pw r db
  = (inr (mkUser newId0 email pw r now now),
     mkDb (db.(users) ++ [mkUser newId0 email pw r now now]) db.(tasks)).
Proof.
  intros Hfresh. unfold prisma.user_upsert, prisma.user_create.
  rewrite find_email_None by (intros u Hu; now apply Hfresh).
  now rewrite existsb_fresh by exact Hfresh.
Qed.

Lemma fmap_map_same {A B} (proj : A → B) (g : A → A) (l : list A) :
  (∀ x, x ∈ l → proj (g x) = proj x) → proj <$> map g l = proj <$> l.
Proof.
  intros Hsame. induction l as [| x l IH]; [reflexivity |]. cbn.
  rewrite Hsame by left. f_equal. apply IH. intros y Hy. apply Hsame. now right.
Qed.

Lemma upsert_existing (newId0 : string) (now : Z) (pw : string) (r : Role) (db : Db)
    (u : User) :
  emails_unique db → u ∈ db.(users) →
  ∃ db1 u',
    prisma.user_upsert newId0 now u.(u_email) pw r db = (inr u', db1)
    ∧ account u' = account u
    ∧ db1.(tasks) = db.(tasks)
    ∧ account <$> db1.(users) = account <$> db.(users)
    ∧ u_createdAt <$> db1.(users) = u_createdAt <$> db.(users)
    ∧ ∀ x, x ∈ db.(users) → x.(u_email) ≠ u.(u_email) → x ∈ db1.(users).
Proof.
  intros Hnd Hin. unfold prisma.user_upsert.
  rewrite (find_email_unique _ _ Hnd Hin).
  eexists. eexists. split; [reflexivity |]. split; [reflexivity |].
  split; [reflexivity |]. cbn [users].
  assert (Hrow : ∀ x, x ∈ db.(users) → x.(u_email) = u.(u_email) → x = u).
  { intros x Hx Heq.
    pose proof (find_email_unique _ _ Hnd Hx) as Hfx. rewrite Heq in Hfx.
    rewrite (find_email_unique _ _ Hnd Hin) in Hfx. congruence. }
  split; [| split].
  - apply fmap_map_same. intros x Hx.
    destruct (bool_decide (u_email x = u_email u)) eqn:He; [| reflexivity].
    apply bool_decide_eq_true_1 in He. now rewrite (Hrow x Hx He).
  - apply fmap_map_same. intros x Hx.
    destruct (bool_decide (u_email x = u_email u)) eqn:He; [| reflexivity].
    apply bool_decide_eq_true_1 in He. now rewrite (Hrow x Hx He).
  - intros x Hx Hne. apply list_elem_of_In, in_map_iff. exists x.
    split; [| now apply list_elem_of_In].
    now rewrite bool_decide_eq_false_2.
Qed.

Lemma createMany_run (rows : list prisma_task.NewTask) (now : Z) (db : Db) :
  NoDup (prisma_task.nt_id <$> rows) →
  (∀ r t, r ∈ rows → t ∈ db.(tasks) → t.(t_id) ≠ r.(prisma_task.nt_id)) →
  (∀ r, r ∈ rows → ∃ u, u ∈ db.(users) ∧ u.(u_id) = r.(prisma_task.nt_userId)) →
  prisma_task.createMany rows now db
  = (inr (Z.of_nat (length rows)),
     mkDb db.(users)
       (db.(tasks)
        ++ map (λ r, mkTask r.(prisma_task.nt_id) r.(prisma_task.nt_title)
                       r.(prisma_task.nt_description) r.(prisma_task.nt_status)
                       r.(prisma_task.nt_userId) now now) rows)).
Proof.
  intros Hnd Hfresh Hown. unfold prisma_task.createMany.
  rewrite bool_decide_eq_true_2 by exact Hnd. cbn [negb orb].
  assert (Hdup : existsb (λ r, existsb (λ t, bool_decide (t_id t = prisma_task.nt_id r))
                                 (tasks db)) rows = false).
  { apply not_true_iff_false. intros Hex.
    apply existsb_exists in Hex as (r & Hr & Hex).
    apply existsb_exists in Hex as (t & Ht & Hid).
    apply bool_decide_eq_true_1 in Hid. apply list_elem_of_In in Hr, Ht.
    now destruct (Hfresh r t Hr Ht). }
  assert (Hfk : existsb (λ r, negb (existsb (λ u, bool_decide
                                       (u_id u = prisma_task.nt_userId r)) (users db)))
                  rows = false).
  { apply not_true_iff_false. intros Hex.
    apply existsb_exists in Hex as (r & Hr & Hex). apply list_elem_of_In in Hr.
    destruct (Hown r Hr) as (u & Hu & Hid).
    apply negb_true_iff in Hex.
    assert (Hyes : existsb (λ u0, bool_decide (u_id u0 = prisma_task.nt_userId r))
                     (users db) = true).
    { apply existsb_exists. exists u. split; [now apply list_elem_of_In |].
      now apply bool_decide_eq_true_2. }
    congruence. }
  now rewrite Hdup, Hfk.
Qed.

Section SeedScript.
Context `{Bcrypt} `{Jws}.

(** X18: the seed script on a store that has neither of its two accounts:
    both are created, the administrator with the role ADMIN and the other
    with USER, and the three sample tasks are added, two for the user and
    one for the administrator; afterwards "Admin@123" and "User@123" log
    the two in, with their roles. *)
Theorem seed_creates_accounts (config : Config) (env : SeedEnv) (db : Db) (now : Z) :
  (∀ u, u ∈ db.(users) →
        u.(u_email) ≠ "admin@taskapp.com" ∧ u.(u_email) ≠ "user@taskapp.com"
        ∧ u.(u_id) ≠ env.(admin_newId) ∧ u.(u_id) ≠ env.(user_newId)) →
  env.(admin_newId) ≠ env.(user_newId) →
  task_ids_fresh env.(task_newIds) db →
  config.(jwt_secret) ≠ "" →
  ∃ db1 ra ru,
    seed.main env db = (inr tt, db1)
    ∧ db1.(users) = db.(users) ++ [seeded_admin env; seeded_user env]
    ∧ db1.(tasks)
      = db.(tasks)
        ++ sample_tasks env.(task_newIds) env.(admin_newId) env.(user_newId)
             env.(seed_now)
    ∧ AuthService.login config (mkLoginDTO "admin@taskapp.com" "Admin@123") now db1
      = (inr ra, db1)
    ∧ ra.(user).(pu_role) = Some ADMIN
    ∧ AuthService.login config (mkLoginDTO "user@taskapp.com" "User@123") now db1
      = (inr ru, db1)
    ∧ ru.(user).(pu_role) = Some USER.
Proof.
  intros Hfresh Hids Htasks Hsec.
  destruct env as [now0 aid uid asalt usalt [[id1 id2] id3]].
  cbn [admin_newId user_newId task_newIds seed_now] in *.
  destruct Htasks as [Hnd Hnew].
  set (a := seeded_admin (mkSeedEnv now0 aid uid asalt usalt (id1, id2, id3))).
  set (b := seeded_user (mkSeedEnv now0 aid uid asalt usalt (id1, id2, id3))).
  set (db1 := mkDb (db.(users) ++ [a; b])
                (db.(tasks) ++ sample_tasks (id1, id2, id3) aid uid now0)).
  assert (Hrun : seed.main (mkSeedEnv now0 aid uid asalt usalt (id1, id2, id3)) db
                 = (inr tt, db1)).
  { unfold seed.main. cbn [admin_newId user_newId task_newIds seed_now admin_salt
                             user_salt].
    cbv zeta.
    rewrite (bind_inr _ _ db (mkDb (db.(users) ++ [a]) db.(tasks)) a).
    2: { apply (upsert_new aid now0 "admin@taskapp.com" _ ADMIN db). intros u Hu.
         destruct (Hfresh u Hu) as (? & ? & ? & ?). auto. }
    rewrite (bind_inr _ _ _ (mkDb ((db.(users) ++ [a]) ++ [b]) db.(tasks)) b).
    2: { apply (upsert_new uid now0 "user@taskapp.com" _ USER
                  (mkDb (db.(users) ++ [a]) db.(tasks))).
         cbn [users]. intros u Hu.
         apply elem_of_app in Hu as [Hu | Hu].
         - destruct (Hfresh u Hu) as (? & ? & ? & ?). auto.
         - apply list_elem_of_singleton in Hu. subst u. cbn. split; [discriminate | auto]. }
    erewrite bind_inr.
    2: { apply createMany_run.
         - exact Hnd.
         - cbn [tasks]. intros r t Hr Ht Heq. apply (Hnew t Ht). rewrite Heq.
           repeat (apply elem_of_cons in Hr as [-> | Hr]; [cbn; key_in |]).
           now apply elem_of_nil in Hr.
         - cbn [users]. intros r Hr.
           repeat (apply elem_of_cons in Hr as [-> | Hr];
                   [cbn; first [exists b; split; [apply elem_of_app; right; key_in
                                                 | reflexivity]
                               | exists a; split; [apply elem_of_app; left;
                                                   apply elem_of_app; right; key_in
                                                 | reflexivity]] |]).
           now apply elem_of_nil in Hr. }
    unfold mret, M_ret. cbn [users tasks length map prisma_task.nt_id
      prisma_task.nt_title prisma_task.nt_description prisma_task.nt_status
      prisma_task.nt_userId u_id].
    subst db1. rewrite <- (app_assoc (users db) [a] [b]). reflexivity. }
  assert (Hfa : prisma.user_findUnique "admin@taskapp.com" db1 = (inr (Some a), db1)).
  { unfold prisma.user_findUnique, db1. cbn [users].
    rewrite find_email_app by (intros x Hx; now apply Hfresh).
    cbn [find]. now rewrite bool_decide_eq_true_2 by reflexivity. }
  assert (Hfb : prisma.user_findUnique "user@taskapp.com" db1 = (inr (Some b), db1)).
  { unfold prisma.user_findUnique, db1. cbn [users].
    rewrite find_email_app by (intros x Hx; now apply Hfresh).
    cbn [find]. rewrite bool_decide_eq_false_2 by discriminate.
    now rewrite bool_decide_eq_true_2 by reflexivity. }
  exists db1. eexists. eexists.
  split; [exact Hrun |]. split; [reflexivity |]. split; [reflexivity |].
  split.
  { apply (login_success config (mkLoginDTO "admin@taskapp.com" "Admin@123") now db1 a);
      [exact Hfa | apply bcrypt_compare_hash | exact Hsec]. }
  split; [reflexivity |].
  split.
  { apply (login_success config (mkLoginDTO "user@taskapp.com" "User@123") now db1 b);
      [exact Hfb | apply bcrypt_compare_hash | exact Hsec]. }
  reflexivity.
Qed.

Lemma account_emails (us vs : list User) :
  account <$> us = account <$> vs → u_email <$> us = u_email <$> vs.
Proof.
  intros Heq.
  assert (Hproj : ∀ l : list User, u_email <$> l = (λ acc, acc.1.1.2) <$> (account <$> l)).
  { intros l. rewrite <- list_fmap_compose. reflexivity. }
  now rewrite !Hproj, Heq.
Qed.

Lemma account_owner (us vs : list User) (u : User) :
  account <$> us = account <$> vs → u ∈ vs →
  ∃ x, x ∈ us ∧ x.(u_id) = u.(u_id).
Proof.
  intros Heq Hin.
  assert (Hacc : account u ∈ account <$> us).
  { rewrite Heq. now apply list_elem_of_fmap_2. }
  apply list_elem_of_fmap in Hacc as (x & Hx & Hin'). exists x.
  split; [exact Hin' |]. unfold account in Hx. congruence.
Qed.

(** X19: the seed script on a store that has both accounts: the upserts
    change no id, email, password hash, role or creation stamp of any
    account, whatever the two passwords are by now, and add none; the three
    sample tasks are added once more, for the owners of the two emails. *)
Theorem seed_keeps_accounts (env : SeedEnv) (db : Db) (a b : User) :
  emails_unique db →
  a ∈ db.(users) → a.(u_email) = "admin@taskapp.com" →
  b ∈ db.(users) → b.(u_email) = "user@taskapp.com" →
  task_ids_fresh env.(task_newIds) db →
  ∃ db1,
    seed.main env db = (inr tt, db1)
    ∧ account <$> db1.(users) = account <$> db.(users)
    ∧ u_createdAt <$> db1.(users) = u_createdAt <$> db.(users)
    ∧ db1.(tasks)
      = db.(tasks)
        ++ sample_tasks env.(task_newIds) a.(u_id) b.(u_id) env.(seed_now).
Proof.
  intros Hnd Ha Hae Hb Hbe Htasks.
  destruct env as [now0 aid uid asalt usalt [[id1 id2] id3]].
  cbn [admin_newId user_newId task_newIds seed_now] in *.
  destruct Htasks as [Hids Hnew].
  destruct (upsert_existing aid now0 (bcrypt_hash "Admin@123" 10 asalt) ADMIN db a Hnd Ha)
    as (db1 & a' & Hup1 & Hacc1 & Ht1 & Hus1 & Hcr1 & Hkeep1).
  rewrite Hae in Hup1.
  assert (Hnd1 : emails_unique db1).
  { unfold emails_unique in *. now rewrite (account_emails _ _ Hus1). }
  assert (Hb1 : b ∈ db1.(users)).
  { apply Hkeep1; [exact Hb |]. rewrite Hae, Hbe. discriminate. }
  destruct (upsert_existing uid now0 (bcrypt_hash "User@123" 10 usalt) USER db1 b Hnd1 Hb1)
    as (db2 & b' & Hup2 & Hacc2 & Ht2 & Hus2 & Hcr2 & _).
  rewrite Hbe in Hup2.
  assert (Haid : a'.(u_id) = a.(u_id)) by (unfold account in Hacc1; congruence).
  assert (Hbid : b'.(u_id) = b.(u_id)) by (unfold account in Hacc2; congruence).
  assert (Hus : account <$> db2.(users) = account <$> db.(users)) by congruence.
  eexists. split.
  { unfold seed.main. cbn [admin_newId user_newId task_newIds seed_now admin_salt
                             user_salt].
    cbv zeta. rewrite (bind_inr _ _ db db1 a' Hup1).
    rewrite (bind_inr _ _ db1 db2 b' Hup2).
    erewrite bind_inr.
    2: { apply createMany_run.
         - exact Hids.
         - rewrite Ht2, Ht1. intros r t Hr Ht Heq. apply (Hnew t Ht). rewrite Heq.
           repeat (apply elem_of_cons in Hr as [-> | Hr]; [cbn; key_in |]).
           now apply elem_of_nil in Hr.
         - intros r Hr.
           repeat (apply elem_of_cons in Hr as [-> | Hr];
                   [cbn [prisma_task.nt_userId]; rewrite ?Haid, ?Hbid;
                    first [now apply (account_owner _ _ b Hus)
                          | now apply (account_owner _ _ a Hus)] |]).
           now apply elem_of_nil in Hr. }
    unfold mret, M_ret. reflexivity. }
  cbn [users tasks map prisma_task.nt_id prisma_task.nt_title
         prisma_task.nt_description prisma_task.nt_status prisma_task.nt_userId].
  split; [exact Hus |]. split; [congruence |].
  rewrite Ht2, Ht1, Haid, Hbid. reflexivity.
Qed.

End SeedScript.

(** ** Runs of the further properties on the sample data *)

Lemma register_then_login_witness :
  (∀ u, u ∈ Sample.db.(users) → u.(u_email) ≠ "carol@example.com" ∧ u.(u_id) ≠ "u9")
  ∧ Sample.config.(jwt_secret) ≠ ""
  ∧ ∃ db1 r,
      @AuthService.register reference_bcrypt Scenario.carol "salt" "u9" 2000 Sample.db
      = (inr (mkRegisterResult "u9"), db1)
      ∧ @AuthService.login reference_bcrypt reference_jws Sample.config
          (mkLoginDTO "carol@example.com" "Secret123") 3000 db1 = (inr r, db1)
      ∧ r.(user) = mkPartialUser (Some "u9") (Some "carol@example.com") None (Some USER)
                     None None
      ∧ @jws_decode reference_jws r.(token) = Some (mkTokenPayload "u9" USER 3 903).
Proof.
  assert (Hfresh : ∀ u, u ∈ Sample.db.(users) →
                        u.(u_email) ≠ "carol@example.com" ∧ u.(u_id) ≠ "u9").
  { intros u Hu. apply list_elem_of_singleton in Hu. subst u. split; discriminate. }
  assert (Hsec : Sample.config.(jwt_secret) ≠ "") by discriminate.
  split; [exact Hfresh |]. split; [exact Hsec |].
  exact (@register_then_login reference_bcrypt reference_jws Sample.config Scenario.carol
           "salt" "u9" 2000 3000 Sample.db Hfresh Hsec).
Defined.


Lemma login_token_opens_the_gate_witness :
  @AuthService.login reference_bcrypt reference_jws Sample.config
    (mkLoginDTO "alice@example.com" "Secret123") 1000 Sample.db
  = (inr Sample.alice_login, Sample.db)
  ∧ (Sample.bearer Sample.alice_token).(authorization)
    = Some (String.append "Bearer " Sample.alice_login.(token))
  ∧ clockTimestamp Sample.env.(now_ms) < clockTimestamp 1000 + Sample.config.(jwt_expiry)
  ∧ ∃ u, u ∈ Sample.db.(users) ∧ u.(u_email) = "alice@example.com"
      ∧ @authenticate reference_jws Sample.config Sample.env
          (Sample.bearer Sample.alice_token) Sample.db
        = (([VerifyTokenCalled Sample.alice_token],
            Next (set_user (Sample.bearer Sample.alice_token)
                    (mkAuthUser u.(u_id) u.(u_role)))), Sample.db).
Proof.
  assert (Hlogin : @AuthService.login reference_bcrypt reference_jws Sample.config
                     (mkLoginDTO "alice@example.com" "Secret123") 1000 Sample.db
                   = (inr Sample.alice_login, Sample.db)) by by_running.
  assert (Hnow : clockTimestamp Sample.env.(now_ms)
                 < clockTimestamp 1000 + Sample.config.(jwt_expiry)) by by_running.
  split; [exact Hlogin |]. split; [reflexivity |]. split; [exact Hnow |].
  exact (@login_token_opens_the_gate reference_bcrypt reference_jws Sample.config
           Sample.env (mkLoginDTO "alice@example.com" "Secret123") 1000 Sample.db
           Sample.db Sample.alice_login (Sample.bearer Sample.alice_token)
           Hlogin eq_refl Hnow).
Defined.

Lemma validate_strips_undeclared_witness :
  loginSchema.(obj_unknown) = false
  ∧ @Joi.validate reference_text loginSchema Scenario.login_body
    = inr Scenario.login_value
  ∧ is_Some (Scenario.login_value !! "password")
  ∧ "password" ∈ loginSchema.(obj_keys).*1.
Proof.
  assert (Hv : @Joi.validate reference_text loginSchema Scenario.login_body
               = inr Scenario.login_value) by by_running.
  assert (Hk : is_Some (Scenario.login_value !! "password")).
  { exists (VStr "Secret123"). by_running. }
  split; [reflexivity |]. split; [exact Hv |]. split; [exact Hk |].
  exact (@validate_strips_undeclared reference_text loginSchema Scenario.login_body
           Scenario.login_value "password" eq_refl Hv Hk).
Defined.

Lemma login_body_validated_witness :
  @validate reference_text loginSchema Body
    (Scenario.with_body Scenario.alice_user Scenario.login_body) Sample.db
  = (([], Next (Scenario.with_body Scenario.alice_user Scenario.login_value)), Sample.db)
  ∧ ∃ value dto,
      (Scenario.with_body Scenario.alice_user Scenario.login_value).(body) = Some value
      ∧ as_LoginDTO value = Some dto
      ∧ Scenario.login_body !! "email" = Some (VStr dto.(login_email))
      ∧ Scenario.login_body !! "password" = Some (VStr dto.(login_password))
      ∧ @joi_email reference_text dto.(login_email) = true
      ∧ dto.(login_email) ≠ "" ∧ dto.(login_password) ≠ ""
      ∧ ∀ k, is_Some (value !! k) → k ∈ ["email"; "password"].
Proof.
  assert (Hv : @validate reference_text loginSchema Body
                 (Scenario.with_body Scenario.alice_user Scenario.login_body) Sample.db
               = (([], Next (Scenario.with_body Scenario.alice_user Scenario.login_value)),
                  Sample.db)) by by_running.
  split; [exact Hv |].
  exact (@login_body_validated reference_text reference_bcrypt reference_jws
           Sample.config Sample.env _ _ Sample.db Hv).
Defined.

Lemma registerSchema_rejects_witness :
  (Scenario.with_body Scenario.alice_user Scenario.weak_body).(body)
  = Some Scenario.weak_body
  ∧ (∃ p, Scenario.weak_body !! "password" = Some (VStr p) ∧ (js_length p < 8)%nat)
  ∧ ∃ dets e,
      e ∈ dets ∧ e.(field) = "password"
      ∧ ∀ downstream,
          dispatch (("validate", @validate reference_text registerSchema Body)
                    :: downstream)
            (Scenario.with_body Scenario.alice_user Scenario.weak_body) Sample.db
          = (([Entered "validate"], validationResponse dets), Sample.db).
Proof.
  assert (Hweak : ∃ p, Scenario.weak_body !! "password" = Some (VStr p)
                       ∧ (js_length p < 8)%nat).
  { exists "short". split; [by_running | vm_compute; lia]. }
  split; [reflexivity |]. split; [exact Hweak |].
  exact (@registerSchema_rejects reference_text
           (Scenario.with_body Scenario.alice_user Scenario.weak_body) Sample.db
           Scenario.weak_body "password" eq_refl
           (or_intror (or_intror (or_introl (conj eq_refl Hweak))))).
Defined.

Lemma getTasks_page_witness :
  1 ≤ 1 ∧ 1 ≤ 10
  ∧ ∃ r n,
      TaskService.getTasks "u1" (mkPaginationParams 1 10) Sample.db = (inr r, Sample.db)
      ∧ StronglySorted newer_first r.(data)
      ∧ r.(pagination).(pg_total) = Z.of_nat (length (tasks_of "u1" Sample.db))
      ∧ r.(pagination).(pg_totalPages) = Finite (inject_Z n)
      ∧ (n - 1) * 10 < r.(pagination).(pg_total) ≤ n * 10
      ∧ Z.of_nat (length r.(data))
        = Z.min 10 (Z.max 0 (r.(pagination).(pg_total) - (1 - 1) * 10))
      ∧ (r.(data) ≠ [] ↔ 1 ≤ n).
Proof.
  assert (Hp : 1 ≤ 1) by lia. assert (Hl : 1 ≤ 10) by lia.
  split; [exact Hp |]. split; [exact Hl |].
  exact (getTasks_page "u1" (mkPaginationParams 1 10) Sample.db Hp Hl).
Defined.

Lemma createTask_then_get_witness :
  (∀ t, t ∈ Sample.db.(tasks) → t.(t_id) ≠ "u9")
  ∧ (∃ u, u ∈ Sample.db.(users) ∧ u.(u_id) = "u1")
  ∧ TaskService.createTask "u1" (mkCreateTaskDTO "Call Bob" None None) "u9" 2000 Sample.db
    = (inr Scenario.created_task,
       mkDb Sample.db.(users) (Sample.db.(tasks) ++ [Scenario.created_task]))
  ∧ TaskService.getTaskById "u9" "u1"
      (mkDb Sample.db.(users) (Sample.db.(tasks) ++ [Scenario.created_task]))
    = (inr Scenario.created_task,
       mkDb Sample.db.(users) (Sample.db.(tasks) ++ [Scenario.created_task]))
  ∧ (∀ other, other ≠ "u1" →
       TaskService.getTaskById "u9" other
         (mkDb Sample.db.(users) (Sample.db.(tasks) ++ [Scenario.created_task]))
       = (inl notFoundError,
          mkDb Sample.db.(users) (Sample.db.(tasks) ++ [Scenario.created_task]))).
Proof.
  assert (Hfresh : ∀ t, t ∈ Sample.db.(tasks) → t.(t_id) ≠ "u9").
  { intros t Ht. apply elem_of_cons in Ht as [-> | Ht]; [discriminate |].
    apply list_elem_of_singleton in Ht. subst t. discriminate. }
  assert (Hown : ∃ u, u ∈ Sample.db.(users) ∧ u.(u_id) = "u1").
  { exists Sample.alice. split; [left | reflexivity]. }
  split; [exact Hfresh |]. split; [exact Hown |].
  exact (createTask_then_get "u1" (mkCreateTaskDTO "Call Bob" None None) "u9" 2000
           Sample.db Hfresh Hown).
Defined.

Lemma updateTask_own_witness :
  ids_unique Sample.db ∧ Sample.alice_task ∈ Sample.db.(tasks)
  ∧ TaskService.updateTask "t2" "u1" Scenario.retitle 3000 Sample.db
    = (inr (mkTask "t2" "Review twice" (Some "the pull requests") IN_PROGRESS "u1" 5 3000),
       mkDb Sample.db.(users)
         [Sample.bob_task;
          mkTask "t2" "Review twice" (Some "the pull requests") IN_PROGRESS "u1" 5 3000]).
Proof.
  assert (Hnd : ids_unique Sample.db) by (unfold ids_unique; cbn; compute_done).
  assert (Hin : Sample.alice_task ∈ Sample.db.(tasks)) by (right; left).
  split; [exact Hnd |]. split; [exact Hin |].
  exact (proj1 (updateTask_own Sample.db Sample.alice_task Scenario.retitle 3000 Hnd Hin)).
Defined.

Lemma deleteTask_own_witness :
  ids_unique Sample.db ∧ Sample.alice_task ∈ Sample.db.(tasks)
  ∧ TaskService.deleteTask "t2" "u1" Sample.db
    = (inr tt, mkDb Sample.db.(users) [Sample.bob_task])
  ∧ (∀ owner, TaskService.getTaskById "t2" owner (mkDb Sample.db.(users) [Sample.bob_task])
              = (inl notFoundError, mkDb Sample.db.(users) [Sample.bob_task])).
Proof.
  assert (Hnd : ids_unique Sample.db) by (unfold ids_unique; cbn; compute_done).
  assert (Hin : Sample.alice_task ∈ Sample.db.(tasks)) by (right; left).
  split; [exact Hnd |]. split; [exact Hin |].
  destruct (deleteTask_own Sample.db Sample.alice_task Hnd Hin) as (Hrun & _ & Hgone & _).
  split; [exact Hrun | exact Hgone].
Defined.

Lemma task_writes_fail_only_not_found_witness :
  TaskService.deleteTask "t1" "u1" Sample.db = (inl notFoundError, Sample.db)
  ∧ notFoundError = notFoundError ∧ Sample.db = Sample.db
  ∧ ∀ t, t ∈ Sample.db.(tasks) → t.(t_id) = "t1" → t.(t_userId) ≠ "u1".
Proof.
  assert (Hrun : TaskService.deleteTask "t1" "u1" Sample.db
                 = (inl notFoundError, Sample.db)) by by_running.
  split; [exact Hrun |].
  exact (task_writes_fail_only_not_found "t1" "u1" Scenario.retitle 3000 Sample.db
           Sample.db notFoundError (or_intror Hrun)).
Defined.

Lemma getAllTasks_rows_witness :
  TaskService.getAllTasks (mkPaginationParams 1 10) Sample.db
  = (inr Scenario.all_tasks_page, Sample.db)
  ∧ Sample.db = Sample.db
  ∧ Scenario.all_tasks_page.(admin_pagination).(pg_total)
    = Z.of_nat (length Sample.db.(tasks))
  ∧ ∀ t ou, (t, ou) ∈ Scenario.all_tasks_page.(admin_data) →
      t ∈ Sample.db.(tasks)
      ∧ (owners_exist Sample.db → is_Some ou)
      ∧ ∀ pu, ou = Some pu →
          pu.(pu_password) = None ∧ pu.(pu_createdAt) = None ∧ pu.(pu_updatedAt) = None
          ∧ ∃ u, u ∈ Sample.db.(users) ∧ u.(u_id) = t.(t_userId)
                 ∧ pu.(pu_id) = Some u.(u_id) ∧ pu.(pu_email) = Some u.(u_email)
                 ∧ pu.(pu_role) = Some u.(u_role).
Proof.
  assert (Hrun : TaskService.getAllTasks (mkPaginationParams 1 10) Sample.db
                 = (inr Scenario.all_tasks_page, Sample.db)) by by_running.
  split; [exact Hrun |].
  exact (getAllTasks_rows (mkPaginationParams 1 10) Sample.db Sample.db
           Scenario.all_tasks_page Hrun).
Defined.

Lemma store_keys_are_kept_witness :
  ids_unique Scenario.owned_db ∧ emails_unique Scenario.owned_db ∧ owners_exist Scenario.owned_db
  ∧ owners_exist
      (@AuthService.register reference_bcrypt Scenario.carol "salt" "u9" 2000
         Scenario.owned_db).2
  ∧ ids_unique
      (TaskService.createTask "u1" (mkCreateTaskDTO "Call Bob" None None) "u9" 2000
         Scenario.owned_db).2
  ∧ owners_exist (TaskService.updateTask "t2" "u1" Scenario.retitle 3000 Scenario.owned_db).2
  ∧ owners_exist (TaskService.deleteTask "t2" "u1" Scenario.owned_db).2.
Proof.
  assert (Hids : ids_unique Scenario.owned_db) by (unfold ids_unique; cbn; compute_done).
  assert (Hemails : emails_unique Scenario.owned_db) by (unfold emails_unique; cbn; compute_done).
  assert (Hfk : owners_exist Scenario.owned_db).
  { intros t Ht. apply list_elem_of_singleton in Ht. subst t.
    exists Sample.alice. split; [left | reflexivity]. }
  split; [exact Hids |]. split; [exact Hemails |]. split; [exact Hfk |].
  destruct (@store_keys_are_kept reference_bcrypt Scenario.owned_db Hids Hemails Hfk)
    as (Hreg & Hcreate & Hupdate & Hdelete).
  split; [exact (proj2 (proj2 (Hreg Scenario.carol "salt" "u9" 2000))) |].
  split; [exact (proj1 (Hcreate "u1" (mkCreateTaskDTO "Call Bob" None None) "u9" 2000)) |].
  split; [exact (proj2 (proj2 (Hupdate "t2" "u1" Scenario.retitle 3000))) |].
  exact (proj2 (proj2 (Hdelete "t2" "u1"))).
Defined.

Lemma create_route_owner_witness :
  (Scenario.with_body Scenario.alice_user Scenario.task_body).(req_user)
  = Some Scenario.alice_user
  ∧ (∃ x, x ∈ Sample.db.(users) ∧ x.(u_id) = Scenario.alice_user.(au_id))
  ∧ (∀ t, t ∈ Sample.db.(tasks) → t.(t_id) ≠ Sample.env.(newId))
  ∧ dispatch (@route_layers reference_text Sample.env POST_tasks)
      (Scenario.with_body Scenario.alice_user Scenario.task_body) Sample.db
    = (([Entered "validate"; Entered "createTask"],
        mkResponse 201 (JsonTask Scenario.created_task)),
       mkDb Sample.db.(users) (Sample.db.(tasks) ++ [Scenario.created_task]))
  ∧ ((∃ dets,
        dispatch (@route_layers reference_text Sample.env POST_tasks)
          (Scenario.with_body Scenario.alice_user Scenario.task_body) Sample.db
        = (([Entered "validate"], validationResponse dets), Sample.db))
     ∨ (∃ t,
          dispatch (@route_layers reference_text Sample.env POST_tasks)
            (Scenario.with_body Scenario.alice_user Scenario.task_body) Sample.db
          = (([Entered "validate"; Entered "createTask"], mkResponse 201 (JsonTask t)),
             mkDb Sample.db.(users) (Sample.db.(tasks) ++ [t]))
          ∧ t.(t_userId) = "u1" ∧ t.(t_id) = "u9"
          ∧ Scenario.task_body !! "title" = Some (VStr t.(t_title))
          ∧ (1 ≤ js_length t.(t_title) ≤ 255)%nat
          ∧ t.(t_createdAt) = 2000
          ∧ (Scenario.task_body !! "status" = None → t.(t_status) = PENDING)))
  ∧ dispatch (@route_layers reference_text Sample.env POST_tasks)
      (Sample.as_user Scenario.alice_user "t1") Sample.db
    = (([Entered "validate"; Entered "createTask"], errorHandler typeError), Sample.db).
Proof.
  assert (Hown : ∃ x, x ∈ Sample.db.(users) ∧ x.(u_id) = Scenario.alice_user.(au_id)).
  { exists Sample.alice. split; [left | reflexivity]. }
  assert (Hfresh : ∀ t, t ∈ Sample.db.(tasks) → t.(t_id) ≠ Sample.env.(newId)).
  { intros t Ht. apply elem_of_cons in Ht as [-> | Ht]; [discriminate |].
    apply list_elem_of_singleton in Ht. subst t. discriminate. }
  split; [reflexivity |]. split; [exact Hown |]. split; [exact Hfresh |].
  split; [by_running |]. split.
  - exact (@create_route_owner reference_text Sample.env
             (Scenario.with_body Scenario.alice_user Scenario.task_body) Sample.db
             Scenario.alice_user eq_refl Hown Hfresh).
  - exact (@create_route_owner reference_text Sample.env
             (Sample.as_user Scenario.alice_user "t1") Sample.db
             Scenario.alice_user eq_refl Hown Hfresh).
Defined.

Lemma admin_route_by_role_witness :
  (Sample.with_query {[ "page" := VStr "1"; "limit" := VStr "10" ]}).(req_user)
  = Some Scenario.alice_user
  ∧ Scenario.paged_admin_request.(req_user) = Some Scenario.root_user
  ∧ Scenario.paged_admin_request.(query) !! "limit" = Some (VStr "10")
  ∧ dispatch (@route_layers reference_text Sample.env GET_tasks_all)
      (Sample.with_query {[ "page" := VStr "1"; "limit" := VStr "10" ]}) Sample.db
    = (([Entered "requireRole"], forbiddenResponse), Sample.db)
  ∧ ((∃ dets,
        dispatch (@route_layers reference_text Sample.env GET_tasks_all)
          Scenario.paged_admin_request Sample.db
        = (([Entered "requireRole"; Entered "validate"], validationResponse dets),
           Sample.db))
     ∨ dispatch (@route_layers reference_text Sample.env GET_tasks_all)
         Scenario.paged_admin_request Sample.db
       = (([Entered "requireRole"; Entered "validate"; Entered "getAllTasks"],
           errorHandler illTyped), Sample.db)).
Proof.
  assert (Hl : Scenario.paged_admin_request.(query) !! "limit" = Some (VStr "10"))
    by by_running.
  split; [reflexivity |]. split; [reflexivity |]. split; [exact Hl |]. split.
  - exact (@admin_route_by_role reference_text Sample.env
             (Sample.with_query {[ "page" := VStr "1"; "limit" := VStr "10" ]})
             Sample.db Scenario.alice_user eq_refl).
  - exact (@admin_route_by_role reference_text Sample.env Scenario.paged_admin_request
             Sample.db Scenario.root_user eq_refl "10" Hl).
Defined.

Lemma seed_creates_accounts_witness :
  (∀ u, u ∈ Sample.db.(users) →
        u.(u_email) ≠ "admin@taskapp.com" ∧ u.(u_email) ≠ "user@taskapp.com"
        ∧ u.(u_id) ≠ "a1" ∧ u.(u_id) ≠ "a2")
  ∧ "a1" ≠ "a2"
  ∧ task_ids_fresh ("s1", "s2", "s3") Sample.db
  ∧ Sample.config.(jwt_secret) ≠ ""
  ∧ ∃ db1 ra ru,
      @seed.main reference_bcrypt Scenario.seed_env Sample.db = (inr tt, db1)
      ∧ db1.(users)
        = Sample.db.(users)
          ++ [@seeded_admin reference_bcrypt Scenario.seed_env;
              @seeded_user reference_bcrypt Scenario.seed_env]
      ∧ db1.(tasks) = Sample.db.(tasks) ++ sample_tasks ("s1", "s2", "s3") "a1" "a2" 7000
      ∧ @AuthService.login reference_bcrypt reference_jws Sample.config
          (mkLoginDTO "admin@taskapp.com" "Admin@123") 8000 db1 = (inr ra, db1)
      ∧ ra.(user).(pu_role) = Some ADMIN
      ∧ @AuthService.login reference_bcrypt reference_jws Sample.config
          (mkLoginDTO "user@taskapp.com" "User@123") 8000 db1 = (inr ru, db1)
      ∧ ru.(user).(pu_role) = Some USER.
Proof.
  assert (Hfresh : ∀ u, u ∈ Sample.db.(users) →
            u.(u_email) ≠ "admin@taskapp.com" ∧ u.(u_email) ≠ "user@taskapp.com"
            ∧ u.(u_id) ≠ "a1" ∧ u.(u_id) ≠ "a2").
  { intros u Hu. apply list_elem_of_singleton in Hu. subst u.
    repeat split; discriminate. }
  assert (Hids : "a1" ≠ "a2") by discriminate.
  assert (Htasks : task_ids_fresh ("s1", "s2", "s3") Sample.db).
  { split; [compute_done |]. intros t Ht.
    apply elem_of_cons in Ht as [-> | Ht]; [compute_done |].
    apply list_elem_of_singleton in Ht. subst t. compute_done. }
  assert (Hsec : Sample.config.(jwt_secret) ≠ "") by discriminate.
  split; [exact Hfresh |]. split; [exact Hids |]. split; [exact Htasks |].
  split; [exact Hsec |].
  exact (@seed_creates_accounts reference_bcrypt reference_jws Sample.config
           Scenario.seed_env Sample.db 8000 Hfresh Hids Htasks Hsec).
Defined.

Lemma seed_keeps_accounts_witness :
  emails_unique Scenario.seeded_db
  ∧ Scenario.root ∈ Scenario.seeded_db.(users)
  ∧ Scenario.root.(u_email) = "admin@taskapp.com"
  ∧ Scenario.member ∈ Scenario.seeded_db.(users)
  ∧ Scenario.member.(u_email) = "user@taskapp.com"
  ∧ task_ids_fresh ("s4", "s5", "s6") Scenario.seeded_db
  ∧ ∃ db1,
      @seed.main reference_bcrypt Scenario.reseed_env Scenario.seeded_db = (inr tt, db1)
      ∧ account <$> db1.(users) = account <$> Scenario.seeded_db.(users)
      ∧ u_createdAt <$> db1.(users) = u_createdAt <$> Scenario.seeded_db.(users)
      ∧ db1.(tasks)
        = Scenario.seeded_db.(tasks) ++ sample_tasks ("s4", "s5", "s6") "a1" "a2" 9000.
Proof.
  assert (Hemails : emails_unique Scenario.seeded_db)
    by (unfold emails_unique; cbn; compute_done).
  assert (Ha : Scenario.root ∈ Scenario.seeded_db.(users)) by (right; left).
  assert (Hb : Scenario.member ∈ Scenario.seeded_db.(users)) by (right; right; left).
  assert (Htasks : task_ids_fresh ("s4", "s5", "s6") Scenario.seeded_db).
  { split; [compute_done |]. intros t Ht.
    apply list_elem_of_singleton in Ht. subst t. compute_done. }
  split; [exact Hemails |]. split; [exact Ha |]. split; [reflexivity |].
  split; [exact Hb |]. split; [reflexivity |]. split; [exact Htasks |].
  exact (@seed_keeps_accounts reference_bcrypt Scenario.reseed_env Scenario.seeded_db
           Scenario.root Scenario.member Hemails Ha eq_refl Hb eq_refl Htasks).
Defined.

Lemma own_task_through_the_stack_witness :
  ids_unique Sample.db ∧ Sample.alice_task ∈ Sample.db.(tasks)
  ∧ @AuthService.verifyToken reference_jws Sample.config Sample.alice_token
      Sample.env.(now_ms)
    = inr (mkTokenPayload "u1" USER 1 901)
  ∧ param_id Scenario.own_request = "t2"
  ∧ @handle reference_jws reference_text Sample.config Sample.env GET_task
      Scenario.own_request Sample.db
    = (([Entered "authenticate"; VerifyTokenCalled Sample.alice_token;
         Entered "getTaskById"],
        mkResponse 200 (JsonTask Sample.alice_task)), Sample.db)
  ∧ @handle reference_jws reference_text Sample.config Sample.env DELETE_task
      Scenario.own_request Sample.db
    = (([Entered "authenticate"; VerifyTokenCalled Sample.alice_token;
         Entered "deleteTask"],
        mkResponse 204 NoBody),
       mkDb Sample.db.(users) [Sample.bob_task]).
Proof.
  assert (Hnd : ids_unique Sample.db) by (unfold ids_unique; cbn; compute_done).
  assert (Hin : Sample.alice_task ∈ Sample.db.(tasks)) by (right; left).
  assert (Hv : @AuthService.verifyToken reference_jws Sample.config Sample.alice_token
                 Sample.env.(now_ms)
               = inr (mkTokenPayload "u1" USER 1 901)) by by_running.
  assert (Hid : param_id Scenario.own_request = "t2") by by_running.
  split; [exact Hnd |]. split; [exact Hin |]. split; [exact Hv |]. split; [exact Hid |].
  exact (@own_task_through_the_stack reference_jws reference_text Sample.config
           Sample.env Scenario.own_request Sample.db Sample.alice_token
           (mkTokenPayload "u1" USER 1 901) Sample.alice_task
           Hnd Hin eq_refl Hv eq_refl Hid).
Defined.

Lemma pagination_keeps_other_keys_witness :
  @Joi.validate reference_text paginationSchema Scenario.sorted_query
  = inr Scenario.sorted_value
  ∧ "sort" ≠ "page" ∧ "sort" ≠ "limit"
  ∧ Scenario.sorted_value !! "sort" = Scenario.sorted_query !! "sort".
Proof.
  assert (Hv : @Joi.validate reference_text paginationSchema Scenario.sorted_query
               = inr Scenario.sorted_value) by by_running.
  assert (Hp : "sort" ≠ "page") by discriminate.
  assert (Hl : "sort" ≠ "limit") by discriminate.
  split; [exact Hv |]. split; [exact Hp |]. split; [exact Hl |].
  exact (@pagination_keeps_other_keys reference_text Scenario.sorted_query
           Scenario.sorted_value "sort" Hv Hp Hl).
Defined.
